(** * NestPause: request lifecycle, error classification, offline queue

    A shallow embedding of the data layer of the NestPause application:

    - [ErrorHandler]   (utils/errorHandler.ts)   error categorisation and
      the retry predicate;
    - [BaseService]    (services/base/BaseService.ts) the generic CRUD
      wrapper over the document database;
    - [RequestService] (services/entities/RequestService.ts) the request
      approval state machine;
    - [OfflineManager] (utils/offlineManager.ts) the offline operation
      queue, as a transition system over the tasks of the event loop.

    A JavaScript [Date] is its milliseconds since the epoch ([Z]); a
    date that comes back from the provider unconverted is the provider's
    [Timestamp]; JavaScript strings are [string]; a value that may be
    [undefined] is an [option]. *)

From Stdlib Require Import ZArith Bool Ascii.
From stdpp Require Import gmap strings list fin_maps pretty.

Local Open Scope string_scope.

(** ** JavaScript string primitives used by the sources *)

Module Js.

(** [s.startsWith(p)] *)
Definition startsWith (s p : string) : bool := String.prefix p s.

(** [s.includes(p)]: [p] occurs somewhere in [s]. *)
Fixpoint includes (s p : string) : bool :=
  String.prefix p s ||
  match s with
  | EmptyString => false
  | String _ s' => includes s' p
  end.

(** [o?.startsWith(p)] and [o?.includes(p)] used as conditions: an
    [undefined] receiver yields [undefined], which is falsy. *)
Definition opt_startsWith (o : option string) (p : string) : bool :=
  match o with Some s => startsWith s p | None => false end.

Definition opt_includes (o : option string) (p : string) : bool :=
  match o with Some s => includes s p | None => false end.

(** [o === lit] for a possibly undefined string. *)
Definition opt_eqb (o : option string) (lit : string) : bool :=
  match o with Some s => String.eqb s lit | None => false end.

(** [o || d] on strings: [undefined] and the empty string are falsy. *)
Definition or_default (o : option string) (d : string) : string :=
  match o with
  | Some s => if String.eqb s "" then d else s
  | None => d
  end.

(** [codes.includes(o)] for an array of string literals. *)
Definition array_includes (codes : list string) (o : option string) : bool :=
  existsb (opt_eqb o) codes.

End Js.

(** ** Shared types (types/index.ts) *)

Abbreviation Date := Z (only parsing).

(** A failure value as the sources inspect it: only [.code] and
    [.message] are ever read, each a string when present. *)
Record RawError := mkRawError {
  raw_code : option string;
  raw_message : option string;
}.

Record AppError := mkAppError {
  code : string;
  message : string;
  details : option RawError;
  timestamp : Date;
}.

Record ErrorContext := mkErrorContext {
  operation : string;
  userId : option string;
  familyId : option string;
  deviceId : option string;
  ruleId : option string;
  requestId : option string;
}.

(** An [AppError] seen as an arbitrary thrown value. *)
Definition raw_of_app (e : AppError) : RawError :=
  {| raw_code := Some (code e); raw_message := Some (message e) |}.

(** A [TypeError] raised by the language itself, as a thrown value: it
    has a [message] and no [code]. *)
Definition TypeError (message : string) : RawError :=
  {| raw_code := None; raw_message := Some message |}.

(** ** utils/errorHandler.ts *)

Module ErrorHandler.

Record t := mk {
  errorQueue : list (AppError * ErrorContext);
}.

Definition empty : t := {| errorQueue := [] |}.

Definition auth_message (error : RawError) : string :=
  match raw_code error with
  | Some "auth/user-not-found" => "No account found with this email address"
  | Some "auth/wrong-password" => "Incorrect password"
  | Some "auth/email-already-in-use" => "An account with this email already exists"
  | Some "auth/weak-password" => "Password should be at least 6 characters"
  | Some "auth/invalid-email" => "Invalid email address"
  | Some "auth/too-many-requests" => "Too many failed attempts. Please try again later"
  | Some "auth/network-request-failed" => "Network error. Please check your connection"
  | Some "auth/user-disabled" => "This account has been disabled"
  | Some "auth/requires-recent-login" => "Please sign in again to continue"
  | _ => Js.or_default (raw_message error) "Authentication error"
  end.

Definition firestore_message (error : RawError) : string :=
  match raw_code error with
  | Some "firestore/permission-denied" => "You do not have permission to perform this action"
  | Some "firestore/unavailable" => "Service temporarily unavailable. Please try again later"
  | Some "firestore/deadline-exceeded" => "Request timed out. Please try again"
  | Some "firestore/resource-exhausted" => "Too many requests. Please try again later"
  | Some "firestore/unauthenticated" => "Please sign in to continue"
  | Some "firestore/not-found" => "The requested resource was not found"
  | Some "firestore/failed-precondition" => "Operation failed due to invalid state"
  | _ => Js.or_default (raw_message error) "Database error"
  end.

Definition retryableCodes : list string :=
  [ "firestore/unavailable"; "firestore/deadline-exceeded";
    "firestore/resource-exhausted"; "NETWORK_ERROR"; "TIMEOUT_ERROR" ].

Definition isRetryableError (error : RawError) : bool :=
  Js.array_includes retryableCodes (raw_code error)
  || Js.opt_includes (raw_message error) "network"
  || Js.opt_includes (raw_message error) "timeout".

(** [categorizeError]: the pair (code, message) chosen by the if/else-if
    chain, in source order. *)
Definition categorize (error : RawError) : string * string :=
  if Js.opt_startsWith (raw_code error) "auth/" then
    ("AUTH_ERROR", auth_message error)
  else if Js.opt_startsWith (raw_code error) "firestore/" then
    ("FIRESTORE_ERROR", firestore_message error)
  else if Js.opt_eqb (raw_code error) "NETWORK_ERROR"
          || Js.opt_includes (raw_message error) "network" then
    ("NETWORK_ERROR", "Network error. Please check your internet connection")
  else if Js.opt_eqb (raw_code error) "TIMEOUT"
          || Js.opt_includes (raw_message error) "timeout" then
    ("TIMEOUT_ERROR", "Request timed out. Please try again")
  else if Js.opt_eqb (raw_code error) "VALIDATION_ERROR" then
    ("VALIDATION_ERROR", Js.or_default (raw_message error) "Invalid input provided")
  else if Js.opt_eqb (raw_code error) "PERMISSION_ERROR" then
    ("PERMISSION_ERROR",
     Js.or_default (raw_message error) "You do not have permission to perform this action")
  else if Js.opt_eqb (raw_code error) "BUSINESS_ERROR" then
    ("BUSINESS_ERROR", Js.or_default (raw_message error) "Operation not allowed")
  else if isRetryableError error then
    ("RETRYABLE_ERROR", "Temporary error. Will retry automatically")
  else
    ("UNKNOWN_ERROR", "An unexpected error occurred").

Definition categorizeError (error : RawError) (context : ErrorContext)
    (now : Date) : AppError :=
  let '(c, m) := categorize error in
  {| code := c; message := m; details := Some error; timestamp := now |}.

(** [handleError]: categorise, log (console only, not modelled), push on
    the diagnostic queue, report (a no-op in the source). *)
Definition handleError (eh : t) (error : RawError) (context : ErrorContext)
    (now : Date) : AppError * t :=
  let appError := categorizeError error context now in
  (appError, {| errorQueue := (errorQueue eh ++ [(appError, context)])%list |}).

Definition shouldRetry (error : AppError) : bool :=
  String.eqb (code error) "RETRYABLE_ERROR"
  || String.eqb (code error) "NETWORK_ERROR"
  || String.eqb (code error) "TIMEOUT_ERROR".

(** The deterministic part of [getRetryDelay]:
    [Math.min(baseDelay * Math.pow(2, attempt), maxDelay)]. *)
Definition exponentialBackoff (attempt : Z) : Z :=
  Z.min (1000 * 2 ^ attempt) 30000.

(** [friendlyMessages], the table of [getUserFriendlyMessage]. *)
Definition friendlyMessages : list (string * string) :=
  [ ("AUTH_ERROR", "Please check your credentials and try again");
    ("FIRESTORE_ERROR", "Something went wrong with the database. Please try again");
    ("NETWORK_ERROR", "Please check your internet connection");
    ("TIMEOUT_ERROR", "The request is taking too long. Please try again");
    ("VALIDATION_ERROR", "Please check your input and try again");
    ("PERMISSION_ERROR", "You do not have permission to perform this action");
    ("BUSINESS_ERROR", "This operation is not allowed at this time");
    ("RETRYABLE_ERROR", "Please wait a moment and try again");
    ("UNKNOWN_ERROR", "Something unexpected happened. Please try again") ].

(** The table is an object literal: a key it does not own is looked up
    in [Object.prototype], whose members are not strings. *)
Definition objectPrototypeKeys : list string :=
  [ "constructor"; "__proto__"; "hasOwnProperty"; "isPrototypeOf";
    "propertyIsEnumerable"; "toLocaleString"; "toString"; "valueOf";
    "__defineGetter__"; "__defineSetter__"; "__lookupGetter__";
    "__lookupSetter__" ].

Fixpoint table_get (table : list (string * string)) (key : string)
    : option string :=
  match table with
  | [] => None
  | (k, v) :: table => if String.eqb k key then Some v else table_get table key
  end.

(** What [getUserFriendlyMessage] returns: a string, or (for a code that
    names a member of [Object.prototype]) that member. *)
Inductive Friendly :=
| Text (s : string)
| InheritedMember (key : string).

(** [friendlyMessages[error.code] || error.message] *)
Definition getUserFriendlyMessage (error : AppError) : Friendly :=
  match table_get friendlyMessages (code error) with
  | Some m => if String.eqb m "" then Text (message error) else Text m
  | None =>
      if existsb (String.eqb (code error)) objectPrototypeKeys
      then InheritedMember (code error)
      else Text (message error)
  end.

Definition clearErrorQueue (eh : t) : t := {| errorQueue := [] |}.

Definition getErrorQueue (eh : t) : list (AppError * ErrorContext) := errorQueue eh.

(** The error factories; [now] is [new Date()]. *)
Definition createAuthError (message : string) (details : option RawError)
    (now : Date) : AppError :=
  {| code := "AUTH_ERROR"; message := message; details := details; timestamp := now |}.

Definition createNetworkError (message : string) (details : option RawError)
    (now : Date) : AppError :=
  {| code := "NETWORK_ERROR"; message := message; details := details; timestamp := now |}.

Definition createValidationError (message : string) (details : option RawError)
    (now : Date) : AppError :=
  {| code := "VALIDATION_ERROR"; message := message; details := details; timestamp := now |}.

Definition createPermissionError (message : string) (details : option RawError)
    (now : Date) : AppError :=
  {| code := "PERMISSION_ERROR"; message := message; details := details; timestamp := now |}.

Definition createBusinessError (message : string) (details : option RawError)
    (now : Date) : AppError :=
  {| code := "BUSINESS_ERROR"; message := message; details := details; timestamp := now |}.

(** *** [withRetry]

    [operation k] is what the [k]-th call of the operation settles with;
    [clock k] is the time at which its failure is handled. [maxRetries]
    is taken to be an integer. The delay awaited after attempt [k] is
    [getRetryDelay(appError, k)], that is [exponentialBackoff k] plus the
    random jitter; the run records the attempts it waited after. *)
Inductive Settled (A : Type) :=
| Fulfilled (a : A)
| RejectedWith (e : AppError)
| RejectedLast (lastError : option RawError).
Arguments Fulfilled {A}.
Arguments RejectedWith {A}.
Arguments RejectedLast {A}.

Record Retried (A : Type) := mkRetried {
  settled : Settled A;
  handler : t;
  calls : nat;
  waits : list nat;
}.
Arguments mkRetried {A}.
Arguments settled {A}.
Arguments handler {A}.
Arguments calls {A}.
Arguments waits {A}.

Section WithRetry.
Context {A : Type}.
Variable operation : nat -> A + RawError.
Variable maxRetries : Z.
Variable context : ErrorContext.
Variable clock : nat -> Date.

(** The [for] loop from [attempt] on, with [fuel] iterations left before
    [attempt <= maxRetries] fails. *)
Fixpoint withRetry_loop (fuel : nat) (attempt : nat)
    (lastError : option RawError) (eh : t) (waited : list nat) : Retried A :=
  match fuel with
  | O => mkRetried (RejectedLast lastError) eh attempt waited
  | S fuel =>
      match operation attempt with
      | inl a => mkRetried (Fulfilled a) eh (S attempt) waited
      | inr error =>
          let '(appError, eh) := handleError eh error context (clock attempt) in
          if (Z.of_nat attempt =? maxRetries)%Z || negb (shouldRetry appError) then
            mkRetried (RejectedWith appError) eh (S attempt) waited
          else
            withRetry_loop fuel (S attempt) (Some error) eh (waited ++ [attempt])%list
      end
  end.

Definition withRetry (eh : t) : Retried A :=
  withRetry_loop (Z.to_nat (maxRetries + 1)) 0 None eh [].

End WithRetry.

End ErrorHandler.

(** ** The document database (firebase/firestore), as the services use it *)

Module Firestore.

(** What a provider call does when it is reached: the i-th call of a run
    consults the i-th entry of the environment's script. [Throws] stands
    for every way the call can fail, the SDK refusing its data before
    anything is sent included (it refuses a field whose value is
    [undefined]). *)
Inductive Outcome :=
| Succeeds
| Throws (e : RawError).

(** [Timestamp]: the form in which the provider stores a date and hands
    it back in [doc.data()]. *)
Record Timestamp := mkTimestamp {
  seconds : Z;
  nanoseconds : Z;
}.

#[export] Instance Timestamp_eq_dec : EqDecision Timestamp.
Proof. solve_decision. Defined.

(** 0001-01-01T00:00:00Z, in seconds from the epoch. *)
Definition MIN_SECONDS : Z := -62135596800.

(** The range the [Timestamp] constructor accepts: up to the end of the
    year 9999, nanoseconds below one second. *)
Definition valid_timestamp (t : Timestamp) : Prop :=
  (MIN_SECONDS ≤ seconds t < 253402300800)%Z
  ∧ (0 ≤ nanoseconds t < 1000000000)%Z.

(** [Timestamp.fromMillis]:
    [seconds = Math.floor(ms / 1000)],
    [nanos = Math.floor((ms - seconds * 1000) * 1e6)]. *)
Definition fromMillis (milliseconds : Z) : Timestamp :=
  let seconds := (milliseconds / 1000)%Z in
  let nanos := ((milliseconds - seconds * 1000) * 1000000)%Z in
  mkTimestamp seconds nanos.

(** [Timestamp.fromDate(date)]: what a [Date] handed to the provider is
    stored as. *)
Definition fromDate (date : Date) : Timestamp := fromMillis date.

(** [valueOf()] answers the string made of the seconds since
    0001-01-01, twelve digits, a dot and the nine digits of the
    nanoseconds. This is the number that string denotes, in units of
    1e-9. *)
Definition valueOf_nanos (t : Timestamp) : Z :=
  ((seconds t - MIN_SECONDS) * 1000000000 + nanoseconds t)%Z.

(** [timestamp < date] as JavaScript evaluates it: the left operand
    becomes the number its [valueOf()] string denotes, the right one the
    date's milliseconds, and the two numbers are compared, seconds since
    the year 1 against milliseconds since 1970. (Turning the string
    into a number rounds it to a double, which moves it by less than
    1e-4; the comparison here is the exact one, and agrees unless the
    two numbers are that close.) *)
Definition lt_Date (t : Timestamp) (date : Date) : bool :=
  (valueOf_nanos t <? date * 1000000000)%Z.

(** One collection of the database, and the environment of a run.
    [autoId] is the identifier [addDoc] generates at a given call. *)
Record World (T : Type) := mkWorld {
  docs : gmap string T;
  calls : nat;
  script : nat -> Outcome;
  autoId : nat -> string;
  serverNow : Date;
}.
Arguments mkWorld {T}.
Arguments docs {T}.
Arguments calls {T}.
Arguments script {T}.
Arguments autoId {T}.
Arguments serverNow {T}.

(** Outcome of an [async] body: the promise is fulfilled or rejected. *)
Inductive Result (A : Type) :=
| Returned (a : A)
| Threw (e : RawError).
Arguments Returned {A}.
Arguments Threw {A}.

Definition Prov (T A : Type) : Type := World T -> Result A * World T.

Definition ret {T A} (a : A) : Prov T A := fun w => (Returned a, w).

Definition throw {T A} (e : RawError) : Prov T A := fun w => (Threw e, w).

Definition bind {T A B} (m : Prov T A) (k : A -> Prov T B) : Prov T B :=
  fun w =>
    match m w with
    | (Returned a, w') => k a w'
    | (Threw e, w') => (Threw e, w')
    end.

(** [try { body } catch (error) { handler(error) }] *)
Definition try_catch {T A} (body : Prov T A) (handler : RawError -> Prov T A)
    : Prov T A :=
  fun w =>
    match body w with
    | (Returned a, w') => (Returned a, w')
    | (Threw e, w') => handler e w'
    end.

#[export] Instance prov_ret {T} : MRet (Prov T) := @ret T.
#[export] Instance prov_bind {T} : MBind (Prov T) := fun A B k m => bind m k.

(** Entering a provider call: consult the script and count the call. *)
Definition call {T} : Prov T nat :=
  fun w =>
    let w' := mkWorld (docs w) (S (calls w)) (script w) (autoId w) (serverNow w) in
    match script w (calls w) with
    | Succeeds => (Returned (calls w), w')
    | Throws e => (Threw e, w')
    end.

Definition get_docs {T} : Prov T (gmap string T) := fun w => (Returned (docs w), w).

Definition put_docs {T} (d : gmap string T) : Prov T unit :=
  fun w => (Returned tt, mkWorld d (calls w) (script w) (autoId w) (serverNow w)).

Definition get_serverNow {T} : Prov T Date := fun w => (Returned (serverNow w), w).

Definition get_autoId {T} (i : nat) : Prov T string :=
  fun w => (Returned (autoId w i), w).

(** The provider rejects an update of a document that does not exist. *)
Definition not_found : RawError :=
  {| raw_code := Some "not-found";
     raw_message := Some "No document to update" |}.

Section Calls.
Context {T : Type}.

(** [addDoc(collection, data)]: returns the reference (its id). *)
Definition addDoc (data : T) : Prov T string :=
  i ← call;
  id ← get_autoId i;
  d ← get_docs;
  _ ← put_docs (<[id := data]> d);
  mret id.

(** [getDoc(ref)]: a snapshot, [None] when [!snap.exists()]. *)
Definition getDoc (id : string) : Prov T (string * option T) :=
  _ ← call;
  d ← get_docs;
  mret (id, d !! id).

(** [updateDoc(ref, data)], the field merge being [merge]. *)
Definition updateDoc (id : string) (merge : T -> T) : Prov T unit :=
  _ ← call;
  d ← get_docs;
  match d !! id with
  | Some old => put_docs (<[id := merge old]> d)
  | None => throw not_found
  end.

(** [deleteDoc(ref)] *)
Definition deleteDoc (id : string) : Prov T unit :=
  _ ← call;
  d ← get_docs;
  put_docs (delete id d).

(** [getDocs(query)]: the query is evaluated by the provider. *)
Definition getDocs (eval : gmap string T -> list (string * T))
    : Prov T (list (string * option T)) :=
  _ ← call;
  d ← get_docs;
  mret ((fun '(id, x) => (id, Some x)) <$> eval d).

End Calls.

End Firestore.

(** ** services/base/BaseService.ts *)

Record ApiResponse (A : Type) := mkApiResponse {
  success : bool;
  data : option A;
  error : option string;
  response_message : option string;
}.
Arguments mkApiResponse {A}.
Arguments success {A}.
Arguments data {A}.
Arguments error {A}.
Arguments response_message {A}.

(** [T extends BaseEntity], with [Partial<T>] as the type of updates.
    [strip_id] is the destructuring [{ id, ...data } = entity]. *)
Class BaseEntity (T : Type) := {
  Partial : Type;
  with_id : string -> T -> T;
  with_createdAt : Date -> T -> T;
  with_updatedAt : Date -> T -> T;
  strip_id : Partial -> Partial;
  assign : Partial -> T -> T;
}.

Module BaseService.
Import Firestore.

Section Service.
Context {T : Type} `{BaseEntity T}.

(** [docToEntity]: [null] for a missing document, else the data with the
    document's id. [createdAt] and [updatedAt], the two fields it passes
    through [convertTimestamp], are kept as instants in this model, so
    the conversion is the identity on them; every other field is handed
    on as the provider gave it. *)
Definition docToEntity (doc : string * option T) : option T :=
  match doc.2 with
  | None => None
  | Some d => Some (with_id doc.1 d)
  end.

(** [entityToDoc]: drop the id, stamp [updatedAt] with the server time. *)
Definition entityToDoc (entity : Partial) (now : Date) : T -> T :=
  fun old => with_updatedAt now (assign (strip_id entity) old).

(** [handleError]: the response carries [appError.message]. *)
Definition handleError {A} (e : RawError) : Prov T (ApiResponse A) :=
  now ← get_serverNow;
  let appError :=
    {| code := Js.or_default (raw_code e) "UNKNOWN_ERROR";
       message := Js.or_default (raw_message e) "An unexpected error occurred";
       details := Some e;
       timestamp := now |} in
  mret {| success := false; data := None;
          error := Some (message appError); response_message := None |}.

Definition create (entityData : T) : Prov T (ApiResponse T) :=
  try_catch
    (now ← get_serverNow;
     let docData := with_updatedAt now (with_createdAt now entityData) in
     docRef ← addDoc docData;
     createdDoc ← getDoc docRef;
     let entity := docToEntity createdDoc in
     mret {| success := true; data := entity;
             error := None; response_message := None |})
    handleError.

Definition getById (id : string) : Prov T (ApiResponse T) :=
  try_catch
    (docSnap ← getDoc id;
     match docSnap.2 with
     | None =>
         mret {| success := false; data := None;
                 error := Some "Document not found"; response_message := None |}
     | Some _ =>
         let entity := docToEntity docSnap in
         mret {| success := true; data := entity;
                 error := None; response_message := None |}
     end)
    handleError.

Definition update (id : string) (updates : Partial) : Prov T (ApiResponse T) :=
  try_catch
    (now ← get_serverNow;
     let updateData := entityToDoc updates now in
     _ ← updateDoc id updateData;
     updatedDoc ← getDoc id;
     let entity := docToEntity updatedDoc in
     mret {| success := true; data := entity;
             error := None; response_message := None |})
    handleError.

Definition delete (id : string) : Prov T (ApiResponse unit) :=
  try_catch
    (_ ← deleteDoc id;
     mret {| success := true; data := None;
             error := None; response_message := None |})
    handleError.

(** [query]: the constraints are assembled locally and evaluated by the
    provider; [options] stands for the assembled query. *)
Definition query (options : gmap string T -> list (string * T))
    : Prov T (ApiResponse (list T)) :=
  try_catch
    (querySnapshot ← getDocs options;
     let entities := omap docToEntity querySnapshot in
     mret {| success := true; data := Some entities;
             error := None; response_message := None |})
    handleError.

(** [exists]: a failure of the provider is logged and answered [false]. *)
Definition exists_ (id : string) : Prov T bool :=
  try_catch
    (docSnap ← getDoc id;
     mret (bool_decide (is_Some docSnap.2)))
    (fun _ => mret false).

(** [count]: [result.success ? result.data!.length : 0]. *)
Definition count (options : gmap string T -> list (string * T)) : Prov T nat :=
  try_catch
    (result ← query options;
     mret (if success result
           then match data result with Some l => length l | None => 0%nat end
           else 0%nat))
    (fun _ => mret 0%nat).

End Service.
End BaseService.

(** ** services/entities/RequestService.ts

    A request as the service reads it from the provider. The interface
    declares [expiresAt: Date], but [docToEntity] converts [createdAt]
    and [updatedAt] only, so at run time the field holds the provider's
    [Timestamp].

    Each method that reads and then writes is given in two parts, split
    at its [await this.getById(...)]: the part after the [await] takes
    the response of the read and runs in the collection as it is by
    then, which other calls may have changed in between. The method
    under its own name is the run in which nothing happens in between. *)

Module RequestService.
Import Firestore.
Local Open Scope Z_scope.

Inductive RequestType := extra_time | app_access | bedtime_extension | rule_suspension.
Inductive RequestStatus := pending | approved | denied | expired.
Inductive Decision := approve | deny.

#[export] Instance RequestStatus_eq_dec : EqDecision RequestStatus.
Proof. solve_decision. Defined.
#[export] Instance Decision_eq_dec : EqDecision Decision.
Proof. solve_decision. Defined.

Record Approval := mkApproval {
  parentId : string;
  decision : Decision;
  approval_reason : option string;
  approval_timestamp : Date;
}.

Record Request := mkRequest {
  id : string;
  familyId : string;
  requesterId : string;
  type : RequestType;
  target : string;
  duration : option Z;
  reason : option string;
  status : RequestStatus;
  approvals : list Approval;
  expiresAt : Timestamp;
  createdAt : Date;
  updatedAt : Date;
}.

(** [Partial<Request>]: each field present or absent. *)
Record RequestPartial := mkPartial {
  p_id : option string;
  p_familyId : option string;
  p_requesterId : option string;
  p_type : option RequestType;
  p_target : option string;
  p_duration : option Z;
  p_reason : option string;
  p_status : option RequestStatus;
  p_approvals : option (list Approval);
  p_expiresAt : option Timestamp;
  p_createdAt : option Date;
  p_updatedAt : option Date;
}.

Definition request_with_id (i : string) (r : Request) : Request :=
  mkRequest i (familyId r) (requesterId r) (type r) (target r) (duration r)
    (reason r) (status r) (approvals r) (expiresAt r) (createdAt r) (updatedAt r).

Definition request_with_createdAt (t : Date) (r : Request) : Request :=
  mkRequest (id r) (familyId r) (requesterId r) (type r) (target r) (duration r)
    (reason r) (status r) (approvals r) (expiresAt r) t (updatedAt r).

Definition request_with_updatedAt (t : Date) (r : Request) : Request :=
  mkRequest (id r) (familyId r) (requesterId r) (type r) (target r) (duration r)
    (reason r) (status r) (approvals r) (expiresAt r) (createdAt r) t.

Definition partial_strip_id (p : RequestPartial) : RequestPartial :=
  mkPartial None (p_familyId p) (p_requesterId p) (p_type p) (p_target p)
    (p_duration p) (p_reason p) (p_status p) (p_approvals p) (p_expiresAt p)
    (p_createdAt p) (p_updatedAt p).

(** Field-wise merge of an update into a stored document. *)
Definition request_assign (p : RequestPartial) (r : Request) : Request :=
  mkRequest
    (default (id r) (p_id p))
    (default (familyId r) (p_familyId p))
    (default (requesterId r) (p_requesterId p))
    (default (type r) (p_type p))
    (default (target r) (p_target p))
    (match p_duration p with Some d => Some d | None => duration r end)
    (match p_reason p with Some d => Some d | None => reason r end)
    (default (status r) (p_status p))
    (default (approvals r) (p_approvals p))
    (default (expiresAt r) (p_expiresAt p))
    (default (createdAt r) (p_createdAt p))
    (default (updatedAt r) (p_updatedAt p)).

#[export] Instance Request_entity : BaseEntity Request := {|
  Partial := RequestPartial;
  with_id := request_with_id;
  with_createdAt := request_with_createdAt;
  with_updatedAt := request_with_updatedAt;
  strip_id := partial_strip_id;
  assign := request_assign;
|}.

Definition hours (h : Z) : Z := h * 60 * 60 * 1000.

(** [createRequest]; [now] is [Date.now()], and the [Date] built from it
    is stored by the provider as a [Timestamp]. An omitted [duration] or
    [reason] is handed on as a field whose value is [undefined]; the SDK
    refuses such data, so for these the write is one the script lets
    throw. *)
Definition createRequest (familyId requesterId : string) (type : RequestType)
    (target : string) (duration : option Z) (reason : option string)
    (expiresInHours : Z) (now : Date) : Prov Request (ApiResponse Request) :=
  let expiresAt := fromDate (now + hours expiresInHours) in
  let requestData :=
    {| id := ""; familyId := familyId; requesterId := requesterId;
       type := type; target := target; duration := duration; reason := reason;
       status := pending; approvals := []; expiresAt := expiresAt;
       createdAt := 0; updatedAt := 0 |} in
  BaseService.create requestData.

Definition is_deny (a : Approval) : bool := bool_decide (decision a = deny).
Definition is_approve (a : Approval) : bool := bool_decide (decision a = approve).

Definition calculateRequestStatus (approvals : list Approval) : RequestStatus :=
  if (length approvals =? 0)%nat then pending
  else
    let hasDenial := existsb is_deny approvals in
    if hasDenial then denied
    else
      let hasApproval := existsb is_approve approvals in
      if hasApproval then approved
      else pending.

(** [approveRequest] after [await this.getById(requestId)]: [request] is
    the response of the read and [now] is [new Date()]. The update
    carries the approvals that were read plus the new one, and the
    status computed from that list. An omitted [reason] puts
    [reason: undefined] into the new approval; the SDK refuses such
    data, so for it the write is one the script lets throw. *)
Definition approveRequest_resume (request : ApiResponse Request)
    (requestId parentId : string) (reason : option string) (now : Date)
    : Prov Request (ApiResponse Request) :=
  match data request with
  | Some request_data =>
      if negb (success request) then mret request
      else
        let approval :=
          {| parentId := parentId; decision := approve;
             approval_reason := reason; approval_timestamp := now |} in
        let updatedApprovals := (approvals request_data ++ [approval])%list in
        let status := calculateRequestStatus updatedApprovals in
        BaseService.update requestId
          (mkPartial None None None None None None None
             (Some status) (Some updatedApprovals) None None None)
  | None => mret request
  end.

(** [approveRequest], read and write in one go. *)
Definition approveRequest (requestId parentId : string)
    (reason : option string) (now : Date) : Prov Request (ApiResponse Request) :=
  request ← BaseService.getById requestId;
  approveRequest_resume request requestId parentId reason now.

(** [denyRequest] after [await this.getById(requestId)]; as for
    [approveRequest_resume]. *)
Definition denyRequest_resume (request : ApiResponse Request)
    (requestId parentId : string) (reason : option string) (now : Date)
    : Prov Request (ApiResponse Request) :=
  match data request with
  | Some request_data =>
      if negb (success request) then mret request
      else
        let approval :=
          {| parentId := parentId; decision := deny;
             approval_reason := reason; approval_timestamp := now |} in
        let updatedApprovals := (approvals request_data ++ [approval])%list in
        let status := calculateRequestStatus updatedApprovals in
        BaseService.update requestId
          (mkPartial None None None None None None None
             (Some status) (Some updatedApprovals) None None None)
  | None => mret request
  end.

(** [denyRequest], read and write in one go. *)
Definition denyRequest (requestId parentId : string)
    (reason : option string) (now : Date) : Prov Request (ApiResponse Request) :=
  request ← BaseService.getById requestId;
  denyRequest_resume request requestId parentId reason now.

(** [checkRequestExpiry] after [await this.getById(requestId)]; [now] is
    [new Date()]. [request.data.expiresAt < now] compares the provider's
    [Timestamp] with a [Date]. *)
Definition checkRequestExpiry_resume (request : ApiResponse Request)
    (requestId : string) (now : Date) : Prov Request (ApiResponse Request) :=
  match data request with
  | Some request_data =>
      if negb (success request) then mret request
      else if lt_Date (expiresAt request_data) now
              && bool_decide (status request_data = pending) then
        BaseService.update requestId
          (mkPartial None None None None None None None
             (Some expired) None None None None)
      else mret request
  | None => mret request
  end.

(** [checkRequestExpiry], read and write in one go. *)
Definition checkRequestExpiry (requestId : string) (now : Date)
    : Prov Request (ApiResponse Request) :=
  request ← BaseService.getById requestId;
  checkRequestExpiry_resume request requestId now.

(** [request.data.expiresAt.getTime()]: a [Timestamp] has [toDate] and
    [toMillis] but no [getTime], so the call throws a [TypeError]. *)
Definition getTime_is_not_a_function : RawError :=
  TypeError "request.data.expiresAt.getTime is not a function".

Definition expiresAt_getTime (expiresAt : Timestamp) : Prov Request Z :=
  throw getTime_is_not_a_function.

(** [extendRequestExpiry] after [await this.getById(requestId)]. Nothing
    here is inside a [try]: what [getTime] throws rejects the promise. *)
Definition extendRequestExpiry_resume (request : ApiResponse Request)
    (requestId : string) (additionalHours : Z)
    : Prov Request (ApiResponse Request) :=
  match data request with
  | Some request_data =>
      if negb (success request) then mret request
      else
        time ← expiresAt_getTime (expiresAt request_data);
        let newExpiryDate := time + hours additionalHours in
        BaseService.update requestId
          (mkPartial None None None None None None None
             None None (Some (fromDate newExpiryDate)) None None)
  | None => mret request
  end.

(** [extendRequestExpiry], read and write in one go. *)
Definition extendRequestExpiry (requestId : string) (additionalHours : Z)
    : Prov Request (ApiResponse Request) :=
  request ← BaseService.getById requestId;
  extendRequestExpiry_resume request requestId additionalHours.

(** *** Queries

    The options object a method hands to [this.query]. The provider
    evaluates it: [evalQuery] is that evaluation, about which nothing is
    assumed. *)
Inductive FieldValue :=
| StringValue (s : string)
| DateValue (d : Date).

Record WhereClause := mkWhere {
  where_field : string;
  where_operator : string;
  where_value : FieldValue;
}.

Record OrderClause := mkOrder {
  order_field : string;
  order_direction : string;
}.

Record QueryOptions := mkQueryOptions {
  query_where : list WhereClause;
  query_orderBy : list OrderClause;
}.

Definition type_name (t : RequestType) : string :=
  match t with
  | extra_time => "extra_time"
  | app_access => "app_access"
  | bedtime_extension => "bedtime_extension"
  | rule_suspension => "rule_suspension"
  end.

(** [if (familyId)] on an optional string: absent and empty are falsy. *)
Definition truthy (o : option string) : option string :=
  match o with
  | Some s => if String.eqb s "" then None else Some s
  | None => None
  end.

#[export] Instance RequestType_eq_dec : EqDecision RequestType.
Proof. solve_decision. Defined.

Record RequestStats := mkStats {
  total : nat;
  stat_pending : nat;
  stat_approved : nat;
  stat_denied : nat;
  stat_expired : nat;
  byType : list (RequestType * nat);
}.

(** [acc.byType[type] = (acc.byType[type] || 0) + 1] on an object whose
    keys keep their insertion order. *)
Fixpoint bump (ty : RequestType) (counts : list (RequestType * nat))
    : list (RequestType * nat) :=
  match counts with
  | [] => [(ty, 1%nat)]
  | (k, n) :: counts =>
      if decide (k = ty) then (k, S n) :: counts else (k, n) :: bump ty counts
  end.

(** One step of the [reduce] of [getFamilyRequestStats]. *)
Definition count_request (acc : RequestStats) (request : Request) : RequestStats :=
  let acc :=
    match status request with
    | pending => mkStats (S (total acc)) (S (stat_pending acc)) (stat_approved acc)
                   (stat_denied acc) (stat_expired acc) (byType acc)
    | approved => mkStats (S (total acc)) (stat_pending acc) (S (stat_approved acc))
                    (stat_denied acc) (stat_expired acc) (byType acc)
    | denied => mkStats (S (total acc)) (stat_pending acc) (stat_approved acc)
                  (S (stat_denied acc)) (stat_expired acc) (byType acc)
    | expired => mkStats (S (total acc)) (stat_pending acc) (stat_approved acc)
                   (stat_denied acc) (S (stat_expired acc)) (byType acc)
    end in
  mkStats (total acc) (stat_pending acc) (stat_approved acc) (stat_denied acc)
    (stat_expired acc) (bump (type request) (byType acc)).

Definition no_stats : RequestStats := mkStats 0 0 0 0 0 [].

Section Queries.
Variable evalQuery : QueryOptions -> gmap string Request -> list (string * Request).

Definition getRequestsByFamily (familyId : string)
    : Prov Request (ApiResponse (list Request)) :=
  BaseService.query
    (evalQuery
       {| query_where := [ mkWhere "familyId" "==" (StringValue familyId) ];
          query_orderBy := [ mkOrder "createdAt" "desc" ] |}).

Definition getRequestsByRequester (requesterId : string)
    : Prov Request (ApiResponse (list Request)) :=
  BaseService.query
    (evalQuery
       {| query_where := [ mkWhere "requesterId" "==" (StringValue requesterId) ];
          query_orderBy := [ mkOrder "createdAt" "desc" ] |}).

Definition getPendingRequests (familyId : string)
    : Prov Request (ApiResponse (list Request)) :=
  BaseService.query
    (evalQuery
       {| query_where := [ mkWhere "familyId" "==" (StringValue familyId);
                           mkWhere "status" "==" (StringValue "pending") ];
          query_orderBy := [ mkOrder "createdAt" "desc" ] |}).

Definition getRequestsByType (type : RequestType) (familyId : option string)
    : Prov Request (ApiResponse (list Request)) :=
  let whereConditions :=
    ([ mkWhere "type" "==" (StringValue (type_name type)) ]
     ++ match truthy familyId with
        | Some f => [ mkWhere "familyId" "==" (StringValue f) ]
        | None => []
        end)%list in
  BaseService.query
    (evalQuery {| query_where := whereConditions;
                  query_orderBy := [ mkOrder "createdAt" "desc" ] |}).

(** [getExpiredRequests]; [now] is [new Date()]. *)
Definition getExpiredRequests (familyId : option string) (now : Date)
    : Prov Request (ApiResponse (list Request)) :=
  let whereConditions :=
    ([ mkWhere "expiresAt" "<" (DateValue now) ]
     ++ match truthy familyId with
        | Some f => [ mkWhere "familyId" "==" (StringValue f) ]
        | None => []
        end)%list in
  BaseService.query
    (evalQuery {| query_where := whereConditions;
                  query_orderBy := [ mkOrder "expiresAt" "desc" ] |}).

(** [!request.approvals.some(approval => approval.parentId === parentId)] *)
Definition undecided_by (parent : string) (request : Request) : bool :=
  negb (existsb (fun approval => String.eqb (parentId approval) parent)
          (approvals request)).

Definition getRequestsForParentApproval (parentId : string)
    (familyId : option string) : Prov Request (ApiResponse (list Request)) :=
  let whereConditions :=
    ([ mkWhere "status" "==" (StringValue "pending") ]
     ++ match truthy familyId with
        | Some f => [ mkWhere "familyId" "==" (StringValue f) ]
        | None => []
        end)%list in
  requests ← BaseService.query
               (evalQuery {| query_where := whereConditions;
                             query_orderBy := [ mkOrder "createdAt" "desc" ] |});
  match data requests with
  | Some requests_data =>
      if negb (success requests) then mret requests
      else
        let filteredRequests := List.filter (undecided_by parentId) requests_data in
        mret {| success := true; data := Some filteredRequests;
                error := None; response_message := None |}
  | None => mret requests
  end.

Definition getFamilyRequestStats (familyId : string) : Prov Request RequestStats :=
  requests ← getRequestsByFamily familyId;
  match data requests with
  | Some requestList =>
      if negb (success requests) then mret no_stats
      else mret (foldl count_request no_stats requestList)
  | None => mret no_stats
  end.

End Queries.

End RequestService.

(** ** utils/offlineManager.ts

    The manager runs on the JavaScript event loop. Each [async] method is
    split at its [await]: the part that runs when the method is called
    keeps the method's name, the part that runs when the awaited promise
    settles is named [_resume]. What is suspended in between (calls in
    flight, armed timers, unsettled promises) is part of the state, and
    the environment chooses which task runs next. *)

Module OfflineManager.
Local Open Scope Z_scope.

Record OfflineState := mkOfflineState {
  isConnected : bool;
  isInternetReachable : bool;
  net_type : option string;
  isOfflineMode : bool;
}.

(** [NetInfo.NetInfoState]: both flags may be [null]. *)
Record NetInfoState := mkNetInfoState {
  ni_isConnected : option bool;
  ni_isInternetReachable : option bool;
  ni_type : string;
}.

(** A closure [() => Promise<any>], named by a handle. Whether a call of
    it succeeds is decided by the environment when the call settles. *)
Definition Thunk := nat.

Record OfflineOperation := mkOfflineOperation {
  op_id : string;
  op_operation : Thunk;
  op_context : ErrorContext;
  op_timestamp : Date;
  retryCount : Z;
  maxRetries : Z;
}.

(** The promise [queueOperation] hands to its caller. *)
Inductive PromiseState :=
| Pending
| Resolved
| Rejected (reason : string).

(** Callbacks armed with [setInterval] / [setTimeout]. Operation objects
    are named by their address in [heap]; promises by their index. *)
Inductive Timer :=
| CheckCompletion (operationId : string) (promise : nat)
| QueueTimeout (operationId : string) (promise : nat) (interval : nat)
| RetryOperation (operation : nat).

(** [PromiseSettledResult.status] *)
Inductive SettledStatus := fulfilled | rejected.

#[export] Instance SettledStatus_eq_dec : EqDecision SettledStatus.
Proof. solve_decision. Defined.

(** An activation of [processOperationQueue] suspended at
    [await Promise.allSettled(...)]: the snapshot [operations] and, per
    entry, the result of its [executeQueuedOperation] once settled. *)
Record Drain := mkDrain {
  operations : list nat;
  results : list (option SettledStatus);
}.

(** An activation of [executeWithOfflineSupport] suspended at
    [await operation()]. *)
Record DirectCall := mkDirectCall {
  dc_operation : Thunk;
  dc_context : ErrorContext;
  dc_queueOnOffline : bool;
  dc_maxRetries : Z;
}.

(** The fields of the class ([offlineState], [operationQueue],
    [isProcessingQueue]; the queue holds references into [heap]), the
    error handler singleton, and the suspended tasks of the event loop.
    [invocations] records each call of a queued closure, [console] each
    line written by the queue processing. *)
Record t := mk {
  offlineState : OfflineState;
  heap : list OfflineOperation;
  operationQueue : list nat;
  isProcessingQueue : bool;
  errors : ErrorHandler.t;
  clock : Date;
  promises : list PromiseState;
  timers : gmap nat (Timer * Date);
  nextTimer : nat;
  onlineTransitions : nat;
  offlineTransitions : nat;
  directCalls : list DirectCall;
  drains : list Drain;
  retries : list nat;
  invocations : list nat;
  console : list string;
}.

Definition set_offlineState (v : OfflineState) (s : t) : t :=
  mk v (heap s) (operationQueue s) (isProcessingQueue s) (errors s) (clock s) (promises s) (timers s) (nextTimer s) (onlineTransitions s) (offlineTransitions s) (directCalls s) (drains s) (retries s) (invocations s) (console s).
Definition set_heap (v : list OfflineOperation) (s : t) : t :=
  mk (offlineState s) v (operationQueue s) (isProcessingQueue s) (errors s) (clock s) (promises s) (timers s) (nextTimer s) (onlineTransitions s) (offlineTransitions s) (directCalls s) (drains s) (retries s) (invocations s) (console s).
Definition set_operationQueue (v : list nat) (s : t) : t :=
  mk (offlineState s) (heap s) v (isProcessingQueue s) (errors s) (clock s) (promises s) (timers s) (nextTimer s) (onlineTransitions s) (offlineTransitions s) (directCalls s) (drains s) (retries s) (invocations s) (console s).
Definition set_isProcessingQueue (v : bool) (s : t) : t :=
  mk (offlineState s) (heap s) (operationQueue s) v (errors s) (clock s) (promises s) (timers s) (nextTimer s) (onlineTransitions s) (offlineTransitions s) (directCalls s) (drains s) (retries s) (invocations s) (console s).
Definition set_errors (v : ErrorHandler.t) (s : t) : t :=
  mk (offlineState s) (heap s) (operationQueue s) (isProcessingQueue s) v (clock s) (promises s) (timers s) (nextTimer s) (onlineTransitions s) (offlineTransitions s) (directCalls s) (drains s) (retries s) (invocations s) (console s).
Definition set_clock (v : Date) (s : t) : t :=
  mk (offlineState s) (heap s) (operationQueue s) (isProcessingQueue s) (errors s) v (promises s) (timers s) (nextTimer s) (onlineTransitions s) (offlineTransitions s) (directCalls s) (drains s) (retries s) (invocations s) (console s).
Definition set_promises (v : list PromiseState) (s : t) : t :=
  mk (offlineState s) (heap s) (operationQueue s) (isProcessingQueue s) (errors s) (clock s) v (timers s) (nextTimer s) (onlineTransitions s) (offlineTransitions s) (directCalls s) (drains s) (retries s) (invocations s) (console s).
Definition set_timers (v : gmap nat (Timer * Date)) (s : t) : t :=
  mk (offlineState s) (heap s) (operationQueue s) (isProcessingQueue s) (errors s) (clock s) (promises s) v (nextTimer s) (onlineTransitions s) (offlineTransitions s) (directCalls s) (drains s) (retries s) (invocations s) (console s).
Definition set_nextTimer (v : nat) (s : t) : t :=
  mk (offlineState s) (heap s) (operationQueue s) (isProcessingQueue s) (errors s) (clock s) (promises s) (timers s) v (onlineTransitions s) (offlineTransitions s) (directCalls s) (drains s) (retries s) (invocations s) (console s).
Definition set_onlineTransitions (v : nat) (s : t) : t :=
  mk (offlineState s) (heap s) (operationQueue s) (isProcessingQueue s) (errors s) (clock s) (promises s) (timers s) (nextTimer s) v (offlineTransitions s) (directCalls s) (drains s) (retries s) (invocations s) (console s).
Definition set_offlineTransitions (v : nat) (s : t) : t :=
  mk (offlineState s) (heap s) (operationQueue s) (isProcessingQueue s) (errors s) (clock s) (promises s) (timers s) (nextTimer s) (onlineTransitions s) v (directCalls s) (drains s) (retries s) (invocations s) (console s).
Definition set_directCalls (v : list DirectCall) (s : t) : t :=
  mk (offlineState s) (heap s) (operationQueue s) (isProcessingQueue s) (errors s) (clock s) (promises s) (timers s) (nextTimer s) (onlineTransitions s) (offlineTransitions s) v (drains s) (retries s) (invocations s) (console s).
Definition set_drains (v : list Drain) (s : t) : t :=
  mk (offlineState s) (heap s) (operationQueue s) (isProcessingQueue s) (errors s) (clock s) (promises s) (timers s) (nextTimer s) (onlineTransitions s) (offlineTransitions s) (directCalls s) v (retries s) (invocations s) (console s).
Definition set_retries (v : list nat) (s : t) : t :=
  mk (offlineState s) (heap s) (operationQueue s) (isProcessingQueue s) (errors s) (clock s) (promises s) (timers s) (nextTimer s) (onlineTransitions s) (offlineTransitions s) (directCalls s) (drains s) v (invocations s) (console s).
Definition set_invocations (v : list nat) (s : t) : t :=
  mk (offlineState s) (heap s) (operationQueue s) (isProcessingQueue s) (errors s) (clock s) (promises s) (timers s) (nextTimer s) (onlineTransitions s) (offlineTransitions s) (directCalls s) (drains s) (retries s) v (console s).
Definition set_console (v : list string) (s : t) : t :=
  mk (offlineState s) (heap s) (operationQueue s) (isProcessingQueue s) (errors s) (clock s) (promises s) (timers s) (nextTimer s) (onlineTransitions s) (offlineTransitions s) (directCalls s) (drains s) (retries s) (invocations s) v.

Definition initial : t :=
  {| offlineState := mkOfflineState true true None false;
     heap := []; operationQueue := []; isProcessingQueue := false;
     errors := ErrorHandler.empty; clock := 0; promises := [];
     timers := ∅; nextTimer := 0%nat;
     onlineTransitions := 0%nat; offlineTransitions := 0%nat;
     directCalls := []; drains := []; retries := [];
     invocations := []; console := [] |}.

(** *** Small helpers: timers, promises, console *)

Definition setTimer (tm : Timer) (delay : Z) (s : t) : t :=
  set_nextTimer (S (nextTimer s))
    (set_timers (<[nextTimer s := (tm, clock s + delay)]> (timers s)) s).

Definition clearTimer (h : nat) (s : t) : t :=
  set_timers (base.delete h (timers s)) s.

(** [resolve] / [reject] of a promise: only a pending promise settles. *)
Definition settle (new : PromiseState) (old : PromiseState) : PromiseState :=
  match old with
  | Pending => new
  | _ => old
  end.

Definition resolve (p : nat) (s : t) : t :=
  set_promises (alter (settle Resolved) p (promises s)) s.

Definition reject (p : nat) (reason : string) (s : t) : t :=
  set_promises (alter (settle (Rejected reason)) p (promises s)) s.

Definition log (line : string) (s : t) : t :=
  set_console (console s ++ [line])%list s.

(** [this.operationQueue.find(o => o.id === operationId)] *)
Definition has_id (s : t) (operationId : string) (r : nat) : bool :=
  match heap s !! r with
  | Some o => String.eqb (op_id o) operationId
  | None => false
  end.

Definition queue_find (s : t) (operationId : string) : option nat :=
  List.find (has_id s operationId) (operationQueue s).

(** *** Methods *)

Definition isOffline (s : t) : bool := isOfflineMode (offlineState s).

Definition getQueuedOperationsCount (s : t) : nat := length (operationQueue s).

Definition clearQueuedOperations (s : t) : t := set_operationQueue [] s.

Definition removeOperationFromQueue (operationId : string) (s : t) : t :=
  set_operationQueue
    (List.filter (fun r => negb (has_id s operationId r)) (operationQueue s)) s.

Definition networkErrorCodes : list string :=
  [ "NETWORK_ERROR"; "TIMEOUT_ERROR"; "firestore/unavailable";
    "firestore/deadline-exceeded"; "auth/network-request-failed" ].

Definition isNetworkError (error : RawError) : bool :=
  Js.array_includes networkErrorCodes (raw_code error)
  || Js.opt_includes (raw_message error) "network"
  || Js.opt_includes (raw_message error) "timeout"
  || Js.opt_includes (raw_message error) "fetch".

Definition createOfflineError (message : string) (now : Date) : AppError :=
  {| code := "OFFLINE_ERROR"; message := message;
     details := None; timestamp := now |}.

(** [queueOperation]: [rnd] is the random suffix of the identifier.
    Returns the index of the promise given to the caller. *)
Definition queueOperation (operation : Thunk) (context : ErrorContext)
    (maxRetries : Z) (rnd : string) (s : t) : t * nat :=
  let operationId := "op_" +:+ pretty (clock s) +:+ "_" +:+ rnd in
  let queuedOperation :=
    {| op_id := operationId; op_operation := operation; op_context := context;
       op_timestamp := clock s; retryCount := 0; maxRetries := maxRetries |} in
  let r := length (heap s) in
  let p := length (promises s) in
  let s := set_heap (heap s ++ [queuedOperation])%list s in
  let s := set_operationQueue (operationQueue s ++ [r])%list s in
  let s := set_promises (promises s ++ [Pending])%list s in
  let interval := nextTimer s in
  let s := setTimer (CheckCompletion operationId p) 1000 s in
  let s := setTimer (QueueTimeout operationId p interval) (5 * 60 * 1000) s in
  (s, p).

(** The interval callback [checkCompletion]. *)
Definition checkCompletion (operationId : string) (p : nat) (s : t) : t :=
  match queue_find s operationId with
  | None => resolve p s
  | Some _ => s
  end.

(** The five-minute callback armed by [queueOperation]. *)
Definition queueTimeout (operationId : string) (p interval : nat) (s : t) : t :=
  let s := clearTimer interval s in
  match queue_find s operationId with
  | Some _ => reject p "Operation timed out while queued" s
  | None => s
  end.

(** [executeQueuedOperation] up to [await operation.operation()]: the
    closure is called. *)
Definition executeQueuedOperation (r : nat) (s : t) : t :=
  set_invocations (invocations s ++ [r])%list s.

(** [executeQueuedOperation] after the await; [ok] tells whether the
    closure's promise was fulfilled. The [catch] block handles every
    failure, so the method's own promise is fulfilled either way. *)
Definition executeQueuedOperation_resume (r : nat) (ok : bool) (s : t)
    : t * SettledStatus :=
  if ok then (s, fulfilled)
  else
    match heap s !! r with
    | None => (s, fulfilled)
    | Some o =>
        let o := mkOfflineOperation (op_id o) (op_operation o) (op_context o)
                   (op_timestamp o) (retryCount o + 1) (maxRetries o) in
        let s := set_heap (<[r := o]> (heap s)) s in
        if retryCount o <=? maxRetries o then
          let delay := Z.min (1000 * 2 ^ retryCount o) 30000 in
          (setTimer (RetryOperation r) delay s, fulfilled)
        else
          let s := log ("Operation " +:+ op_id o +:+ " failed after "
                        +:+ pretty (maxRetries o) +:+ " retries") s in
          (removeOperationFromQueue (op_id o) s, fulfilled)
    end.

(** [processOperationQueue] up to [await Promise.allSettled(...)]. *)
Definition processOperationQueue (s : t) : t :=
  if isProcessingQueue s || (length (operationQueue s) =? 0)%nat then s
  else
    let s := set_isProcessingQueue true s in
    let operations := operationQueue s in
    let s := foldl (fun s r => executeQueuedOperation r s) s operations in
    set_drains
      (drains s ++ [mkDrain operations (replicate (length operations) None)])%list
      s.

(** The [results.forEach] loop: remove the entries whose result is
    fulfilled. *)
Definition removeCompleted (operations : list nat)
    (results : list (option SettledStatus)) (s : t) : t :=
  foldl
    (fun s '(result, r) =>
       if bool_decide (result = Some fulfilled) then
         match heap s !! r with
         | Some op => removeOperationFromQueue (op_id op) s
         | None => s
         end
       else s)
    s (zip results operations).

Definition count_status (st : SettledStatus)
    (results : list (option SettledStatus)) : nat :=
  length (List.filter (fun r => bool_decide (r = Some st)) results).

(** [processOperationQueue] after the await, for the [d]-th suspended
    activation: enabled once every result is in. The caller
    [handleOnlineTransition] then writes its own log line. *)
Definition processOperationQueue_resume (d : nat) (s : t) : option t :=
  dr ← drains s !! d;
  if forallb (fun r => bool_decide (is_Some r)) (results dr) then
    let s := removeCompleted (operations dr) (results dr) s in
    let successful := count_status fulfilled (results dr) in
    let failed := count_status rejected (results dr) in
    let s :=
      if (0 <? successful)%nat || (0 <? failed)%nat then
        log ("Processed offline queue: " +:+ pretty successful
             +:+ " successful, " +:+ pretty failed +:+ " failed") s
      else s in
    let s := set_isProcessingQueue false s in
    let s := set_drains (base.delete d (drains s)) s in
    Some (log "Back online - processing queued operations" s)
  else None.

(** The [j]-th [executeQueuedOperation] of the [d]-th suspended drain
    settles. *)
Definition drainOperation_resume (d j : nat) (ok : bool) (s : t) : option t :=
  dr ← drains s !! d;
  r ← operations dr !! j;
  res ← results dr !! j;
  match res with
  | Some _ => None
  | None =>
      let '(s, st) := executeQueuedOperation_resume r ok s in
      Some (set_drains
              (<[d := mkDrain (operations dr) (<[j := Some st]> (results dr))]>
                 (drains s)) s)
  end.

(** A retry armed by [setTimeout] settles; nobody awaits its promise. *)
Definition retry_resume (k : nat) (ok : bool) (s : t) : option t :=
  r ← retries s !! k;
  let s := set_retries (base.delete k (retries s)) s in
  Some (executeQueuedOperation_resume r ok s).1.

(** A timer whose time has come runs its callback. An interval is armed
    again, a timeout is spent. *)
Definition fireTimer (h : nat) (s : t) : option t :=
  '(tm, due) ← timers s !! h;
  if due <=? clock s then
    match tm with
    | CheckCompletion operationId p =>
        let s := set_timers (<[h := (tm, due + 1000)]> (timers s)) s in
        Some (checkCompletion operationId p s)
    | QueueTimeout operationId p interval =>
        let s := clearTimer h s in
        Some (queueTimeout operationId p interval s)
    | RetryOperation r =>
        let s := clearTimer h s in
        let s := executeQueuedOperation r s in
        Some (set_retries (retries s ++ [r])%list s)
    end
  else None.

(** [handleOnlineTransition] up to [await disableOfflineMode()]. *)
Definition handleOnlineTransition (s : t) : t :=
  set_onlineTransitions (S (onlineTransitions s)) s.

(** [handleOnlineTransition] after [disableOfflineMode()] settled. When
    the queue processing returns at once, the log line follows at once. *)
Definition handleOnlineTransition_resume (ok : bool) (s : t) : option t :=
  match onlineTransitions s with
  | O => None
  | S n =>
      let s := set_onlineTransitions n s in
      if ok then
        if isProcessingQueue s || (length (operationQueue s) =? 0)%nat then
          Some (log "Back online - processing queued operations"
                  (processOperationQueue s))
        else Some (processOperationQueue s)
      else Some (log "Error handling online transition:" s)
  end.

(** [handleOfflineTransition] up to [await enableOfflineMode()]. *)
Definition handleOfflineTransition (s : t) : t :=
  set_offlineTransitions (S (offlineTransitions s)) s.

Definition handleOfflineTransition_resume (ok : bool) (s : t) : option t :=
  match offlineTransitions s with
  | O => None
  | S n =>
      let s := set_offlineTransitions n s in
      if ok then Some (log "Gone offline - enabling offline mode" s)
      else Some (log "Error handling offline transition:" s)
  end.

(** [!x] for [x : boolean | null]. *)
Definition not_nullable (x : option bool) : bool :=
  match x with Some b => negb b | None => true end.

(** [handleNetworkStateChange]; the listeners are told the new state
    (they live outside the manager). *)
Definition handleNetworkStateChange (state : NetInfoState) (s : t) : t :=
  let newOfflineState :=
    {| isConnected := default false (ni_isConnected state);
       isInternetReachable := default false (ni_isInternetReachable state);
       net_type := Some (ni_type state);
       isOfflineMode := not_nullable (ni_isConnected state)
                        || not_nullable (ni_isInternetReachable state) |} in
  let wasOffline := isOfflineMode (offlineState s) in
  let s := set_offlineState newOfflineState s in
  if wasOffline && negb (isOfflineMode newOfflineState) then
    handleOnlineTransition s
  else if negb wasOffline && isOfflineMode newOfflineState then
    handleOfflineTransition s
  else s.

Record Options := mkOptions {
  queueOnOffline : option bool;
  opt_maxRetries : option Z;
}.

(** What the caller of [executeWithOfflineSupport] holds. *)
Inductive CallResult :=
| Awaiting (call : nat)
| Completed
| Queued (promise : nat)
| ThrownApp (e : AppError)
| ThrownRaw (e : RawError).

(** [executeWithOfflineSupport] up to [await operation()] (when online),
    or to its end (when offline). *)
Definition executeWithOfflineSupport (operation : Thunk)
    (context : ErrorContext) (options : Options) (rnd : string) (s : t)
    : t * CallResult :=
  let queueOnOffline := default true (queueOnOffline options) in
  let maxRetries := default 3 (opt_maxRetries options) in
  if negb (isOfflineMode (offlineState s)) then
    let k := length (directCalls s) in
    (set_directCalls
       (directCalls s ++ [mkDirectCall operation context queueOnOffline maxRetries])%list
       s,
     Awaiting k)
  else if queueOnOffline then
    let '(s, p) := queueOperation operation context maxRetries rnd s in
    (s, Queued p)
  else
    let '(appError, eh) :=
      ErrorHandler.handleError (errors s)
        (raw_of_app (createOfflineError "Operation requires internet connection"
                       (clock s)))
        context (clock s) in
    (set_errors eh s, ThrownApp appError).

(** [executeWithOfflineSupport] after [await operation()] settled with
    [outcome] ([None]: fulfilled). *)
Definition executeWithOfflineSupport_resume (k : nat)
    (outcome : option RawError) (rnd : string) (s : t)
    : option (t * CallResult) :=
  dc ← directCalls s !! k;
  let s := set_directCalls (base.delete k (directCalls s)) s in
  match outcome with
  | None => Some (s, Completed)
  | Some error =>
      if dc_queueOnOffline dc && isNetworkError error then
        let '(s, p) :=
          queueOperation (dc_operation dc) (dc_context dc) (dc_maxRetries dc)
            rnd s in
        Some (s, Queued p)
      else Some (s, ThrownRaw error)
  end.

(** *** The event loop *)

Inductive Event :=
| NetInfoChanged (state : NetInfoState)
| DisableOfflineModeSettled (ok : bool)
| EnableOfflineModeSettled (ok : bool)
| Execute (operation : Thunk) (context : ErrorContext) (options : Options)
    (rnd : string)
| DirectCallSettled (k : nat) (outcome : option RawError) (rnd : string)
| DrainOperationSettled (d j : nat) (ok : bool)
| DrainResumed (d : nat)
| RetrySettled (k : nat) (ok : bool)
| TimerFired (h : nat)
| TimePassed (dt : Z)
| ClearQueuedOperations.

Definition step (s : t) (e : Event) : option t :=
  match e with
  | NetInfoChanged state => Some (handleNetworkStateChange state s)
  | DisableOfflineModeSettled ok => handleOnlineTransition_resume ok s
  | EnableOfflineModeSettled ok => handleOfflineTransition_resume ok s
  | Execute operation context options rnd =>
      Some (executeWithOfflineSupport operation context options rnd s).1
  | DirectCallSettled k outcome rnd =>
      fst <$> executeWithOfflineSupport_resume k outcome rnd s
  | DrainOperationSettled d j ok => drainOperation_resume d j ok s
  | DrainResumed d => processOperationQueue_resume d s
  | RetrySettled k ok => retry_resume k ok s
  | TimerFired h => fireTimer h s
  | TimePassed dt => if 0 <=? dt then Some (set_clock (clock s + dt) s) else None
  | ClearQueuedOperations => Some (clearQueuedOperations s)
  end.

Fixpoint run (s : t) (trace : list Event) : option t :=
  match trace with
  | [] => Some s
  | e :: trace => s' ← step s e; run s' trace
  end.

Definition reachable (s : t) : Prop := ∃ trace, run initial trace = Some s.

End OfflineManager.

(** * Specification-side definitions and sample inputs *)

(** The codes for which the retry policy answers yes, as the
    specification lists them. *)
Definition retry_codes : list string :=
  [ "RETRYABLE_ERROR"; "NETWORK_ERROR"; "TIMEOUT_ERROR" ].

(** The codes [categorizeError] can produce. *)
Definition classifier_codes : list string :=
  [ "AUTH_ERROR"; "FIRESTORE_ERROR"; "NETWORK_ERROR"; "TIMEOUT_ERROR";
    "VALIDATION_ERROR"; "PERMISSION_ERROR"; "BUSINESS_ERROR";
    "RETRYABLE_ERROR"; "UNKNOWN_ERROR" ].

Definition firestore_unavailable : RawError :=
  {| raw_code := Some "firestore/unavailable";
     raw_message := Some "The service is currently unavailable." |}.

Definition some_context : ErrorContext :=
  mkErrorContext "updateRule" (Some "parent-1") (Some "family-1") None None None.

(** Sample network reports and event traces of the offline manager. *)
Definition net_offline : OfflineManager.NetInfoState :=
  OfflineManager.mkNetInfoState (Some false) (Some false) "none".

Definition net_online : OfflineManager.NetInfoState :=
  OfflineManager.mkNetInfoState (Some true) (Some true) "wifi".

Definition default_options : OfflineManager.Options :=
  OfflineManager.mkOptions None None.

(** Go offline and submit one write: it is queued. *)
Definition queue_one : list OfflineManager.Event :=
  [ OfflineManager.NetInfoChanged net_offline;
    OfflineManager.Execute 7%nat some_context default_options "k3x9q2m1z" ].

(** ... then let five minutes pass. *)
Definition queue_one_5min : list OfflineManager.Event :=
  queue_one ++ [ OfflineManager.TimePassed (5 * 60 * 1000) ].

Definition timeout_due : OfflineManager.t :=
  default OfflineManager.initial (OfflineManager.run OfflineManager.initial queue_one_5min).

(** ... or come back online: the drain starts and the queued closure
    is called. *)
Definition drain_started_trace : list OfflineManager.Event :=
  queue_one ++ [ OfflineManager.NetInfoChanged net_online;
                 OfflineManager.DisableOfflineModeSettled true ].

(** The closure fails. *)
Definition drain_one_failure : list OfflineManager.Event :=
  drain_started_trace ++ [ OfflineManager.DrainOperationSettled 0 0 false ].

(** A network flap while the drain is in flight. *)
Definition flap_trace : list OfflineManager.Event :=
  drain_started_trace ++ [ OfflineManager.NetInfoChanged net_offline;
                           OfflineManager.NetInfoChanged net_online ].

Definition flapped : OfflineManager.t :=
  default OfflineManager.initial (OfflineManager.run OfflineManager.initial flap_trace).

(** The drain invariant of the manager: at most one activation of
    [processOperationQueue] is suspended, and none while the guard flag
    is down. *)
Definition single_flight (s : OfflineManager.t) : Prop :=
  (length (OfflineManager.drains s) ≤ 1)%nat
  ∧ (OfflineManager.isProcessingQueue s = false → OfflineManager.drains s = []).

(** Two states agree on the drain bookkeeping. *)
Definition same_drains (s s' : OfflineManager.t) : Prop :=
  OfflineManager.drains s' = OfflineManager.drains s
  ∧ OfflineManager.isProcessingQueue s' = OfflineManager.isProcessingQueue s.

(** The world after one more provider call, and with other documents. *)
Definition tick {T} (w : Firestore.World T) : Firestore.World T :=
  Firestore.mkWorld (Firestore.docs w) (S (Firestore.calls w))
    (Firestore.script w) (Firestore.autoId w) (Firestore.serverNow w).

Definition with_docs {T} (d : gmap string T) (w : Firestore.World T)
    : Firestore.World T :=
  Firestore.mkWorld d (Firestore.calls w) (Firestore.script w)
    (Firestore.autoId w) (Firestore.serverNow w).

(** The responses of the entity store. *)
Definition succeeded {A} (a : option A) : ApiResponse A :=
  {| success := true; data := a; error := None; response_message := None |}.

Definition failed {A} (e : RawError) : ApiResponse A :=
  {| success := false; data := None;
     error := Some (Js.or_default (raw_message e) "An unexpected error occurred");
     response_message := None |}.

Definition document_not_found {A} : ApiResponse A :=
  {| success := false; data := None;
     error := Some "Document not found"; response_message := None |}.

(** The provider never fails during the run. *)
Definition no_faults {T} (w : Firestore.World T) : Prop :=
  ∀ i, Firestore.script w i = Firestore.Succeeds.

(** A response is structured over a run from [w]: the operation
    returned, and a failure is either the store's own "not found" or
    carries the message of an error the provider raised. *)
Definition structured {T A} (w : Firestore.World T)
    (out : Firestore.Result (ApiResponse A) * Firestore.World T) : Prop :=
  ∃ resp, out.1 = Firestore.Returned resp
    ∧ ((success resp = true ∧ error resp = None)
       ∨ resp = document_not_found
       ∨ ∃ e, resp = failed e
              ∧ (e = Firestore.not_found ∨ ∃ i, Firestore.script w i = Firestore.Throws e)).

(** A request as a child would submit it, and worlds to run it in. *)
Definition sample_request : RequestService.Request :=
  {| RequestService.id := "";
     RequestService.familyId := "family-1";
     RequestService.requesterId := "child-1";
     RequestService.type := RequestService.extra_time;
     RequestService.target := "YouTube";
     RequestService.duration := Some 30%Z;
     RequestService.reason := Some "Homework research";
     RequestService.status := RequestService.pending;
     RequestService.approvals := [];
     RequestService.expiresAt := Firestore.fromDate 3600000%Z;
     RequestService.createdAt := 0%Z;
     RequestService.updatedAt := 0%Z |}.

Definition world_of (d : gmap string RequestService.Request)
    (script : nat → Firestore.Outcome) : Firestore.World RequestService.Request :=
  Firestore.mkWorld d 0 script (fun _ => "req-1") 0%Z.

Definition healthy : nat → Firestore.Outcome := fun _ => Firestore.Succeeds.

Definition unavailable : nat → Firestore.Outcome :=
  fun _ => Firestore.Throws firestore_unavailable.

(** The status derivation in the specification's words: denied if any
    approval denies; otherwise approved if any approves; otherwise
    pending. It is written on the decisions themselves, without the
    predicates of the code. *)
Section Derivation.
Import RequestService.

Definition status_of_approvals (l : list Approval) : RequestStatus :=
  if decide (Exists (λ a, decision a = deny) l) then denied
  else if decide (Exists (λ a, decision a = approve) l) then approved
  else pending.

End Derivation.

(** [approveRequest] or [denyRequest], by the decision recorded. *)
Definition decide_request (d : RequestService.Decision) :=
  match d with
  | RequestService.approve => RequestService.approveRequest
  | RequestService.deny => RequestService.denyRequest
  end.

(** ... and the part of either after its read. *)
Definition decide_request_resume (d : RequestService.Decision) :=
  match d with
  | RequestService.approve => RequestService.approveRequest_resume
  | RequestService.deny => RequestService.denyRequest_resume
  end.

(** The update either method sends for a stored request [r]. *)
Definition decision_update (d : RequestService.Decision) (parentId : string)
    (reason : option string) (now : Date) (r : RequestService.Request)
    : RequestService.RequestPartial :=
  let l := (RequestService.approvals r
            ++ [RequestService.mkApproval parentId d reason now])%list in
  RequestService.mkPartial None None None None None None None
    (Some (RequestService.calculateRequestStatus l)) (Some l) None None None.

(** A stored request after the approvals [l] and the status they derive
    have been written over its own, at server time [srv]. *)
Definition recorded (l : list RequestService.Approval) (srv : Date)
    (r : RequestService.Request) : RequestService.Request :=
  RequestService.mkRequest (RequestService.id r) (RequestService.familyId r)
    (RequestService.requesterId r) (RequestService.type r)
    (RequestService.target r) (RequestService.duration r)
    (RequestService.reason r) (status_of_approvals l) l
    (RequestService.expiresAt r) (RequestService.createdAt r) srv.

(** The stored request after a decision has been appended at server
    time [srv]. *)
Definition decided (d : RequestService.Decision) (parentId : string)
    (reason : option string) (now srv : Date) (r : RequestService.Request)
    : RequestService.Request :=
  recorded (RequestService.approvals r
            ++ [RequestService.mkApproval parentId d reason now])%list srv r.

(** The response of a read that found [r] under [requestId]. *)
Definition found (requestId : string) (r : RequestService.Request)
    : ApiResponse RequestService.Request :=
  succeeded (Some (RequestService.request_with_id requestId r)).

(** The stored request after the expiry transition. *)
Definition lapsed (srv : Date) (r : RequestService.Request)
    : RequestService.Request :=
  RequestService.mkRequest (RequestService.id r) (RequestService.familyId r)
    (RequestService.requesterId r) (RequestService.type r)
    (RequestService.target r) (RequestService.duration r)
    (RequestService.reason r) RequestService.expired
    (RequestService.approvals r)
    (RequestService.expiresAt r) (RequestService.createdAt r) srv.

(** The status stored under an identifier. *)
Definition stored_status (w : Firestore.World RequestService.Request)
    (requestId : string) : option RequestService.RequestStatus :=
  RequestService.status <$> Firestore.docs w !! requestId.



(** What [withRetry] leaves on the diagnostic queue for the attempts of
    [js]: one entry for each that failed. *)
Definition handled_failures {A} (operation : nat → A + RawError)
    (context : ErrorContext) (clock : nat → Date) (js : list nat)
    : list (AppError * ErrorContext) :=
  omap (fun j => match operation j with
                 | inr error =>
                     Some (ErrorHandler.categorizeError error context (clock j), context)
                 | inl _ => None
                 end) js.

(** Attempt [j] fails with an error the retry policy accepts. *)
Definition fails_retryably {A} (operation : nat → A + RawError)
    (context : ErrorContext) (clock : nat → Date) (j : nat) : Prop :=
  ∃ error, operation j = inr error
    ∧ ErrorHandler.shouldRetry
        (ErrorHandler.categorizeError error context (clock j)) = true.

(** An operation that fails three times with a network error, then
    succeeds. *)
Definition flaky_operation (k : nat) : string + RawError :=
  if (k <? 3)%nat
  then inr {| raw_code := Some "NETWORK_ERROR"; raw_message := Some "Network request failed" |}
  else inl "saved".

(** The entities a query response carries for a provider snapshot. *)
Definition snapshot_entities (snapshot : list (string * RequestService.Request))
    : list RequestService.Request :=
  (fun '(id, x) => RequestService.request_with_id id x) <$> snapshot.

(** The query [getRequestsForParentApproval] sends. *)
Definition parent_approval_query (familyId : option string)
    : RequestService.QueryOptions :=
  {| RequestService.query_where :=
       ([ RequestService.mkWhere "status" "==" (RequestService.StringValue "pending") ]
        ++ match RequestService.truthy familyId with
           | Some f => [ RequestService.mkWhere "familyId" "=="
                           (RequestService.StringValue f) ]
           | None => []
           end)%list;
     RequestService.query_orderBy := [ RequestService.mkOrder "createdAt" "desc" ] |}.

(** The query [getRequestsByFamily] sends. *)
Definition family_query (familyId : string) : RequestService.QueryOptions :=
  {| RequestService.query_where :=
       [ RequestService.mkWhere "familyId" "==" (RequestService.StringValue familyId) ];
     RequestService.query_orderBy := [ RequestService.mkOrder "createdAt" "desc" ] |}.

Section RequestCounts.
Import RequestService.

(** How many requests of a list have a given status. *)
Definition with_status (st : RequestStatus) (l : list Request) : nat :=
  length (List.filter (fun r => bool_decide (status r = st)) l).

End RequestCounts.

(** The stored status agrees with the approvals: it is what the
    derivation gives, or the request has expired without any decision. *)
Definition consistent (r : RequestService.Request) : Prop :=
  RequestService.status r = status_of_approvals (RequestService.approvals r)
  ∨ (RequestService.status r = RequestService.expired
     ∧ RequestService.approvals r = []).

Definition all_consistent (w : Firestore.World RequestService.Request) : Prop :=
  ∀ id r, Firestore.docs w !! id = Some r → consistent r.

(** A present-day clock reading (14 November 2023), in milliseconds,
    and a pending request created then, to expire a day later. *)
Definition november_2023 : Date := 1700000000000%Z.

Definition fresh_request : RequestService.Request :=
  {| RequestService.id := "";
     RequestService.familyId := "family-1";
     RequestService.requesterId := "child-1";
     RequestService.type := RequestService.extra_time;
     RequestService.target := "YouTube";
     RequestService.duration := Some 30%Z;
     RequestService.reason := Some "Homework research";
     RequestService.status := RequestService.pending;
     RequestService.approvals := [];
     RequestService.expiresAt :=
       Firestore.fromDate (november_2023 + RequestService.hours 24)%Z;
     RequestService.createdAt := november_2023;
     RequestService.updatedAt := november_2023 |}.

(** The number of seconds from the year 1 to the end of the year 9999.
    Read as milliseconds it is an instant early on 1 January 1980
    (01:24:57.6 UTC): after it a clock reads more milliseconds than any
    [Timestamp] counts seconds. *)
Definition all_timestamps_below : Date := 315537897600%Z.

(** A provider that fails at one call only. *)
Definition fails_at (n : nat) (e : RawError) : nat → Firestore.Outcome :=
  fun i => if (i =? n)%nat then Firestore.Throws e else Firestore.Succeeds.

(** What no request operation changes in a stored request. *)
Definition same_core (r r' : RequestService.Request) : Prop :=
  RequestService.id r' = RequestService.id r
  ∧ RequestService.familyId r' = RequestService.familyId r
  ∧ RequestService.requesterId r' = RequestService.requesterId r
  ∧ RequestService.type r' = RequestService.type r
  ∧ RequestService.target r' = RequestService.target r
  ∧ RequestService.duration r' = RequestService.duration r
  ∧ RequestService.reason r' = RequestService.reason r
  ∧ RequestService.createdAt r' = RequestService.createdAt r.

(** Every entry of a suspended drain is either unsettled or fulfilled,
    one result per entry of the snapshot. *)
Definition drains_fulfilled (s : OfflineManager.t) : Prop :=
  ∀ d dr, OfflineManager.drains s !! d = Some dr →
    length (OfflineManager.results dr) = length (OfflineManager.operations dr)
    ∧ ∀ res, In res (OfflineManager.results dr) →
        res = None ∨ res = Some OfflineManager.fulfilled.

(** Retry counts are natural numbers, and a queued entry has either not
    failed yet or not used up its retries. *)
Definition retries_left (s : OfflineManager.t) : Prop :=
  (∀ r o, OfflineManager.heap s !! r = Some o → (0 ≤ OfflineManager.retryCount o)%Z)
  ∧ (∀ r o, In r (OfflineManager.operationQueue s) →
       OfflineManager.heap s !! r = Some o →
       OfflineManager.retryCount o = 0%Z
       ∨ (OfflineManager.retryCount o ≤ OfflineManager.maxRetries o)%Z).

(** Two states hold the same operation objects in the same queue. *)
Definition same_store (s s' : OfflineManager.t) : Prop :=
  OfflineManager.heap s' = OfflineManager.heap s
  ∧ OfflineManager.operationQueue s' = OfflineManager.operationQueue s.

(** The queue of [s'] is part of the queue of [s], over the same objects. *)
Definition queue_shrunk (s s' : OfflineManager.t) : Prop :=
  OfflineManager.heap s' = OfflineManager.heap s
  ∧ ∀ r, In r (OfflineManager.operationQueue s') →
         In r (OfflineManager.operationQueue s).

(** A failure that is not network-related. *)
Definition permission_denied : RawError :=
  {| raw_code := Some "PERMISSION_ERROR"; raw_message := Some "Not allowed" |}.

(** The state in which the only queued operation has failed in a drain
    that has not resumed yet. *)
Definition drain_failed : OfflineManager.t :=
  default OfflineManager.initial
    (OfflineManager.run OfflineManager.initial drain_one_failure).

(** The entry queued by [queue_one], after that failure. *)
Definition failed_entry : OfflineManager.OfflineOperation :=
  OfflineManager.mkOfflineOperation "op_0_k3x9q2m1z" 7%nat some_context 0%Z 1%Z 3%Z.

(** * Properties *)

(** ** Error classification and retry predicate *)

Section ErrorHandlerProperties.
Import ErrorHandler.

Lemma eqb_string_true (a b : string) : String.eqb a b = true ↔ a = b.
Proof. apply String.eqb_eq. Qed.

(** C4: [shouldRetry] holds exactly for the codes RETRYABLE_ERROR,
    NETWORK_ERROR and TIMEOUT_ERROR; in particular it is false for
    UNKNOWN_ERROR. *)
Theorem shouldRetry_exactly_retry_codes :
  (∀ e : AppError, shouldRetry e = true ↔ In (code e) retry_codes)
  ∧ (∀ m d ts, shouldRetry (mkAppError "UNKNOWN_ERROR" m d ts) = false).
Proof.
  split; [|reflexivity].
  intros e. unfold shouldRetry, retry_codes. cbn [In].
  rewrite !orb_true_iff, !eqb_string_true. intuition congruence.
Qed.

Lemma shouldRetry_witness :
  shouldRetry (mkAppError "NETWORK_ERROR" "offline" None 0%Z) = true.
Proof.
  apply (proj1 shouldRetry_exactly_retry_codes).
  cbn. right; left; reflexivity.
Defined.

Lemma prefix_head (c a : ascii) (p s : string) :
  String.prefix (String c p) (String a s) = true → c = a.
Proof.
  change (String.prefix (String c p) (String a s))
    with (if Ascii.ascii_dec c a then String.prefix p s else false).
  destruct (Ascii.ascii_dec c a); [trivial|discriminate].
Qed.

(** A code cannot start with both provider prefixes. *)
Lemma firestore_not_auth (c : option string) :
  Js.opt_startsWith c "firestore/" = true →
  Js.opt_startsWith c "auth/" = false.
Proof.
  destruct c as [[|a s]|]; unfold Js.opt_startsWith, Js.startsWith;
    intros Hp; try discriminate Hp.
  apply prefix_head in Hp. subst a. reflexivity.
Qed.

Lemma categorize_firestore (e : RawError) :
  Js.opt_startsWith (raw_code e) "firestore/" = true →
  categorize e = ("FIRESTORE_ERROR", firestore_message e).
Proof.
  intros Hf. unfold categorize.
  rewrite (firestore_not_auth _ Hf), Hf. reflexivity.
Qed.

Lemma categorize_in_codes (e : RawError) :
  In (categorize e).1 classifier_codes.
Proof.
  unfold categorize, classifier_codes.
  repeat match goal with
         | |- context [if ?b then _ else _] => destruct b
         end; cbn; tauto.
Qed.

Lemma categorizeError_code e ctx now :
  code (categorizeError e ctx now) = (categorize e).1.
Proof. unfold categorizeError. destruct (categorize e); reflexivity. Qed.

(** C9, as the classifier implements it: a failure whose code starts
    with [firestore/] is classified FIRESTORE_ERROR, and every
    classification carries one of the nine codes of [classifier_codes]. *)
Theorem categorizeError_firestore (e : RawError) (ctx : ErrorContext) (now : Date) :
  Js.opt_startsWith (raw_code e) "firestore/" = true →
  code (categorizeError e ctx now) = "FIRESTORE_ERROR"
  ∧ In (code (categorizeError e ctx now)) classifier_codes.
Proof.
  intros Hf. rewrite categorizeError_code. split.
  - rewrite (categorize_firestore _ Hf). reflexivity.
  - apply categorize_in_codes.
Qed.

Lemma categorizeError_firestore_witness :
  code (categorizeError firestore_unavailable some_context 0%Z) = "FIRESTORE_ERROR"
  ∧ In (code (categorizeError firestore_unavailable some_context 0%Z)) classifier_codes.
Proof.
  apply (categorizeError_firestore firestore_unavailable some_context 0%Z).
  reflexivity.
Defined.

(** C9 as stated fails: the code of a [firestore/] failure is not
    STORAGE_ERROR. *)
Lemma categorizeError_firestore_not_STORAGE_ERROR :
  ¬ (∀ e ctx now,
       Js.opt_startsWith (raw_code e) "firestore/" = true →
       code (categorizeError e ctx now) = "STORAGE_ERROR").
Proof.
  intros H. specialize (H firestore_unavailable some_context 0%Z eq_refl).
  discriminate H.
Qed.

End ErrorHandlerProperties.

(** ** Offline operation queue *)

Section OfflineManagerProperties.
Import OfflineManager.
Local Open Scope Z_scope.

(** C5 on the code: when offline with [queueOnOffline = false], the call
    throws at once and leaves the queue alone, but the error thrown is
    what [handleError] makes of the OFFLINE_ERROR value: the classifier
    has no case for that code, so the caller sees UNKNOWN_ERROR. *)
Theorem executeWithOfflineSupport_offline_unqueued
    (operation : Thunk) (context : ErrorContext) (maxR : option Z)
    (rnd : string) (s : t) :
  isOffline s = true →
  let '(s', result) :=
    executeWithOfflineSupport operation context (mkOptions (Some false) maxR) rnd s in
  result = ThrownApp
             {| code := "UNKNOWN_ERROR";
                message := "An unexpected error occurred";
                details := Some {| raw_code := Some "OFFLINE_ERROR";
                                   raw_message := Some "Operation requires internet connection" |};
                timestamp := clock s |}
  ∧ operationQueue s' = operationQueue s
  ∧ getQueuedOperationsCount s' = getQueuedOperationsCount s.
Proof.
  unfold isOffline, executeWithOfflineSupport. intros ->. cbn. auto.
Qed.

Lemma executeWithOfflineSupport_offline_unqueued_witness :
  let '(s', result) :=
    executeWithOfflineSupport 7%nat some_context (mkOptions (Some false) None)
      "k3x9q2m1z" (handleNetworkStateChange net_offline initial) in
  result = ThrownApp
             {| code := "UNKNOWN_ERROR";
                message := "An unexpected error occurred";
                details := Some {| raw_code := Some "OFFLINE_ERROR";
                                   raw_message := Some "Operation requires internet connection" |};
                timestamp := 0 |}
  ∧ operationQueue s' = []
  ∧ getQueuedOperationsCount s' = 0%nat.
Proof.
  apply (executeWithOfflineSupport_offline_unqueued 7%nat some_context None
           "k3x9q2m1z" (handleNetworkStateChange net_offline initial)).
  reflexivity.
Defined.

(** Frame facts about the timeout callback. *)
Lemma queue_find_clearTimer h s operationId :
  queue_find (clearTimer h s) operationId = queue_find s operationId.
Proof. reflexivity. Qed.

Lemma timeout_due_reachable : reachable timeout_due.
Proof. exists queue_one_5min. vm_compute. reflexivity. Qed.

(** The five-minute callback, run on an entry that is still queued. *)
Lemma fireTimer_queueTimeout
    (s : t) (h : nat) (operationId : string) (p interval : nat) (due : Date)
    (r : nat) :
  timers s !! h = Some (QueueTimeout operationId p interval, due) →
  due ≤ clock s →
  queue_find s operationId = Some r →
  fireTimer h s
  = Some (reject p "Operation timed out while queued"
            (clearTimer interval (clearTimer h s))).
Proof.
  intros Ht Hdue Hfind. unfold fireTimer. rewrite Ht. cbn.
  destruct (Z.leb_spec due (clock s)) as [_|]; [|lia].
  unfold queueTimeout. rewrite !queue_find_clearTimer, Hfind. reflexivity.
Qed.

(** What [queueOperation] leaves behind: the entry at the end of the
    queue, a pending promise, and the callback due five minutes later. *)
Lemma queueOperation_arms operation context maxR rnd (s : t) :
  let operationId := "op_" +:+ pretty (clock s) +:+ "_" +:+ rnd in
  let out := queueOperation operation context maxR rnd s in
  timers out.1 !! S (nextTimer s)
  = Some (QueueTimeout operationId out.2 (nextTimer s), clock s + 5 * 60 * 1000)
  ∧ promises out.1 !! out.2 = Some Pending
  ∧ operationQueue out.1 = (operationQueue s ++ [length (heap s)])%list
  ∧ heap out.1 !! length (heap s)
    = Some (mkOfflineOperation operationId operation context (clock s) 0 maxR).
Proof.
  cbn. repeat split.
  - apply lookup_insert_eq.
  - apply list_lookup_middle. reflexivity.
  - apply list_lookup_middle. reflexivity.
Qed.

(** C6, as the five-minute callback implements it: [queueOperation]
    arms a callback due five minutes after the entry is queued; when it
    fires while the entry is still queued, the caller's promise is
    rejected with the time-out message (a pending promise becomes
    rejected), whatever the entry's retry count; the queue itself is left
    as it was, the entry included. *)
Theorem queueTimeout_rejects_and_keeps :
  (∀ operation context maxR rnd (s : t),
     let operationId := "op_" +:+ pretty (clock s) +:+ "_" +:+ rnd in
     let out := queueOperation operation context maxR rnd s in
     timers out.1 !! S (nextTimer s)
     = Some (QueueTimeout operationId out.2 (nextTimer s), clock s + 5 * 60 * 1000)
     ∧ promises out.1 !! out.2 = Some Pending
     ∧ operationQueue out.1 = (operationQueue s ++ [length (heap s)])%list
     ∧ heap out.1 !! length (heap s)
       = Some (mkOfflineOperation operationId operation context (clock s) 0 maxR))
  ∧ (∀ (s : t) (h : nat) (operationId : string) (p interval : nat) (due : Date)
       (r : nat),
       timers s !! h = Some (QueueTimeout operationId p interval, due) →
       due ≤ clock s →
       queue_find s operationId = Some r →
       ∃ s', fireTimer h s = Some s'
         ∧ operationQueue s' = operationQueue s
         ∧ heap s' = heap s
         ∧ queue_find s' operationId = Some r
         ∧ promises s' =
             alter (settle (Rejected "Operation timed out while queued")) p
               (promises s)
         ∧ (promises s !! p = Some Pending →
            promises s' !! p = Some (Rejected "Operation timed out while queued"))).
Proof.
  split; [exact queueOperation_arms|].
  intros s h operationId p interval due r Ht Hdue Hfind.
  rewrite (fireTimer_queueTimeout s h operationId p interval due r Ht Hdue Hfind).
  eexists; split; [reflexivity|]. cbn.
  repeat split; try reflexivity.
  - exact Hfind.
  - intros Hp. rewrite list_lookup_alter_eq, Hp. reflexivity.
Qed.

Lemma queueTimeout_rejects_and_keeps_witness :
  ∃ s', fireTimer 1 timeout_due = Some s'
    ∧ operationQueue s' = operationQueue timeout_due
    ∧ heap s' = heap timeout_due
    ∧ queue_find s' "op_0_k3x9q2m1z" = Some 0%nat
    ∧ promises s' =
        alter (settle (Rejected "Operation timed out while queued")) 0%nat
          (promises timeout_due)
    ∧ (promises timeout_due !! 0%nat = Some Pending →
       promises s' !! 0%nat = Some (Rejected "Operation timed out while queued")).
Proof.
  apply (proj2 queueTimeout_rejects_and_keeps
           timeout_due 1%nat "op_0_k3x9q2m1z" 0%nat 0%nat 300000 0%nat).
  - vm_compute. reflexivity.
  - vm_compute. discriminate.
  - vm_compute. reflexivity.
Defined.

(** C6 as stated fails: after the five-minute callback has fired for a
    queued entry, the entry is still in the queue. *)
Lemma queueTimeout_does_not_remove :
  ¬ (∀ s h operationId p interval due s',
       reachable s →
       timers s !! h = Some (QueueTimeout operationId p interval, due) →
       is_Some (queue_find s operationId) →
       fireTimer h s = Some s' →
       queue_find s' operationId = None).
Proof.
  intros H.
  pose proof (fireTimer_queueTimeout timeout_due 1 "op_0_k3x9q2m1z" 0 0 300000 0)
    as Hfire.
  specialize (H timeout_due 1%nat "op_0_k3x9q2m1z" 0%nat 0%nat 300000
                (reject 0 "Operation timed out while queued"
                   (clearTimer 0 (clearTimer 1 timeout_due)))
                timeout_due_reachable).
  assert (Some 0%nat = None) as Habs; [|discriminate Habs].
  rewrite <- H; [reflexivity| |eexists|apply Hfire];
    vm_compute; first [reflexivity|discriminate].
Qed.

(** The promise of [executeQueuedOperation] is fulfilled whether the
    closure succeeded or not. *)
Lemma executeQueuedOperation_resume_fulfilled r ok s :
  (executeQueuedOperation_resume r ok s).2 = fulfilled.
Proof.
  unfold executeQueuedOperation_resume.
  destruct ok; [reflexivity|].
  destruct (heap s !! r); [|reflexivity].
  cbn. destruct (_ <=? _); reflexivity.
Qed.

(** C7 on the code: one entry is queued with [maxRetries = 3]; on
    reconnect its closure is called and fails. The retry count goes to 1
    and a retry is armed 2000 ms later, the entry still being queued;
    but when the drain resumes, the entry's result counts as fulfilled
    and the entry is removed from the queue, with two retries left. *)
Theorem drain_removes_failed_entry :
  (∀ r ok s, (executeQueuedOperation_resume r ok s).2 = fulfilled)
  ∧ ∃ s1 s2 op,
      run initial drain_one_failure = Some s1
      ∧ operationQueue s1 = [0%nat]
      ∧ heap s1 !! 0%nat = Some op
      ∧ retryCount op = 1 ∧ maxRetries op = 3
      ∧ timers s1 !! 2%nat = Some (RetryOperation 0, 2000)
      ∧ step s1 (DrainResumed 0) = Some s2
      ∧ operationQueue s2 = []
      ∧ heap s2 !! 0%nat = Some op
      ∧ timers s2 !! 2%nat = Some (RetryOperation 0, 2000)
      ∧ console s2 = [ "Processed offline queue: 1 successful, 0 failed";
                       "Back online - processing queued operations" ]%string.
Proof.
  split; [apply executeQueuedOperation_resume_fulfilled|].
  eexists _, _, _.
  split; [vm_compute; reflexivity|].
  split; [reflexivity|].
  split; [reflexivity|].
  split; [reflexivity|].
  split; [reflexivity|].
  split; [vm_compute; reflexivity|].
  split; [vm_compute; reflexivity|].
  split; [reflexivity|].
  repeat split; vm_compute; reflexivity.
Qed.

(** *** Single-flight draining *)

Lemma same_drains_refl s : same_drains s s.
Proof. split; reflexivity. Qed.

Lemma same_drains_trans s1 s2 s3 :
  same_drains s1 s2 → same_drains s2 s3 → same_drains s1 s3.
Proof. intros [? ?] [? ?]. split; congruence. Qed.

Lemma same_drains_single_flight s s' :
  same_drains s s' → single_flight s → single_flight s'.
Proof. intros [Hd Hf] [? ?]. unfold single_flight. rewrite Hd, Hf. auto. Qed.

Ltac frame :=
  unfold same_drains; cbn; repeat (case_match; cbn); split; reflexivity.

Lemma executeQueuedOperation_resume_same r ok s :
  same_drains s (executeQueuedOperation_resume r ok s).1.
Proof. unfold executeQueuedOperation_resume. frame. Qed.

Lemma queueOperation_same operation context maxR rnd s :
  same_drains s (queueOperation operation context maxR rnd s).1.
Proof. unfold queueOperation. frame. Qed.

Lemma executeWithOfflineSupport_same operation context options rnd s :
  same_drains s (executeWithOfflineSupport operation context options rnd s).1.
Proof.
  unfold executeWithOfflineSupport.
  destruct (negb _); [frame|].
  destruct (default true _).
  - pose proof (queueOperation_same operation context
                  (default 3 (opt_maxRetries options)) rnd s) as Hq.
    destruct (queueOperation _ _ _ _ _). exact Hq.
  - frame.
Qed.

Lemma executeWithOfflineSupport_resume_same k outcome rnd s s' result :
  executeWithOfflineSupport_resume k outcome rnd s = Some (s', result) →
  same_drains s s'.
Proof.
  unfold executeWithOfflineSupport_resume.
  destruct (directCalls s !! k) as [dc|]; [cbn|discriminate].
  destruct outcome as [error|]; [destruct (_ && _)|];
    intros [= <- <-]; frame.
Qed.

Lemma fireTimer_same h s s' : fireTimer h s = Some s' → same_drains s s'.
Proof.
  unfold fireTimer.
  destruct (timers s !! h) as [[tm due]|]; [cbn|discriminate].
  destruct (_ <=? _); [|discriminate].
  destruct tm; intros [= <-].
  - unfold checkCompletion, queue_find. frame.
  - unfold queueTimeout, queue_find. frame.
  - frame.
Qed.

Lemma retry_resume_same k ok s s' : retry_resume k ok s = Some s' → same_drains s s'.
Proof.
  unfold retry_resume.
  destruct (retries s !! k) as [r|]; [cbn|discriminate].
  intros [= <-].
  eapply same_drains_trans; [|apply executeQueuedOperation_resume_same]. frame.
Qed.

Lemma foldl_executeQueuedOperation_same l s :
  same_drains s (foldl (fun s r => executeQueuedOperation r s) s l).
Proof.
  revert s. induction l as [|r l IH]; intros s; cbn; [apply same_drains_refl|].
  eapply same_drains_trans; [|apply IH]. frame.
Qed.

Lemma removeCompleted_same ops res s : same_drains s (removeCompleted ops res s).
Proof.
  unfold removeCompleted. generalize (zip res ops). intros l. revert s.
  induction l as [|[result r] l IH]; intros s; cbn; [apply same_drains_refl|].
  eapply same_drains_trans; [|apply IH]. frame.
Qed.

(** Starting a drain. *)
Lemma processOperationQueue_single_flight s :
  single_flight s → single_flight (processOperationQueue s).
Proof.
  intros Hs. pose proof Hs as [Hlen Hflag]. unfold processOperationQueue.
  destruct (isProcessingQueue s || _) eqn:Hg; [exact Hs|].
  apply orb_false_elim in Hg as [Hp _].
  match goal with
  | |- context [foldl ?f ?s0 ?l] =>
      destruct (foldl_executeQueuedOperation_same l s0) as [Hd Hf]
  end.
  split; unfold set_drains; cbn [drains isProcessingQueue].
  - rewrite Hd. cbn. rewrite (Hflag Hp). cbn. lia.
  - rewrite Hf. cbn. discriminate.
Qed.

(** The guard: while a drain is in progress the call does nothing. *)
Lemma processOperationQueue_guard s :
  isProcessingQueue s = true → processOperationQueue s = s.
Proof. unfold processOperationQueue. intros ->. reflexivity. Qed.

(** Finishing a drain. *)
Lemma processOperationQueue_resume_single_flight d s s' :
  single_flight s → processOperationQueue_resume d s = Some s' → single_flight s'.
Proof.
  intros [Hlen Hflag]. unfold processOperationQueue_resume.
  destruct (drains s !! d) as [dr|] eqn:Hd; [cbn|discriminate].
  destruct (forallb _ _); [|discriminate].
  intros [= <-].
  destruct (removeCompleted_same (operations dr) (results dr) s) as [Hd' _].
  assert (drains s = [dr] ∧ d = 0%nat) as [Hs ->].
  { destruct (drains s) as [|x [|y l]]; cbn in Hlen; [discriminate| |lia].
    destruct d; [|discriminate]. cbn in Hd. split; congruence. }
  assert (∀ s0 : t, drains s0 = [dr] →
            base.delete 0%nat (drains s0) = []) as Hdel.
  { intros s0 ->. reflexivity. }
  split; cbn.
  - destruct (_ || _); cbn; rewrite Hd', Hs; cbn; lia.
  - intros _. destruct (_ || _); cbn; rewrite Hd', Hs; reflexivity.
Qed.

Lemma drainOperation_resume_single_flight d j ok s s' :
  single_flight s → drainOperation_resume d j ok s = Some s' → single_flight s'.
Proof.
  intros [Hlen Hflag]. unfold drainOperation_resume.
  destruct (drains s !! d) as [dr|] eqn:Hd; [cbn|discriminate].
  destruct (operations dr !! j) as [r|]; [cbn|discriminate].
  destruct (results dr !! j) as [[st|]|]; cbn; try discriminate.
  pose proof (executeQueuedOperation_resume_same r ok s) as [Hd' Hf'].
  destruct (executeQueuedOperation_resume r ok s) as [s1 st]. cbn in Hd', Hf'.
  intros [= <-]. split; cbn.
  - rewrite length_insert, Hd'. exact Hlen.
  - rewrite Hf'. intros Hp. rewrite (Hflag Hp) in Hd. discriminate.
Qed.

Lemma handleOnlineTransition_resume_single_flight ok s s' :
  single_flight s → handleOnlineTransition_resume ok s = Some s' → single_flight s'.
Proof.
  intros Hs. unfold handleOnlineTransition_resume.
  destruct (onlineTransitions s) as [|n]; [discriminate|].
  set (s0 := set_onlineTransitions n s).
  assert (single_flight s0) as H0 by exact Hs.
  destruct ok.
  - destruct (_ || _); intros [= <-].
    + eapply same_drains_single_flight;
        [|apply processOperationQueue_single_flight; exact H0]. frame.
    + apply processOperationQueue_single_flight; exact H0.
  - intros [= <-]. exact Hs.
Qed.

Lemma step_single_flight s e s' :
  single_flight s → step s e = Some s' → single_flight s'.
Proof.
  intros Hs. destruct e; cbn [step].
  - intros [= <-]. eapply same_drains_single_flight; [|exact Hs].
    unfold handleNetworkStateChange, handleOnlineTransition, handleOfflineTransition.
    frame.
  - apply handleOnlineTransition_resume_single_flight; exact Hs.
  - unfold handleOfflineTransition_resume.
    destruct (offlineTransitions s); [discriminate|].
    destruct ok; intros [= <-]; exact Hs.
  - intros [= <-]. eapply same_drains_single_flight; [|exact Hs].
    apply executeWithOfflineSupport_same.
  - destruct (executeWithOfflineSupport_resume k outcome rnd s) as [[s1 res]|] eqn:He;
      [|discriminate].
    intros [= <-]. eapply same_drains_single_flight; [|exact Hs].
    eapply executeWithOfflineSupport_resume_same; exact He.
  - apply drainOperation_resume_single_flight; exact Hs.
  - apply processOperationQueue_resume_single_flight; exact Hs.
  - intros Hr. eapply same_drains_single_flight; [|exact Hs].
    eapply retry_resume_same; exact Hr.
  - intros Hr. eapply same_drains_single_flight; [|exact Hs].
    eapply fireTimer_same; exact Hr.
  - destruct (0 <=? dt); [|discriminate]. intros [= <-]. exact Hs.
  - intros [= <-]. exact Hs.
Qed.

Lemma run_single_flight trace s s' :
  single_flight s → run s trace = Some s' → single_flight s'.
Proof.
  revert s. induction trace as [|e trace IH]; intros s Hs; cbn.
  - intros [= <-]. exact Hs.
  - destruct (step s e) as [s1|] eqn:He; [cbn|discriminate].
    apply IH. eapply step_single_flight; eassumption.
Qed.

Lemma reachable_single_flight s : reachable s → single_flight s.
Proof.
  intros [trace Hrun]. eapply run_single_flight; [|exact Hrun].
  split; [cbn; lia|reflexivity].
Qed.

(** C8: in every reachable state at most one drain is in progress, and
    then the guard flag is up; with the flag up a further call of
    [processOperationQueue] returns the state unchanged, so a reconnect
    that overlaps a drain only writes its log line: no closure is called
    and no second drain exists that could call one. *)
Theorem drain_single_flight (s : t) :
  reachable s →
  (length (drains s) ≤ 1)%nat
  ∧ (drains s ≠ [] → isProcessingQueue s = true)
  ∧ (isProcessingQueue s = true → processOperationQueue s = s)
  ∧ (drains s ≠ [] → ∀ n, onlineTransitions s = S n →
       handleOnlineTransition_resume true s =
         Some (log "Back online - processing queued operations"
                 (set_onlineTransitions n s))).
Proof.
  intros Hr. destruct (reachable_single_flight s Hr) as [Hlen Hflag].
  assert (drains s ≠ [] → isProcessingQueue s = true) as Hup.
  { intros Hne. destruct (isProcessingQueue s); [reflexivity|].
    destruct Hne. apply Hflag. reflexivity. }
  split; [exact Hlen|]. split; [exact Hup|].
  split; [apply processOperationQueue_guard|].
  intros Hne n Hn. unfold handleOnlineTransition_resume. rewrite Hn.
  assert (isProcessingQueue (set_onlineTransitions n s) = true) as Hp
    by (exact (Hup Hne)).
  rewrite Hp, (processOperationQueue_guard _ Hp). reflexivity.
Qed.

Lemma drain_single_flight_witness :
  (length (drains flapped) ≤ 1)%nat
  ∧ (drains flapped ≠ [] → isProcessingQueue flapped = true)
  ∧ (isProcessingQueue flapped = true → processOperationQueue flapped = flapped)
  ∧ (drains flapped ≠ [] → ∀ n, onlineTransitions flapped = S n →
       handleOnlineTransition_resume true flapped =
         Some (log "Back online - processing queued operations"
                 (set_onlineTransitions n flapped))).
Proof.
  apply (drain_single_flight flapped).
  exists flap_trace. vm_compute. reflexivity.
Defined.

(** The flap of scenario F, run: the drain is still suspended when the
    second reconnect resumes, and the queued closure has been called
    once. *)
Example flap_no_second_drain :
  drains flapped = [mkDrain [0%nat] [None]]
  ∧ invocations flapped = [0%nat]
  ∧ drains <$> step flapped (DisableOfflineModeSettled true)
    = Some [mkDrain [0%nat] [None]]
  ∧ invocations <$> step flapped (DisableOfflineModeSettled true)
    = Some [0%nat].
Proof. repeat split; vm_compute; reflexivity. Qed.

End OfflineManagerProperties.

(** ** Entity store *)

Section BaseServiceProperties.
Import Firestore BaseService.
Context {T : Type} `{BaseEntity T}.

Ltac prov_run :=
  unfold mbind, prov_bind, mret, prov_ret, bind, ret, throw, try_catch, call,
    get_docs, put_docs, get_serverNow, get_autoId;
  cbn beta iota zeta.

(** What each operation computes, by the outcome of its provider calls. *)
Lemma getById_run (id : string) (w : World T) :
  getById id w =
    match script w (calls w) with
    | Throws e => (Returned (failed e), tick w)
    | Succeeds =>
        match docs w !! id with
        | None => (Returned document_not_found, tick w)
        | Some d => (Returned (succeeded (Some (with_id id d))), tick w)
        end
    end.
Proof.
  unfold getById, getDoc. prov_run.
  destruct (script w (calls w)); [|reflexivity].
  cbn. destruct (docs w !! id) eqn:Hd; cbn; [|reflexivity].
  unfold docToEntity. cbn. rewrite ?Hd. reflexivity.
Qed.

Lemma update_run (id : string) (updates : Partial) (w : World T) :
  update id updates w =
    match script w (calls w) with
    | Throws e => (Returned (failed e), tick w)
    | Succeeds =>
        match docs w !! id with
        | None => (Returned (failed not_found), tick w)
        | Some old =>
            let new := entityToDoc updates (serverNow w) old in
            let w' := tick (tick (with_docs (<[id := new]> (docs w)) w)) in
            match script w (S (calls w)) with
            | Throws e => (Returned (failed e), w')
            | Succeeds => (Returned (succeeded (Some (with_id id new))), w')
            end
        end
    end.
Proof.
  unfold update, updateDoc, getDoc. prov_run.
  destruct (script w (calls w)); [|reflexivity].
  cbn. destruct (docs w !! id) eqn:Hd; cbn; [|reflexivity].
  destruct (script w (S (calls w))); cbn; [|reflexivity].
  unfold docToEntity; cbn. rewrite lookup_insert_eq. reflexivity.
Qed.

Lemma create_run (entityData : T) (w : World T) :
  create entityData w =
    match script w (calls w) with
    | Throws e => (Returned (failed e), tick w)
    | Succeeds =>
        let id := autoId w (calls w) in
        let new := with_updatedAt (serverNow w)
                     (with_createdAt (serverNow w) entityData) in
        let w' := tick (tick (with_docs (<[id := new]> (docs w)) w)) in
        match script w (S (calls w)) with
        | Throws e => (Returned (failed e), w')
        | Succeeds => (Returned (succeeded (Some (with_id id new))), w')
        end
    end.
Proof.
  unfold create, addDoc, getDoc. prov_run.
  destruct (script w (calls w)); [|reflexivity].
  cbn. destruct (script w (S (calls w))); cbn; [|reflexivity].
  unfold docToEntity; cbn. rewrite lookup_insert_eq. reflexivity.
Qed.

Lemma delete_run (id : string) (w : World T) :
  BaseService.delete id w =
    match script w (calls w) with
    | Throws e => (Returned (failed e), tick w)
    | Succeeds =>
        (Returned (succeeded None), tick (with_docs (base.delete id (docs w)) w))
    end.
Proof.
  unfold BaseService.delete, deleteDoc. prov_run.
  destruct (script w (calls w)); reflexivity.
Qed.

Lemma query_run (options : gmap string T → list (string * T)) (w : World T) :
  query options w =
    match script w (calls w) with
    | Throws e => (Returned (failed e), tick w)
    | Succeeds =>
        (Returned
           (succeeded
              (Some (omap docToEntity
                       ((fun '(id, x) => (id, Some x)) <$> options (docs w))))),
         tick w)
    end.
Proof.
  unfold query, getDocs. prov_run.
  destruct (script w (calls w)); reflexivity.
Qed.

(** An update either leaves the collection as it was or replaces the
    document by its merge with the update. *)
Lemma update_effect (id : string) (updates : Partial) (w : World T) :
  let out := update id updates w in
  (∃ resp, out.1 = Returned resp)
  ∧ (docs out.2 = docs w
     ∨ ∃ old, docs w !! id = Some old
              ∧ docs out.2 = <[id := entityToDoc updates (serverNow w) old]> (docs w)).
Proof.
  cbn zeta. rewrite update_run.
  destruct (script w (calls w)); [|eauto].
  destruct (docs w !! id) as [old|] eqn:Hold; [|eauto].
  cbn zeta.
  destruct (script w (S (calls w)));
    (split; [eexists; reflexivity|]); right; exists old; split; reflexivity.
Qed.

(** C10, as the store implements it: each of [create], [getById],
    [update], [delete] and [query] returns a response and never throws,
    whatever the provider does; a failed response carries no data and
    its error string is either "Document not found" or the message of
    the error the provider raised (the default text when that error has
    no message). *)
Theorem entity_store_structured (w : World T) (entityData : T) (id : string)
    (updates : Partial) (options : gmap string T → list (string * T)) :
  structured w (create entityData w)
  ∧ structured w (getById id w)
  ∧ structured w (update id updates w)
  ∧ structured w (BaseService.delete id w)
  ∧ structured w (query options w).
Proof.
  unfold structured.
  rewrite create_run, getById_run, update_run, delete_run, query_run.
  repeat split.
  - destruct (script w (calls w)) eqn:H0; [|eauto 10].
    cbn zeta. destruct (script w (S (calls w))) eqn:H1; eauto 10.
  - destruct (script w (calls w)) eqn:H0; [|eauto 10].
    destruct (docs w !! id); eauto 10.
  - destruct (script w (calls w)) eqn:H0; [|eauto 10].
    destruct (docs w !! id); [|eauto 10].
    cbn zeta. destruct (script w (S (calls w))) eqn:H1; eauto 10.
  - destruct (script w (calls w)) eqn:H0; eauto 10.
  - destruct (script w (calls w)) eqn:H0; eauto 10.
Qed.

End BaseServiceProperties.

(** ** Request lifecycle *)

Section RequestServiceProperties.
Import Firestore RequestService.
Local Open Scope Z_scope.

Lemma existsb_is_deny (l : list Approval) :
  existsb is_deny l = true ↔ Exists (λ a, decision a = deny) l.
Proof.
  rewrite existsb_exists, Exists_exists.
  split; intros (a & Hin & Ha); exists a.
  - split; [apply list_elem_of_In; exact Hin|]. apply bool_decide_eq_true in Ha. exact Ha.
  - split; [apply list_elem_of_In; exact Hin|]. apply bool_decide_eq_true. exact Ha.
Qed.

Lemma existsb_is_approve (l : list Approval) :
  existsb is_approve l = true ↔ Exists (λ a, decision a = approve) l.
Proof.
  rewrite existsb_exists, Exists_exists.
  split; intros (a & Hin & Ha); exists a.
  - split; [apply list_elem_of_In; exact Hin|]. apply bool_decide_eq_true in Ha. exact Ha.
  - split; [apply list_elem_of_In; exact Hin|]. apply bool_decide_eq_true. exact Ha.
Qed.

Lemma calculateRequestStatus_derivation (l : list Approval) :
  calculateRequestStatus l = status_of_approvals l.
Proof.
  unfold calculateRequestStatus, status_of_approvals.
  destruct l as [|a l]; cbn [length Nat.eqb].
  - rewrite !decide_False; [reflexivity| |]; intros Hex; inversion Hex.
  - destruct (existsb is_deny (a :: l)) eqn:Hd.
    + apply existsb_is_deny in Hd. rewrite decide_True by exact Hd. reflexivity.
    + rewrite decide_False by (rewrite <- existsb_is_deny; congruence).
      destruct (existsb is_approve (a :: l)) eqn:Ha.
      * apply existsb_is_approve in Ha. rewrite decide_True by exact Ha. reflexivity.
      * rewrite decide_False by (rewrite <- existsb_is_approve; congruence).
        reflexivity.
Qed.

Lemma status_of_approvals_deny (l : list Approval) :
  existsb is_deny l = true → status_of_approvals l = denied.
Proof.
  intros Hd. apply existsb_is_deny in Hd.
  unfold status_of_approvals. rewrite decide_True by exact Hd. reflexivity.
Qed.

Lemma status_of_approvals_approve (l : list Approval) :
  existsb is_deny l = false → l ≠ [] → status_of_approvals l = approved.
Proof.
  intros Hd Hne. unfold status_of_approvals.
  rewrite decide_False by (rewrite <- existsb_is_deny; congruence).
  rewrite decide_True; [reflexivity|].
  destruct l as [|a l]; [congruence|].
  destruct (decision a) eqn:Ha.
  - apply Exists_cons_hd. exact Ha.
  - exfalso. cbn in Hd. unfold is_deny at 1 in Hd.
    rewrite (bool_decide_eq_true_2 _ Ha) in Hd. discriminate Hd.
Qed.

Lemma status_of_approvals_pending (l : list Approval) :
  status_of_approvals l = pending ↔ l = [].
Proof.
  split.
  - intros Hp. destruct l as [|a l]; [reflexivity|]. exfalso.
    destruct (existsb is_deny (a :: l)) eqn:Hd.
    + rewrite (status_of_approvals_deny _ Hd) in Hp. discriminate Hp.
    + rewrite (status_of_approvals_approve _ Hd) in Hp; [discriminate Hp|discriminate].
  - intros ->. rewrite <- calculateRequestStatus_derivation. reflexivity.
Qed.

(** What the request operations compute, by the outcome of the read. *)
Lemma decide_request_resume_run (d : Decision) (requestId parentId : string)
    (reason : option string) (now : Date) (r : Request) (w' : World Request) :
  decide_request_resume d (found requestId r) requestId parentId reason now w'
  = BaseService.update requestId (decision_update d parentId reason now r) w'.
Proof. destruct d; reflexivity. Qed.

Lemma decide_request_run (d : Decision) (requestId parentId : string)
    (reason : option string) (now : Date) (w : World Request) :
  decide_request d requestId parentId reason now w =
    match script w (calls w) with
    | Throws e => (Returned (failed e), tick w)
    | Succeeds =>
        match docs w !! requestId with
        | None => (Returned document_not_found, tick w)
        | Some r =>
            BaseService.update requestId
              (decision_update d parentId reason now r) (tick w)
        end
    end.
Proof.
  destruct d; unfold decide_request, approveRequest, denyRequest;
    unfold mbind at 1, prov_bind at 1, bind at 1;
    rewrite getById_run;
    (destruct (script w (calls w)); [|reflexivity]);
    (destruct (docs w !! requestId); reflexivity).
Qed.

Lemma checkRequestExpiry_run (requestId : string) (now : Date) (w : World Request) :
  checkRequestExpiry requestId now w =
    match script w (calls w) with
    | Throws e => (Returned (failed e), tick w)
    | Succeeds =>
        match docs w !! requestId with
        | None => (Returned document_not_found, tick w)
        | Some r =>
            if lt_Date (expiresAt r) now && bool_decide (status r = pending) then
              BaseService.update requestId
                (mkPartial None None None None None None None
                   (Some expired) None None None None) (tick w)
            else (Returned (found requestId r), tick w)
        end
    end.
Proof.
  unfold checkRequestExpiry; unfold mbind at 1, prov_bind at 1, bind at 1.
  rewrite getById_run.
  destruct (script w (calls w)); [|reflexivity].
  destruct (docs w !! requestId) as [r|]; [|reflexivity].
  unfold checkRequestExpiry_resume. cbn. destruct (_ && _); reflexivity.
Qed.

Lemma extendRequestExpiry_run (requestId : string) (additionalHours : Z)
    (w : World Request) :
  extendRequestExpiry requestId additionalHours w =
    match script w (calls w) with
    | Throws e => (Returned (failed e), tick w)
    | Succeeds =>
        match docs w !! requestId with
        | None => (Returned document_not_found, tick w)
        | Some r => (Threw getTime_is_not_a_function, tick w)
        end
    end.
Proof.
  unfold extendRequestExpiry; unfold mbind at 1, prov_bind at 1, bind at 1.
  rewrite getById_run.
  destruct (script w (calls w)); [|reflexivity].
  destruct (docs w !! requestId) as [r|]; reflexivity.
Qed.

Lemma entityToDoc_decision d parentId reason now srv (r r' : Request) :
  BaseService.entityToDoc (decision_update d parentId reason now r) srv r'
  = recorded (approvals r ++ [mkApproval parentId d reason now]) srv r'.
Proof.
  unfold BaseService.entityToDoc, recorded, decision_update. cbn.
  unfold request_with_updatedAt, request_assign. cbn.
  rewrite calculateRequestStatus_derivation. reflexivity.
Qed.

(** A decision that resumes in [w'] either leaves the collection as it
    is or writes the approvals it read, with its own, over the request
    as stored by then; it never throws. *)
Lemma decide_request_resume_effect d requestId parentId reason now r
    (w' : World Request) :
  let l := (approvals r ++ [mkApproval parentId d reason now])%list in
  let out := decide_request_resume d (found requestId r) requestId parentId
               reason now w' in
  (∃ resp, out.1 = Returned resp)
  ∧ (docs out.2 = docs w'
     ∨ ∃ r', docs w' !! requestId = Some r'
            ∧ docs out.2 = <[requestId := recorded l (serverNow w') r']> (docs w')).
Proof.
  cbn zeta. rewrite decide_request_resume_run.
  destruct (@update_effect Request Request_entity requestId
              (decision_update d parentId reason now r) w')
    as [Hret [Hsame|(old & Hold & Hnew)]].
  - split; [exact Hret|]. left. exact Hsame.
  - split; [exact Hret|]. right. exists old. split; [exact Hold|].
    rewrite Hnew, entityToDoc_decision. reflexivity.
Qed.

(** ... and when the provider accepts the write, it is made. *)
Lemma decide_request_resume_written d requestId parentId reason now r r'
    (w' : World Request) :
  docs w' !! requestId = Some r' →
  script w' (calls w') = Succeeds →
  let l := (approvals r ++ [mkApproval parentId d reason now])%list in
  docs (decide_request_resume d (found requestId r) requestId parentId
          reason now w').2
  = <[requestId := recorded l (serverNow w') r']> (docs w').
Proof.
  intros Hr' H0. cbn zeta. rewrite decide_request_resume_run, update_run, H0, Hr'.
  cbn zeta. rewrite entityToDoc_decision.
  destruct (script w' (S (calls w'))); reflexivity.
Qed.

(** A decision either leaves the collection as it was or replaces the
    request by [decided]; it never throws. *)
Lemma decide_request_effect d requestId parentId reason now (w : World Request) :
  let out := decide_request d requestId parentId reason now w in
  (∃ resp, out.1 = Returned resp)
  ∧ (docs out.2 = docs w
     ∨ ∃ r, docs w !! requestId = Some r
            ∧ docs out.2
              = <[requestId := decided d parentId reason now (serverNow w) r]> (docs w)).
Proof.
  cbn zeta. rewrite decide_request_run.
  destruct (script w (calls w)) eqn:H0; [|eauto].
  destruct (docs w !! requestId) as [r|] eqn:Hr; [|eauto].
  rewrite update_run. cbn [tick script calls docs serverNow].
  rewrite Hr. cbn zeta. rewrite entityToDoc_decision.
  destruct (script w (S (calls w))); [|eauto].
  destruct (script w (S (S (calls w))));
    (split; [eexists; reflexivity|]); right; exists r; split;
    first [exact Hr|reflexivity].
Qed.

(** With a healthy provider the decision is appended and returned. *)
Lemma decide_request_ok d requestId parentId reason now (w : World Request) r :
  no_faults w →
  docs w !! requestId = Some r →
  let r' := decided d parentId reason now (serverNow w) r in
  decide_request d requestId parentId reason now w
  = (Returned (succeeded (Some (request_with_id requestId r'))),
     tick (tick (tick (with_docs (<[requestId := r']> (docs w)) w)))).
Proof.
  intros Hn Hr. cbn zeta. rewrite decide_request_run, (Hn (calls w)), Hr.
  rewrite update_run. cbn [tick script calls docs serverNow].
  rewrite (Hn (S (calls w))), (Hn (S (S (calls w)))), Hr. cbn zeta.
  rewrite entityToDoc_decision. reflexivity.
Qed.

Lemma stored_status_insert (w w' : World Request) requestId r' :
  docs w' = <[requestId := r']> (docs w) →
  stored_status w' requestId = Some (status r').
Proof. unfold stored_status. intros ->. rewrite lookup_insert_eq. reflexivity. Qed.

Lemma stored_status_same (w w' : World Request) requestId r :
  docs w' = docs w → docs w !! requestId = Some r →
  stored_status w' requestId = Some (status r).
Proof. unfold stored_status. intros -> ->. reflexivity. Qed.

Lemma existsb_is_deny_snoc l a :
  existsb is_deny (l ++ [a]) = existsb is_deny l || is_deny a.
Proof. rewrite existsb_app. cbn. rewrite orb_false_r. reflexivity. Qed.

Lemma existsb_is_approve_snoc l a :
  existsb is_approve (l ++ [a]) = existsb is_approve l || is_approve a.
Proof. rewrite existsb_app. cbn. rewrite orb_false_r. reflexivity. Qed.

Lemma no_deny_among_approvals (l : list Approval) :
  (∀ a, In a l → decision a = approve) → existsb is_deny l = false.
Proof.
  intros Hall. destruct (existsb is_deny l) eqn:Hd; [|reflexivity].
  apply existsb_exists in Hd as (a & Hin & Ha).
  apply bool_decide_eq_true in Ha. rewrite (Hall a Hin) in Ha. discriminate Ha.
Qed.

(** C1: [calculateRequestStatus] is the derivation of the specification:
    pending for no approvals, denied as soon as one approval denies,
    approved when there are approvals and all approve. Whenever
    [approveRequest] or [denyRequest] resumes after its read, in whatever
    state the collection is by then, it either writes nothing or writes
    the approvals it read, extended by the new one, together with the
    status derived from exactly that list. Run one after the other with
    a healthy provider and a reason given, a decision stores the
    extended list and its status; a deny followed by an approve leaves
    the request denied; an approve of a request nobody has denied leaves
    it approved. *)
Theorem decision_recomputes_status :
  calculateRequestStatus [] = pending
  ∧ (∀ l a, In a l → decision a = deny → calculateRequestStatus l = denied)
  ∧ (∀ l, l ≠ [] → (∀ a, In a l → decision a = approve) →
       calculateRequestStatus l = approved)
  ∧ (∀ l, calculateRequestStatus l = status_of_approvals l)
  ∧ (∀ d requestId parentId reason now r (w' : World Request),
       let l := (approvals r ++ [mkApproval parentId d reason now])%list in
       let out := decide_request_resume d (found requestId r) requestId parentId
                    reason now w' in
       (∃ resp, out.1 = Returned resp)
       ∧ (docs out.2 = docs w'
          ∨ ∃ r', docs w' !! requestId = Some r'
                 ∧ docs out.2
                   = <[requestId := recorded l (serverNow w') r']> (docs w')))
  ∧ (∀ d requestId parentId reason now (w : World Request) r,
       no_faults w →
       docs w !! requestId = Some r →
       let l := (approvals r ++ [mkApproval parentId d (Some reason) now])%list in
       let out := decide_request d requestId parentId (Some reason) now w in
       ∃ r', out.1 = Returned (found requestId r')
         ∧ docs out.2 !! requestId = Some r'
         ∧ approvals r' = l
         ∧ status r' = calculateRequestStatus l)
  ∧ (∀ requestId p1 reason1 t1 p2 reason2 t2 (w : World Request) r,
       no_faults w →
       docs w !! requestId = Some r →
       let w1 := (denyRequest requestId p1 (Some reason1) t1 w).2 in
       let w2 := (approveRequest requestId p2 (Some reason2) t2 w1).2 in
       stored_status w2 requestId = Some denied)
  ∧ (∀ requestId parentId reason now (w : World Request) r,
       no_faults w →
       docs w !! requestId = Some r →
       (∀ a, In a (approvals r) → decision a = approve) →
       stored_status (approveRequest requestId parentId (Some reason) now w).2
         requestId
       = Some approved).
Proof.
  split; [reflexivity|].
  split.
  { intros l a Hin Ha. rewrite calculateRequestStatus_derivation.
    apply status_of_approvals_deny. apply existsb_exists. exists a.
    split; [exact Hin|]. apply bool_decide_eq_true. exact Ha. }
  split.
  { intros l Hne Hall. rewrite calculateRequestStatus_derivation.
    apply status_of_approvals_approve; [|exact Hne].
    apply no_deny_among_approvals. exact Hall. }
  split; [exact calculateRequestStatus_derivation|].
  split; [exact decide_request_resume_effect|].
  split; [|split].
  - intros d requestId parentId reason now w r Hn Hr. cbn zeta.
    rewrite (decide_request_ok d requestId parentId (Some reason) now w r Hn Hr).
    eexists. split; [reflexivity|]. cbn [snd tick with_docs docs].
    rewrite lookup_insert_eq. split; [reflexivity|]. split; [reflexivity|].
    cbn [status decided recorded]. symmetry. apply calculateRequestStatus_derivation.
  - intros requestId p1 reason1 t1 p2 reason2 t2 w r Hn Hr. cbn zeta.
    change denyRequest with (decide_request deny).
    change approveRequest with (decide_request approve).
    rewrite (decide_request_ok deny requestId p1 (Some reason1) t1 w r Hn Hr).
    cbn [snd].
    set (r1 := decided deny p1 (Some reason1) t1 (serverNow w) r).
    set (w1 := tick (tick (tick (with_docs (<[requestId := r1]> (docs w)) w)))).
    assert (no_faults w1) as Hn1 by (intros i; apply Hn).
    assert (docs w1 !! requestId = Some r1) as Hr1 by apply lookup_insert_eq.
    rewrite (decide_request_ok approve requestId p2 (Some reason2) t2 w1 r1 Hn1 Hr1).
    unfold stored_status. cbn [snd tick with_docs docs].
    rewrite lookup_insert_eq. cbn [fmap option_fmap option_map]. f_equal.
    cbn [status decided recorded approvals r1].
    apply status_of_approvals_deny.
    rewrite !existsb_app. cbn. rewrite orb_true_r. reflexivity.
  - intros requestId parentId reason now w r Hn Hr Hall.
    change approveRequest with (decide_request approve).
    rewrite (decide_request_ok approve requestId parentId (Some reason) now w r Hn Hr).
    unfold stored_status. cbn [snd tick with_docs docs].
    rewrite lookup_insert_eq. cbn [fmap option_fmap option_map]. f_equal.
    cbn [status decided recorded].
    apply status_of_approvals_approve.
    + rewrite existsb_is_deny_snoc, (no_deny_among_approvals _ Hall). reflexivity.
    + intros Hnil. apply app_eq_nil in Hnil as [_ Hnil]. discriminate Hnil.
Qed.

Lemma decision_recomputes_status_witness :
  let w := world_of {[ "req-1" := sample_request ]} healthy in
  let w1 := (denyRequest "req-1" "parent-1" (Some "Too late") 1000 w).2 in
  let w2 := (approveRequest "req-1" "parent-2" (Some "Just today") 2000 w1).2 in
  stored_status w2 "req-1" = Some denied
  ∧ stored_status
      (approveRequest "req-1" "parent-2" (Some "Just today") 2000 w).2 "req-1"
    = Some approved.
Proof.
  destruct decision_recomputes_status as (_ & _ & _ & _ & _ & _ & Hdeny & Happrove).
  split.
  - apply (Hdeny "req-1" "parent-1" "Too late" 1000 "parent-2" "Just today" 2000
             (world_of {[ "req-1" := sample_request ]} healthy) sample_request).
    + intros i. reflexivity.
    + vm_compute. reflexivity.
  - apply (Happrove "req-1" "parent-2" "Just today" 2000
             (world_of {[ "req-1" := sample_request ]} healthy) sample_request).
    + intros i. reflexivity.
    + vm_compute. reflexivity.
    + intros a [].
Defined.

Lemma lt_Date_valid (t : Timestamp) (now : Date) :
  valid_timestamp t → all_timestamps_below < now → lt_Date t now = true.
Proof.
  unfold valid_timestamp, lt_Date, valueOf_nanos, MIN_SECONDS, all_timestamps_below.
  intros [Hs Hn] Hnow. apply Z.ltb_lt. lia.
Qed.

Lemma fromDate_valid (date : Date) :
  -62135596800000 ≤ date < 253402300800000 → valid_timestamp (fromDate date).
Proof.
  unfold valid_timestamp, fromDate, fromMillis, MIN_SECONDS. cbn [seconds nanoseconds].
  intros Hd. pose proof (Z.div_mod date 1000 ltac:(lia)) as Hdm.
  pose proof (Z.mod_pos_bound date 1000 ltac:(lia)) as Hm. lia.
Qed.

(** The expiry check, by cases. *)
Lemma checkRequestExpiry_effect requestId now (w : World Request) r :
  docs w !! requestId = Some r →
  let out := checkRequestExpiry requestId now w in
  (∃ resp, out.1 = Returned resp)
  ∧ (docs out.2 = docs w
     ∨ (status r = pending ∧ lt_Date (expiresAt r) now = true
        ∧ docs out.2 = <[requestId := lapsed (serverNow w) r]> (docs w))).
Proof.
  intros Hr. cbn zeta. rewrite checkRequestExpiry_run, Hr.
  destruct (script w (calls w)); [|eauto].
  destruct (lt_Date (expiresAt r) now) eqn:Hlt; cbn [andb]; [|eauto].
  destruct (bool_decide_reflect (status r = pending)) as [Hp|Hp]; [|eauto].
  destruct (@update_effect Request Request_entity requestId
              (mkPartial None None None None None None None (Some expired)
                 None None None None) (tick w)) as [Hret [Hsame|(old & Hold & Hnew)]].
  - split; [exact Hret|]. left. exact Hsame.
  - split; [exact Hret|]. right.
    cbn [tick docs serverNow] in Hold, Hnew.
    assert (old = r) as -> by congruence.
    repeat split; try assumption.
Qed.

Lemma checkRequestExpiry_expires requestId now (w : World Request) r :
  no_faults w →
  docs w !! requestId = Some r →
  status r = pending →
  lt_Date (expiresAt r) now = true →
  checkRequestExpiry requestId now w
  = (Returned (found requestId (lapsed (serverNow w) r)),
     tick (tick (tick (with_docs (<[requestId := lapsed (serverNow w) r]> (docs w)) w)))).
Proof.
  intros Hn Hr Hp Hlt. rewrite checkRequestExpiry_run, (Hn (calls w)), Hr, Hlt.
  rewrite (bool_decide_eq_true_2 _ Hp). cbn [andb].
  rewrite update_run. cbn [tick script calls docs serverNow].
  rewrite (Hn (S (calls w))), (Hn (S (S (calls w)))), Hr. reflexivity.
Qed.

Lemma createRequest_ok familyId requesterId type target duration reason
    expiresInHours now (w : World Request) :
  no_faults w →
  let rid := autoId w (calls w) in
  let new :=
    mkRequest "" familyId requesterId type target duration reason pending []
      (fromDate (now + hours expiresInHours)) (serverNow w) (serverNow w) in
  createRequest familyId requesterId type target duration reason expiresInHours now w
  = (Returned (succeeded (Some (request_with_id rid new))),
     tick (tick (with_docs (<[rid := new]> (docs w)) w))).
Proof.
  intros Hn. unfold createRequest. rewrite create_run.
  rewrite (Hn (calls w)), (Hn (S (calls w))). reflexivity.
Qed.

(** C3, as the check runs: the stored status changes only from pending
    to expired. Whether it does is decided by [expiresAt < now] as the
    language evaluates it on the provider's [Timestamp], which counts
    seconds from the year 1, against the clock's milliseconds from 1970.
    On any clock reading after the first hours of 1980 every valid
    [Timestamp] is below it: a stored pending request is then marked
    expired by the check whatever its expiry, also long before it; a
    request created with an expiry some hours ahead is expired by a
    check at the very instant of its creation. *)
Theorem checkRequestExpiry_expires_before_expiry :
  (∀ requestId now (w : World Request) r,
     docs w !! requestId = Some r →
     let out := checkRequestExpiry requestId now w in
     (∃ resp, out.1 = Returned resp)
     ∧ (stored_status out.2 requestId ≠ Some (status r) →
        status r = pending ∧ stored_status out.2 requestId = Some expired))
  ∧ (∀ t now,
       valid_timestamp t → all_timestamps_below < now → lt_Date t now = true)
  ∧ (∀ requestId now (w : World Request) r,
       no_faults w →
       docs w !! requestId = Some r →
       status r = pending →
       valid_timestamp (expiresAt r) →
       all_timestamps_below < now →
       let out := checkRequestExpiry requestId now w in
       out.1 = Returned (found requestId (lapsed (serverNow w) r))
       ∧ stored_status out.2 requestId = Some expired)
  ∧ (∀ familyId requesterId type target duration reason expiresInHours t0
       (w : World Request),
       no_faults w →
       all_timestamps_below < t0 →
       0 ≤ expiresInHours →
       t0 + hours expiresInHours < 253402300800000 →
       let rid := autoId w (calls w) in
       let w1 := (createRequest familyId requesterId type target (Some duration)
                    (Some reason) expiresInHours t0 w).2 in
       stored_status w1 rid = Some pending
       ∧ stored_status (checkRequestExpiry rid t0 w1).2 rid = Some expired).
Proof.
  split; [|split; [|split]].
  - intros requestId now w r Hr. cbn zeta.
    destruct (checkRequestExpiry_effect requestId now w r Hr)
      as [Hret [Hsame|(Hp & Hlt & Hnew)]]; (split; [exact Hret|]); intros Hne.
    + destruct Hne. eapply stored_status_same; eassumption.
    + split; [assumption|].
      rewrite (stored_status_insert _ _ _ _ Hnew). reflexivity.
  - exact lt_Date_valid.
  - intros requestId now w r Hn Hr Hp Hvalid Hnow. cbn zeta.
    rewrite (checkRequestExpiry_expires requestId now w r Hn Hr Hp
               (lt_Date_valid _ _ Hvalid Hnow)).
    split; [reflexivity|]. cbn [snd].
    apply (stored_status_insert w _ requestId (lapsed (serverNow w) r)).
    reflexivity.
  - intros familyId requesterId type target duration reason expiresInHours t0 w
      Hn Ht0 Hh Hmax. cbn zeta.
    rewrite (createRequest_ok familyId requesterId type target (Some duration)
               (Some reason) expiresInHours t0 w Hn).
    cbn [snd].
    set (rid := autoId w (calls w)).
    set (new := mkRequest "" familyId requesterId type target (Some duration)
                  (Some reason)
                  pending [] (fromDate (t0 + hours expiresInHours))
                  (serverNow w) (serverNow w)).
    set (w1 := tick (tick (with_docs (<[rid := new]> (docs w)) w))).
    assert (no_faults w1) as Hn1 by (intros i; apply Hn).
    assert (docs w1 !! rid = Some new) as Hr1 by apply lookup_insert_eq.
    split.
    + unfold stored_status. rewrite Hr1. reflexivity.
    + assert (lt_Date (expiresAt new) t0 = true) as Hlt.
      { apply lt_Date_valid; [|exact Ht0]. apply fromDate_valid.
        unfold all_timestamps_below, hours in *. lia. }
      rewrite (checkRequestExpiry_expires rid t0 w1 new Hn1 Hr1 eq_refl Hlt).
      cbn [snd].
      apply (stored_status_insert w1 _ rid (lapsed (serverNow w1) new)).
      reflexivity.
Qed.

Lemma checkRequestExpiry_expires_before_expiry_witness :
  let w := world_of {[ "req-1" := fresh_request ]} healthy in
  let an_hour_later := november_2023 + hours 1 in
  expiresAt fresh_request = fromDate (november_2023 + hours 24)
  ∧ an_hour_later < november_2023 + hours 24
  ∧ stored_status (checkRequestExpiry "req-1" an_hour_later w).2 "req-1"
    = Some expired.
Proof.
  split; [reflexivity|]. split; [reflexivity|].
  apply (proj1 (proj2 (proj2 checkRequestExpiry_expires_before_expiry))
           "req-1" (november_2023 + hours 1)
           (world_of {[ "req-1" := fresh_request ]} healthy) fresh_request).
  - intros i. reflexivity.
  - vm_compute. reflexivity.
  - reflexivity.
  - vm_compute. repeat split; discriminate.
  - reflexivity.
Defined.






(** C10 as stated fails: when the provider raises an error, the string
    the caller receives is the provider's own message, not the message
    the error classifier would give. *)
Lemma create_surfaces_provider_message :
  ¬ (∀ (w : World Request)
       (entityData : Request) (e : RawError),
       script w (calls w) = Throws e →
       ∃ resp ctx now,
         (BaseService.create entityData w).1 = Returned resp
         ∧ error resp = Some (message (ErrorHandler.categorizeError e ctx now))
         ∧ error resp ≠ raw_message e).
Proof.
  intros Hclaim.
  destruct (Hclaim (world_of ∅ unavailable) sample_request firestore_unavailable eq_refl)
    as (resp & ctx & now & Hrun & Hmsg & Hraw).
  rewrite create_run in Hrun. cbn in Hrun.
  injection Hrun as <-. apply Hraw. reflexivity.
Qed.

End RequestServiceProperties.

(** * Further properties of the modelled code *)

(** ** Retry delay, retry decision, friendly messages *)

Section ErrorHandlerMore.
Import ErrorHandler.
Local Open Scope Z_scope.

(** [getRetryDelay], without its jitter: from attempt 0 on the delay
    starts at 1000 ms, doubles up to attempt 4, is 30000 ms from attempt
    5 on, and never decreases with the attempt. *)
Theorem exponentialBackoff_shape (n m : Z) :
  0 ≤ n → n ≤ m →
  1000 ≤ exponentialBackoff n ≤ 30000
  ∧ exponentialBackoff n ≤ exponentialBackoff m
  ∧ (n ≤ 4 → exponentialBackoff n = 1000 * 2 ^ n)
  ∧ (5 ≤ n → exponentialBackoff n = 30000).
Proof.
  intros Hn Hnm. unfold exponentialBackoff.
  assert (1 ≤ 2 ^ n) by (apply Z.pow_le_mono_r with (b := 0) (c := n); lia).
  assert (2 ^ n ≤ 2 ^ m) by (apply Z.pow_le_mono_r; lia).
  split; [lia|]. split; [lia|]. split.
  - intros H4. apply Z.min_l.
    assert (2 ^ n ≤ 2 ^ 4) by (apply Z.pow_le_mono_r; lia).
    change (2 ^ 4) with 16 in *. lia.
  - intros H5. apply Z.min_r.
    assert (2 ^ 5 ≤ 2 ^ n) by (apply Z.pow_le_mono_r; lia).
    change (2 ^ 5) with 32 in *. lia.
Qed.

Lemma exponentialBackoff_shape_witness :
  1000 ≤ exponentialBackoff 3 ≤ 30000
  ∧ exponentialBackoff 3 ≤ exponentialBackoff 7
  ∧ (3 ≤ 4 → exponentialBackoff 3 = 1000 * 2 ^ 3)
  ∧ (5 ≤ 3 → exponentialBackoff 3 = 30000).
Proof. apply (exponentialBackoff_shape 3 7); lia. Defined.

Lemma eqb_prefix_false (c lit p : string) :
  String.prefix p lit = true → String.prefix p c = false → String.eqb c lit = false.
Proof.
  intros Hl Hc. destruct (String.eqb_spec c lit) as [->|]; [congruence|reflexivity].
Qed.

(** Which failures the retry policy accepts once classified: those that
    carry neither provider prefix and are marked as network or time-out
    failures by their code or their message. A [firestore/...] or
    [auth/...] failure is never retried, the codes of [retryableCodes]
    included. *)
Theorem shouldRetry_of_classified (e : RawError) (ctx : ErrorContext) (now : Date) :
  shouldRetry (categorizeError e ctx now)
  = negb (Js.opt_startsWith (raw_code e) "auth/")
    && negb (Js.opt_startsWith (raw_code e) "firestore/")
    && (Js.opt_eqb (raw_code e) "NETWORK_ERROR"
        || Js.opt_includes (raw_message e) "network"
        || Js.opt_eqb (raw_code e) "TIMEOUT"
        || Js.opt_includes (raw_message e) "timeout"
        || Js.opt_eqb (raw_code e) "TIMEOUT_ERROR").
Proof.
  unfold shouldRetry. rewrite categorizeError_code.
  unfold categorize, isRetryableError, Js.array_includes, retryableCodes.
  cbn [existsb].
  destruct (Js.opt_startsWith (raw_code e) "auth/") eqn:Ha; [reflexivity|].
  destruct (Js.opt_startsWith (raw_code e) "firestore/") eqn:Hf; [reflexivity|].
  destruct (Js.opt_includes (raw_message e) "network") eqn:Hn;
    [rewrite orb_true_r; reflexivity|].
  destruct (Js.opt_includes (raw_message e) "timeout") eqn:Ht;
    [destruct (Js.opt_eqb (raw_code e) "NETWORK_ERROR"),
              (Js.opt_eqb (raw_code e) "TIMEOUT"); reflexivity|].
  destruct (raw_code e) as [c|]; [|reflexivity].
  cbn [Js.opt_eqb Js.opt_startsWith Js.startsWith] in *.
  rewrite (eqb_prefix_false c "firestore/unavailable" "firestore/" eq_refl Hf).
  rewrite (eqb_prefix_false c "firestore/deadline-exceeded" "firestore/" eq_refl Hf).
  rewrite (eqb_prefix_false c "firestore/resource-exhausted" "firestore/" eq_refl Hf).
  repeat match goal with
         | |- context [String.eqb c ?l] =>
             destruct (String.eqb_spec c l) as [->|]
         end; reflexivity.
Qed.

(** A classified failure is always shown through the fixed table: the
    text depends on the code alone and is never the failure's own
    message. *)
Theorem friendly_message_of_classified (e : RawError) (ctx : ErrorContext) (now : Date) :
  ∃ m, getUserFriendlyMessage (categorizeError e ctx now) = Text m
       ∧ table_get friendlyMessages (code (categorizeError e ctx now)) = Some m
       ∧ In m (snd <$> friendlyMessages).
Proof.
  unfold getUserFriendlyMessage. rewrite categorizeError_code.
  pose proof (categorize_in_codes e) as Hin.
  unfold classifier_codes in Hin. cbn [In] in Hin.
  repeat destruct Hin as [<-|Hin];
    try (eexists; split; [reflexivity|split; [reflexivity|cbn; tauto]]).
  destruct Hin.
Qed.

(** An [AppError] that is handled again is classified by its [code]
    and [message] like any thrown value. When the message mentions
    neither "network" nor "timeout": the four sentinel codes pass
    through, TIMEOUT_ERROR comes out as RETRYABLE_ERROR, and AUTH_ERROR,
    FIRESTORE_ERROR, RETRYABLE_ERROR, OFFLINE_ERROR and UNKNOWN_ERROR
    come out as UNKNOWN_ERROR. When the message mentions "network", any
    of these codes comes out as NETWORK_ERROR, which is retried. *)
Theorem handled_again (a : AppError) (ctx : ErrorContext) (now : Date) :
  let again := categorizeError (raw_of_app a) ctx now in
  (Js.includes (message a) "network" = false →
   Js.includes (message a) "timeout" = false →
   (code a = "NETWORK_ERROR" → code again = "NETWORK_ERROR")
   ∧ (code a = "VALIDATION_ERROR" →
      code again = "VALIDATION_ERROR"
      ∧ message again = Js.or_default (Some (message a)) "Invalid input provided")
   ∧ (code a = "PERMISSION_ERROR" →
      code again = "PERMISSION_ERROR"
      ∧ message again
        = Js.or_default (Some (message a))
            "You do not have permission to perform this action")
   ∧ (code a = "BUSINESS_ERROR" →
      code again = "BUSINESS_ERROR"
      ∧ message again = Js.or_default (Some (message a)) "Operation not allowed")
   ∧ (code a = "TIMEOUT_ERROR" → code again = "RETRYABLE_ERROR")
   ∧ (In (code a) [ "AUTH_ERROR"; "FIRESTORE_ERROR"; "RETRYABLE_ERROR";
                    "OFFLINE_ERROR"; "UNKNOWN_ERROR" ] →
      code again = "UNKNOWN_ERROR"
      ∧ message again = "An unexpected error occurred"))
  ∧ (Js.includes (message a) "network" = true →
     In (code a) [ "AUTH_ERROR"; "FIRESTORE_ERROR"; "NETWORK_ERROR"; "TIMEOUT_ERROR";
                   "VALIDATION_ERROR"; "PERMISSION_ERROR"; "BUSINESS_ERROR";
                   "RETRYABLE_ERROR"; "OFFLINE_ERROR"; "UNKNOWN_ERROR" ] →
     code again = "NETWORK_ERROR" ∧ shouldRetry again = true).
Proof.
  destruct a as [c m d ts]. cbn [code message]. cbn zeta.
  assert (∀ c0 : string,
            categorizeError (raw_of_app (mkAppError c0 m d ts)) ctx now
            = let '(c1, m1) := categorize {| raw_code := Some c0; raw_message := Some m |} in
              mkAppError c1 m1 (Some {| raw_code := Some c0; raw_message := Some m |}) now)
    as Hunfold by reflexivity.
  split.
  - intros Hn Ht.
    repeat match goal with |- _ ∧ _ => split end.
    1-5: intros ->; rewrite Hunfold; unfold categorize, isRetryableError;
      cbn [raw_code raw_message Js.opt_includes Js.opt_startsWith Js.opt_eqb];
      rewrite ?Hn, ?Ht; try split; reflexivity.
    intros Hc. cbn [In] in Hc.
    repeat (destruct Hc as [<-|Hc]); try destruct Hc;
      rewrite Hunfold; unfold categorize, isRetryableError;
      cbn [raw_code raw_message Js.opt_includes Js.opt_startsWith Js.opt_eqb];
      rewrite ?Hn, ?Ht; split; reflexivity.
  - intros Hn Hc. cbn [In] in Hc.
    repeat (destruct Hc as [<-|Hc]); try destruct Hc;
      rewrite Hunfold; unfold shouldRetry, categorize;
      cbn [raw_code raw_message Js.opt_includes Js.opt_startsWith Js.opt_eqb];
      rewrite ?Hn; split; reflexivity.
Qed.

Lemma handled_again_witness :
  let a := createValidationError "Invalid network name" None 0 in
  let again := categorizeError (raw_of_app a) some_context 0 in
  code again = "NETWORK_ERROR" ∧ shouldRetry again = true.
Proof.
  apply (proj2 (handled_again (createValidationError "Invalid network name" None 0)
                  some_context 0)).
  - reflexivity.
  - cbn. tauto.
Defined.

(** *** [withRetry] *)

Section WithRetryProperties.
Context {A : Type}.
Variable operation : nat → A + RawError.
Variable maxRetries : Z.
Variable context : ErrorContext.
Variable clock : nat → Date.

Lemma handled_failures_app js1 js2 :
  handled_failures operation context clock (js1 ++ js2)
  = (handled_failures operation context clock js1
     ++ handled_failures operation context clock js2)%list.
Proof. unfold handled_failures. apply omap_app. Qed.

Lemma withRetry_loop_step fuel attempt lastError eh waited :
  withRetry_loop operation maxRetries context clock (S fuel) attempt lastError
    eh waited
  = match operation attempt with
    | inl a => mkRetried (Fulfilled a) eh (S attempt) waited
    | inr error =>
        let appError := categorizeError error context (clock attempt) in
        let eh' := {| errorQueue := (errorQueue eh ++ [(appError, context)])%list |} in
        if (Z.of_nat attempt =? maxRetries) || negb (shouldRetry appError) then
          mkRetried (RejectedWith appError) eh' (S attempt) waited
        else
          withRetry_loop operation maxRetries context clock fuel (S attempt)
            (Some error) eh' (waited ++ [attempt])%list
    end.
Proof. reflexivity. Qed.

(** The loop, when its last permitted attempt is [maxRetries]. *)
Lemma withRetry_loop_run (fuel : nat) :
  ∀ attempt lastError eh waited,
    Z.of_nat (attempt + fuel) = maxRetries →
    let r := withRetry_loop operation maxRetries context clock (S fuel)
               attempt lastError eh waited in
    ∃ k, (attempt ≤ k ≤ attempt + fuel)%nat
      ∧ ErrorHandler.calls r = S k
      ∧ waits r = (waited ++ seq attempt (k - attempt))%list
      ∧ (∀ j, (attempt ≤ j < k)%nat → fails_retryably operation context clock j)
      ∧ errorQueue (handler r)
        = (errorQueue eh
           ++ handled_failures operation context clock (seq attempt (S k - attempt)))%list
      ∧ match settled r with
        | Fulfilled a => operation k = inl a
        | RejectedWith e =>
            ∃ error, operation k = inr error
              ∧ e = categorizeError error context (clock k)
              ∧ (Z.of_nat k = maxRetries ∨ shouldRetry e = false)
        | RejectedLast _ => False
        end.
Proof.
  assert (∀ j, handled_failures operation context clock [j]
               = match operation j with
                 | inr error => [(categorizeError error context (clock j), context)]
                 | inl _ => []
                 end) as Hone.
  { intros j. unfold handled_failures. cbn. destruct (operation j); reflexivity. }
  induction fuel as [|fuel IH]; intros attempt lastError eh waited Hlast;
    cbn zeta; rewrite withRetry_loop_step; cbn zeta.
  - destruct (operation attempt) as [a|error] eqn:Hop.
    + exists attempt. cbn [ErrorHandler.calls waits handler settled].
      replace (attempt - attempt)%nat with 0%nat by lia.
      replace (S attempt - attempt)%nat with 1%nat by lia.
      cbn [seq]. rewrite Hone, Hop, !app_nil_r.
      repeat match goal with |- _ ∧ _ => split end;
        try reflexivity; try lia.
    + replace (Z.of_nat attempt =? maxRetries) with true
        by (symmetry; apply Z.eqb_eq; lia).
      cbn [orb]. exists attempt.
      cbn [ErrorHandler.calls waits handler settled errorQueue].
      replace (attempt - attempt)%nat with 0%nat by lia.
      replace (S attempt - attempt)%nat with 1%nat by lia.
      cbn [seq]. rewrite Hone, Hop, !app_nil_r.
      repeat match goal with |- _ ∧ _ => split end;
        try reflexivity; try lia.
      exists error. repeat split. left. lia.
  - destruct (operation attempt) as [a|error] eqn:Hop.
    + exists attempt. cbn [ErrorHandler.calls waits handler settled].
      replace (attempt - attempt)%nat with 0%nat by lia.
      replace (S attempt - attempt)%nat with 1%nat by lia.
      cbn [seq]. rewrite Hone, Hop, !app_nil_r.
      repeat match goal with |- _ ∧ _ => split end;
        try reflexivity; try lia.
    + destruct (Z.eqb_spec (Z.of_nat attempt) maxRetries) as [Heq|Hne]; [lia|].
      cbn [orb].
      destruct (shouldRetry (categorizeError error context (clock attempt))) eqn:Hsr;
        cbn [negb].
      * destruct (IH (S attempt) (Some error)
                    {| errorQueue :=
                         (errorQueue eh
                          ++ [(categorizeError error context (clock attempt), context)])%list |}
                    (waited ++ [attempt])%list)
          as (k & Hk & Hcalls & Hwaits & Hretry & Hqueue & Hsettled); [lia|].
        exists k. split; [lia|]. split; [exact Hcalls|].
        split.
        { rewrite Hwaits, <- app_assoc. f_equal.
          replace (k - attempt)%nat with (S (k - S attempt)) by lia. reflexivity. }
        split.
        { intros j Hj. destruct (decide (j = attempt)) as [->|Hne'].
          - exists error. split; assumption.
          - apply Hretry. lia. }
        split; [|exact Hsettled].
        rewrite Hqueue. cbn [errorQueue]. rewrite <- app_assoc. f_equal.
        replace (S k - attempt)%nat with (S (S k - S attempt)) by lia.
        change (seq attempt (S (S k - S attempt)))
          with ([attempt] ++ seq (S attempt) (S k - S attempt))%list.
        rewrite (handled_failures_app [attempt]), Hone, Hop. reflexivity.
      * exists attempt.
        cbn [ErrorHandler.calls waits handler settled errorQueue].
        replace (attempt - attempt)%nat with 0%nat by lia.
        replace (S attempt - attempt)%nat with 1%nat by lia.
        cbn [seq]. rewrite Hone, Hop, !app_nil_r.
        repeat match goal with |- _ ∧ _ => split end;
          try reflexivity; try lia.
        exists error. repeat split. right. exact Hsr.
Qed.

(** A run with [maxRetries >= 0]. *)
Lemma withRetry_nonneg (eh : t) :
  0 ≤ maxRetries →
  let r := withRetry operation maxRetries context clock eh in
  ∃ k, Z.of_nat k ≤ maxRetries
    ∧ ErrorHandler.calls r = S k
    ∧ waits r = seq 0 k
    ∧ (∀ j, (j < k)%nat → fails_retryably operation context clock j)
    ∧ errorQueue (handler r)
      = (errorQueue eh ++ handled_failures operation context clock (seq 0 (S k)))%list
    ∧ match settled r with
      | Fulfilled a => operation k = inl a
      | RejectedWith e =>
          ∃ error, operation k = inr error
            ∧ e = categorizeError error context (clock k)
            ∧ (Z.of_nat k = maxRetries ∨ shouldRetry e = false)
      | RejectedLast _ => False
      end.
Proof.
  intros Hmax. cbn zeta. unfold withRetry.
  replace (Z.to_nat (maxRetries + 1)) with (S (Z.to_nat maxRetries)) by lia.
  destruct (withRetry_loop_run (Z.to_nat maxRetries) 0%nat None eh [])
    as (k & Hk & Hcalls & Hwaits & Hretry & Hqueue & Hsettled); [lia|].
  exists k. rewrite Nat.sub_0_r in Hwaits, Hqueue.
  split; [lia|]. split; [exact Hcalls|]. split; [exact Hwaits|].
  split; [intros j Hj; apply Hretry; lia|]. split; [exact Hqueue|exact Hsettled].
Qed.

(** [withRetry], what a run amounts to. With [maxRetries >= 0] the
    operation is called [k + 1] times for some [k <= maxRetries]: the
    first [k] calls fail with errors the policy accepts, each followed by
    a wait; the last call either succeeds or fails with the classified
    error that is thrown, which is not retryable unless [k = maxRetries].
    Each failed call adds one entry to the diagnostic queue. With a
    negative [maxRetries] the operation is not called at all and the
    promise is rejected with [undefined]. *)
Theorem withRetry_run (eh : t) :
  (0 ≤ maxRetries →
   let r := withRetry operation maxRetries context clock eh in
   ∃ k, Z.of_nat k ≤ maxRetries
     ∧ ErrorHandler.calls r = S k
     ∧ waits r = seq 0 k
     ∧ (∀ j, (j < k)%nat → fails_retryably operation context clock j)
     ∧ errorQueue (handler r)
       = (errorQueue eh ++ handled_failures operation context clock (seq 0 (S k)))%list
     ∧ match settled r with
       | Fulfilled a => operation k = inl a
       | RejectedWith e =>
           ∃ error, operation k = inr error
             ∧ e = categorizeError error context (clock k)
             ∧ (Z.of_nat k = maxRetries ∨ shouldRetry e = false)
       | RejectedLast _ => False
       end)
  ∧ (maxRetries < 0 →
     withRetry operation maxRetries context clock eh
     = mkRetried (RejectedLast None) eh 0 []).
Proof.
  split; [exact (withRetry_nonneg eh)|].
  intros Hneg. unfold withRetry.
  replace (Z.to_nat (maxRetries + 1)) with 0%nat by lia. reflexivity.
Qed.

(** [withRetry] stops at the first call that succeeds, or that fails
    with an error the policy refuses: if the calls before the [k]-th
    fail retryably and [k <= maxRetries], then a success of the [k]-th
    call is returned, and a failure of it that is not retryable (or is
    the last permitted attempt) is thrown, classified; either way after
    [k + 1] calls and [k] waits. *)
Theorem withRetry_stops_at (eh : t) (k : nat) :
  Z.of_nat k ≤ maxRetries →
  (∀ j, (j < k)%nat → fails_retryably operation context clock j) →
  let r := withRetry operation maxRetries context clock eh in
  (∀ a, operation k = inl a →
     settled r = Fulfilled a ∧ ErrorHandler.calls r = S k ∧ waits r = seq 0 k)
  ∧ (∀ error, operation k = inr error →
       shouldRetry (categorizeError error context (clock k)) = false
       ∨ Z.of_nat k = maxRetries →
       settled r = RejectedWith (categorizeError error context (clock k))
       ∧ ErrorHandler.calls r = S k ∧ waits r = seq 0 k).
Proof.
  intros Hk Hbefore. cbn zeta.
  destruct (withRetry_nonneg eh) as (k' & Hk' & Hcalls & Hwaits & Hretry & _ & Hsettled);
    [lia|].
  assert (∀ error, operation k' = inr error →
            shouldRetry (categorizeError error context (clock k')) = true →
            (k' < k)%nat →
            match settled (withRetry operation maxRetries context clock eh) with
            | Fulfilled _ | RejectedLast _ => False
            | RejectedWith _ => False
            end) as Hcontra.
  { intros error Hop Hsr Hlt.
    destruct (settled _) as [a|e|last]; [congruence| |exact Hsettled].
    destruct Hsettled as (error' & Hop' & -> & [Hmax|Hno]); [lia|].
    assert (error' = error) as -> by congruence. congruence. }
  assert (¬ (k' < k)%nat) as Hge.
  { intros Hlt. destruct (Hbefore k' Hlt) as (error & Hop & Hsr).
    specialize (Hcontra error Hop Hsr Hlt).
    destruct (settled _); exact Hcontra. }
  split.
  - intros a Hop.
    assert (k' = k) as ->.
    { destruct (decide (k < k')%nat) as [Hlt|]; [|lia].
      destruct (Hretry k Hlt) as (error & Hop' & _). congruence. }
    split; [|split; assumption].
    destruct (settled _) as [a'|e|last]; [congruence| |destruct Hsettled].
    destruct Hsettled as (error & Hop' & _). congruence.
  - intros error Hop Hstop.
    assert (k' = k) as ->.
    { destruct (decide (k < k')%nat) as [Hlt|]; [|lia].
      destruct (Hretry k Hlt) as (error' & Hop' & Hsr).
      assert (error' = error) as -> by congruence.
      destruct Hstop as [Hno|Hmax]; [congruence|lia]. }
    split; [|split; assumption].
    destruct (settled _) as [a'|e|last]; [congruence| |destruct Hsettled].
    destruct Hsettled as (error' & Hop' & -> & _). congruence.
Qed.

End WithRetryProperties.

Lemma withRetry_run_witness :
  let r := withRetry flaky_operation 3 some_context (fun _ => 0) empty in
  ∃ k, Z.of_nat k ≤ 3
    ∧ ErrorHandler.calls r = S k
    ∧ waits r = seq 0 k
    ∧ (∀ j, (j < k)%nat → fails_retryably flaky_operation some_context (fun _ => 0) j)
    ∧ errorQueue (handler r)
      = (errorQueue empty
         ++ handled_failures flaky_operation some_context (fun _ => 0) (seq 0 (S k)))%list
    ∧ match settled r with
      | Fulfilled a => flaky_operation k = inl a
      | RejectedWith e =>
          ∃ error, flaky_operation k = inr error
            ∧ e = categorizeError error some_context 0
            ∧ (Z.of_nat k = 3 ∨ shouldRetry e = false)
      | RejectedLast _ => False
      end.
Proof.
  apply (proj1 (withRetry_run flaky_operation 3 some_context (fun _ => 0) empty)).
  lia.
Defined.

Lemma withRetry_stops_at_witness :
  let r := withRetry flaky_operation 3 some_context (fun _ => 0) empty in
  settled r = Fulfilled "saved" ∧ ErrorHandler.calls r = 4%nat ∧ waits r = [0; 1; 2]%nat.
Proof.
  apply (proj1 (withRetry_stops_at flaky_operation 3 some_context (fun _ => 0)
                  empty 3%nat ltac:(lia)
                  ltac:(intros j Hj; exists {| raw_code := Some "NETWORK_ERROR";
                                                raw_message := Some "Network request failed" |};
                        destruct j as [|[|[|j]]]; [split; reflexivity..|lia]))
           "saved").
  reflexivity.
Defined.


End ErrorHandlerMore.

(** ** Entity store: round trips, failures, what is written *)

Section BaseServiceMore.
Import Firestore BaseService.
Context {T : Type} `{BaseEntity T}.

Lemma exists_run (id : string) (w : World T) :
  exists_ id w =
    match script w (calls w) with
    | Throws e => (Returned false, tick w)
    | Succeeds => (Returned (bool_decide (is_Some (docs w !! id))), tick w)
    end.
Proof.
  unfold exists_, getDoc.
  unfold mbind, prov_bind, mret, prov_ret, bind, ret, try_catch, call, get_docs.
  cbn beta iota zeta.
  destruct (script w (calls w)); reflexivity.
Qed.

Lemma count_run (options : gmap string T → list (string * T)) (w : World T) :
  count options w =
    match script w (calls w) with
    | Throws e => (Returned 0%nat, tick w)
    | Succeeds => (Returned (length (options (docs w))), tick w)
    end.
Proof.
  unfold count. unfold try_catch, mbind at 1, prov_bind at 1, bind at 1.
  rewrite query_run.
  destruct (script w (calls w)); [|reflexivity].
  cbn. f_equal. f_equal.
  induction (options (docs w)) as [|[id x] l IH]; [reflexivity|].
  cbn. unfold docToEntity at 1. cbn. f_equal. exact IH.
Qed.

(** A created entity can be read back: with a healthy provider,
    [create] stores the data under the identifier the provider
    generated, stamped with the server time, and [getById] on that
    identifier returns the very entity [create] returned. *)
Theorem create_then_getById (entityData : T) (w : World T) :
  no_faults w →
  let id := autoId w (calls w) in
  let entity := with_id id (with_updatedAt (serverNow w)
                              (with_createdAt (serverNow w) entityData)) in
  let created := create entityData w in
  created.1 = Returned (succeeded (Some entity))
  ∧ (getById id created.2).1 = Returned (succeeded (Some entity))
  ∧ docs (getById id created.2).2 = docs created.2.
Proof.
  intros Hn. cbn zeta. rewrite create_run, (Hn (calls w)), (Hn (S (calls w))).
  cbn zeta. cbn [fst snd]. rewrite getById_run.
  cbn [tick with_docs script calls docs].
  rewrite (Hn (S (S (calls w)))), lookup_insert_eq. auto.
Qed.

(** [create] and [update] are not atomic with their read-back: when the
    write goes through and the following [getDoc] fails, the caller gets
    a failure response although the document has been written. *)
Theorem write_survives_failed_readback (entityData : T) (id : string)
    (updates : Partial) (old : T) (e : RawError) (w : World T) :
  script w (calls w) = Succeeds →
  script w (S (calls w)) = Throws e →
  (let out := create entityData w in
   out.1 = Returned (failed e)
   ∧ docs out.2 !! autoId w (calls w)
     = Some (with_updatedAt (serverNow w) (with_createdAt (serverNow w) entityData)))
  ∧ (docs w !! id = Some old →
     let out := update id updates w in
     out.1 = Returned (failed e)
     ∧ docs out.2 !! id = Some (entityToDoc updates (serverNow w) old)).
Proof.
  intros H0 H1. split.
  - cbn zeta. rewrite create_run, H0, H1. cbn. rewrite lookup_insert_eq. auto.
  - intros Hold. cbn zeta. rewrite update_run, H0, Hold, H1. cbn.
    rewrite lookup_insert_eq. auto.
Qed.

(** [update] only ever rewrites the document it names: whatever the
    provider does, every other document is as before and no identifier
    is added or removed; on an identifier that is not stored it answers
    with the provider's "not found" failure and writes nothing. *)
Theorem update_touches_one (id : string) (updates : Partial) (w : World T) :
  let out := update id updates w in
  (∀ id', id' ≠ id → docs out.2 !! id' = docs w !! id')
  ∧ (∀ id', is_Some (docs out.2 !! id') ↔ is_Some (docs w !! id'))
  ∧ (docs w !! id = None →
     docs out.2 = docs w
     ∧ (script w (calls w) = Succeeds → out.1 = Returned (failed not_found))).
Proof.
  cbn zeta.
  destruct (update_effect id updates w) as [_ [Hsame|(old & Hold & Hnew)]].
  - rewrite Hsame. split; [reflexivity|]. split; [reflexivity|].
    intros Hnone. split; [reflexivity|]. intros H0.
    rewrite update_run, H0, Hnone. reflexivity.
  - rewrite Hnew. split; [|split].
    + intros id' Hne. apply lookup_insert_ne. congruence.
    + intros id'. destruct (decide (id' = id)) as [->|Hne].
      * rewrite lookup_insert_eq, Hold. split; eauto.
      * rewrite lookup_insert_ne by congruence. reflexivity.
    + intros Hnone. congruence.
Qed.

(** [delete]: with a healthy provider the document is gone afterwards
    ([getById] answers "Document not found"), the other documents stay,
    and deleting an identifier that is not stored succeeds and changes
    nothing; when the provider fails, nothing is deleted. *)
Theorem delete_then_getById (id : string) (w : World T) :
  (no_faults w →
   let out := BaseService.delete id w in
   out.1 = Returned (succeeded None)
   ∧ (getById id out.2).1 = Returned document_not_found
   ∧ (∀ id', id' ≠ id → docs out.2 !! id' = docs w !! id')
   ∧ (docs w !! id = None → docs out.2 = docs w))
  ∧ (∀ e, script w (calls w) = Throws e →
       BaseService.delete id w = (Returned (failed e), tick w)).
Proof.
  split.
  - intros Hn. cbn zeta. rewrite delete_run, (Hn (calls w)). cbn [fst snd].
    rewrite getById_run. cbn [tick with_docs script calls docs].
    rewrite (Hn (S (calls w))), lookup_delete_eq.
    split; [reflexivity|]. split; [reflexivity|]. split.
    + intros id' Hne. apply lookup_delete_ne. congruence.
    + intros Hnone. apply delete_id. exact Hnone.
  - intros e He. rewrite delete_run, He. reflexivity.
Qed.

(** Reading never writes, and the two probes hide provider failures:
    [getById], [query], [exists] and [count] leave the collection as it
    is whatever the provider does; [exists] answers whether the document
    is stored and [count] the size of the query's result, but when the
    provider fails they answer [false] and [0]. *)
Theorem reads_do_not_write (id : string)
    (options : gmap string T → list (string * T)) (w : World T) :
  docs (getById id w).2 = docs w
  ∧ docs (query options w).2 = docs w
  ∧ docs (exists_ id w).2 = docs w
  ∧ docs (count options w).2 = docs w
  ∧ (script w (calls w) = Succeeds →
     (exists_ id w).1 = Returned (bool_decide (is_Some (docs w !! id)))
     ∧ (count options w).1 = Returned (length (options (docs w))))
  ∧ (∀ e, script w (calls w) = Throws e →
       (exists_ id w).1 = Returned false ∧ (count options w).1 = Returned 0%nat).
Proof.
  rewrite getById_run, query_run, exists_run, count_run.
  destruct (script w (calls w)) eqn:H0.
  - destruct (docs w !! id); repeat split; try reflexivity; intros; discriminate.
  - repeat split; try reflexivity; intros; discriminate.
Qed.

End BaseServiceMore.

(** ** Request service: queries, statistics, invariants *)

Section RequestServiceMore.
Import Firestore RequestService.
Local Open Scope Z_scope.
Variable evalQuery : QueryOptions → gmap string Request → list (string * Request).

Lemma omap_docToEntity (snapshot : list (string * Request)) :
  omap BaseService.docToEntity ((fun '(id, x) => (id, Some x)) <$> snapshot)
  = snapshot_entities snapshot.
Proof.
  unfold snapshot_entities.
  induction snapshot as [|[id x] l IH]; [reflexivity|].
  cbn. unfold BaseService.docToEntity at 1. cbn. f_equal. exact IH.
Qed.

Lemma getRequestsForParentApproval_run parent familyId (w : World Request) :
  getRequestsForParentApproval evalQuery parent familyId w =
    match script w (calls w) with
    | Throws e => (Returned (failed e), tick w)
    | Succeeds =>
        (Returned
           (succeeded
              (Some (List.filter (undecided_by parent)
                       (snapshot_entities
                          (evalQuery (parent_approval_query familyId) (docs w)))))),
         tick w)
    end.
Proof.
  unfold getRequestsForParentApproval.
  unfold mbind at 1, prov_bind at 1, bind at 1.
  rewrite query_run.
  destruct (script w (calls w)); [|reflexivity].
  rewrite omap_docToEntity. reflexivity.
Qed.

(** [getRequestsForParentApproval] answers with the provider's snapshot
    for its query, in the provider's order, less the requests on which
    the parent has already recorded a decision: no request of the answer
    carries an approval by that parent. Nothing is written. *)
Theorem parent_approval_list (parent : string) (familyId : option string)
    (w : World Request) :
  let out := getRequestsForParentApproval evalQuery parent familyId w in
  ∃ resp, out.1 = Returned resp
    ∧ docs out.2 = docs w
    ∧ ∀ l, data resp = Some l →
        l = List.filter (undecided_by parent)
              (snapshot_entities (evalQuery (parent_approval_query familyId) (docs w)))
        ∧ ∀ request approval,
            In request l → In approval (approvals request) →
            parentId approval ≠ parent.
Proof.
  cbn zeta. rewrite getRequestsForParentApproval_run.
  destruct (script w (calls w)).
  - eexists. split; [reflexivity|]. split; [reflexivity|].
    intros l [= <-]. split; [reflexivity|].
    intros request approval Hin Ha Heq.
    apply filter_In in Hin as [_ Hund]. unfold undecided_by in Hund.
    apply negb_true_iff in Hund.
    assert (existsb (fun a => String.eqb (parentId a) parent) (approvals request) = true)
      as Hex; [|congruence].
    apply existsb_exists. exists approval. split; [exact Ha|].
    apply String.eqb_eq. exact Heq.
  - eexists. split; [reflexivity|]. split; [reflexivity|]. intros l [=].
Qed.

Lemma bump_sum ty counts :
  sum_list (snd <$> bump ty counts) = S (sum_list (snd <$> counts)).
Proof.
  induction counts as [|[k n] counts IH]; [reflexivity|].
  cbn. destruct (decide (k = ty)); cbn; [reflexivity|]. rewrite IH. lia.
Qed.

Lemma bump_keys ty counts :
  fst <$> bump ty counts
  = if bool_decide (ty ∈ fst <$> counts) then fst <$> counts
    else ((fst <$> counts) ++ [ty])%list.
Proof.
  induction counts as [|[k n] counts IH]; [reflexivity|].
  cbn. destruct (decide (k = ty)) as [->|Hne]; cbn.
  - rewrite bool_decide_eq_true_2 by apply list_elem_of_here. reflexivity.
  - rewrite IH. destruct (bool_decide_reflect (ty ∈ fst <$> counts)) as [Hin|Hout].
    + rewrite bool_decide_eq_true_2 by (apply list_elem_of_further; exact Hin).
      reflexivity.
    + rewrite bool_decide_eq_false_2; [reflexivity|].
      intros Hin. apply elem_of_cons in Hin as [->|Hin]; contradiction.
Qed.

Lemma bump_NoDup ty counts :
  NoDup (fst <$> counts) → NoDup (fst <$> bump ty counts).
Proof.
  intros Hnd. rewrite bump_keys.
  destruct (bool_decide_reflect (ty ∈ fst <$> counts)) as [Hin|Hout]; [exact Hnd|].
  apply NoDup_app. split; [exact Hnd|]. split; [|apply NoDup_singleton].
  intros x Hx Hx'. apply list_elem_of_singleton in Hx'. subst x. contradiction.
Qed.

(** The invariants of the [reduce], over any accumulator. *)
Lemma count_requests_fold (l : list Request) (acc : RequestStats) :
  let st := foldl count_request acc l in
  total st = (total acc + length l)%nat
  ∧ stat_pending st = (stat_pending acc + with_status pending l)%nat
  ∧ stat_approved st = (stat_approved acc + with_status approved l)%nat
  ∧ stat_denied st = (stat_denied acc + with_status denied l)%nat
  ∧ stat_expired st = (stat_expired acc + with_status expired l)%nat
  ∧ sum_list (snd <$> byType st) = (sum_list (snd <$> byType acc) + length l)%nat
  ∧ (NoDup (fst <$> byType acc) → NoDup (fst <$> byType st)).
Proof.
  revert acc. induction l as [|r l IH]; intros acc; cbn zeta.
  - cbn. unfold with_status. cbn. repeat split; try lia. auto.
  - cbn [foldl].
    destruct (IH (count_request acc r)) as (Ht & Hp & Ha & Hd & He & Hs & Hn).
    rewrite Ht, Hp, Ha, Hd, He, Hs. clear Ht Hp Ha Hd He Hs.
    unfold with_status in *. cbn [List.filter length].
    unfold count_request at 1 2 3 4 5 6.
    destruct (status r) eqn:Hst; cbn; rewrite bump_sum;
      repeat match goal with |- _ ∧ _ => split end;
      try lia;
      try (case_bool_decide; first [congruence|cbn [length]; lia]);
      intros Hnd; apply Hn; unfold count_request; rewrite Hst; cbn;
      apply bump_NoDup; exact Hnd.
Qed.

Lemma getFamilyRequestStats_run familyId (w : World Request) :
  getFamilyRequestStats evalQuery familyId w =
    match script w (calls w) with
    | Throws e => (Returned no_stats, tick w)
    | Succeeds =>
        (Returned
           (foldl count_request no_stats
              (snapshot_entities (evalQuery (family_query familyId) (docs w)))),
         tick w)
    end.
Proof.
  unfold getFamilyRequestStats, getRequestsByFamily.
  unfold mbind at 1, prov_bind at 1, bind at 1.
  rewrite query_run.
  destruct (script w (calls w)); [|reflexivity].
  rewrite omap_docToEntity. reflexivity.
Qed.

(** [getFamilyRequestStats] never throws and writes nothing. Its counts
    add up: the total is the number of requests in the provider's
    snapshot, each status count is the number of those with that status
    (so the four sum to the total), and the per-type counts, one entry
    per type met, sum to the total as well. When the provider fails all
    counts are zero. *)
Theorem family_stats_add_up (familyId : string) (w : World Request) :
  let out := getFamilyRequestStats evalQuery familyId w in
  ∃ st, out.1 = Returned st
    ∧ docs out.2 = docs w
    ∧ total st
      = (stat_pending st + stat_approved st + stat_denied st + stat_expired st)%nat
    ∧ sum_list (snd <$> byType st) = total st
    ∧ NoDup (fst <$> byType st)
    ∧ (script w (calls w) = Succeeds →
       let l := snapshot_entities (evalQuery (family_query familyId) (docs w)) in
       total st = length l
       ∧ stat_pending st = with_status pending l
       ∧ stat_approved st = with_status approved l
       ∧ stat_denied st = with_status denied l
       ∧ stat_expired st = with_status expired l)
    ∧ (∀ e, script w (calls w) = Throws e → st = no_stats).
Proof.
  cbn zeta. rewrite getFamilyRequestStats_run.
  destruct (script w (calls w)) eqn:H0.
  - set (l := snapshot_entities _).
    destruct (count_requests_fold l no_stats) as (Ht & Hp & Ha & Hd & He & Hs & Hn).
    cbn in Ht, Hp, Ha, Hd, He, Hs.
    eexists. split; [reflexivity|]. split; [reflexivity|].
    assert (length l = (with_status pending l + with_status approved l
                        + with_status denied l + with_status expired l)%nat) as Hsplit.
    { unfold with_status. clear. induction l as [|r l IH]; [reflexivity|].
      cbn [List.filter length].
      destruct (status r); repeat case_bool_decide; try congruence;
        cbn [length]; lia. }
    split; [lia|]. split; [lia|]. split; [apply Hn; constructor|].
    split; [intros _; cbn zeta; repeat split; assumption|].
    intros e [=].
  - exists no_stats. split; [reflexivity|]. split; [reflexivity|].
    split; [reflexivity|]. split; [reflexivity|]. split; [constructor|].
    split; [intros [=]|reflexivity].
Qed.

End RequestServiceMore.

Section RequestInvariants.
Import Firestore RequestService.
Local Open Scope Z_scope.

(** The parts after the read, for any response and any collection. *)
Lemma decide_request_resume_any d (resp : ApiResponse Request) requestId parentId
    reason now (w' : World Request) :
  decide_request_resume d resp requestId parentId reason now w'
  = match data resp with
    | Some request_data =>
        if negb (success resp) then (Returned resp, w')
        else BaseService.update requestId
               (decision_update d parentId reason now request_data) w'
    | None => (Returned resp, w')
    end.
Proof.
  destruct d;
    (unfold decide_request_resume, approveRequest_resume, denyRequest_resume;
     destruct (data resp); [destruct (negb (success resp))|]; reflexivity).
Qed.

Lemma checkRequestExpiry_resume_run requestId now r (w' : World Request) :
  checkRequestExpiry_resume (found requestId r) requestId now w'
  = if lt_Date (expiresAt r) now && bool_decide (status r = pending)
    then BaseService.update requestId
           (mkPartial None None None None None None None
              (Some expired) None None None None) w'
    else (Returned (found requestId r), w').
Proof.
  unfold checkRequestExpiry_resume. cbn. destruct (_ && _); reflexivity.
Qed.

Lemma checkRequestExpiry_resume_effect requestId now r (w' : World Request) :
  let out := checkRequestExpiry_resume (found requestId r) requestId now w' in
  (∃ resp, out.1 = Returned resp)
  ∧ (docs out.2 = docs w'
     ∨ ∃ r', docs w' !! requestId = Some r'
            ∧ status r = pending ∧ lt_Date (expiresAt r) now = true
            ∧ docs out.2 = <[requestId := lapsed (serverNow w') r']> (docs w')).
Proof.
  cbn zeta. rewrite checkRequestExpiry_resume_run.
  destruct (lt_Date (expiresAt r) now) eqn:Hlt; cbn [andb]; [|eauto].
  destruct (bool_decide_reflect (status r = pending)) as [Hp|Hp]; [|eauto].
  destruct (@update_effect Request Request_entity requestId
              (mkPartial None None None None None None None (Some expired)
                 None None None None) w') as [Hret [Hsame|(old & Hold & Hnew)]].
  - split; [exact Hret|]. left. exact Hsame.
  - split; [exact Hret|]. right. exists old. auto.
Qed.

Lemma checkRequestExpiry_effect_any requestId now (w : World Request) :
  let out := checkRequestExpiry requestId now w in
  (∃ resp, out.1 = Returned resp)
  ∧ (docs out.2 = docs w
     ∨ ∃ r, docs w !! requestId = Some r ∧ status r = pending
            ∧ lt_Date (expiresAt r) now = true
            ∧ docs out.2 = <[requestId := lapsed (serverNow w) r]> (docs w)).
Proof.
  cbn zeta. destruct (docs w !! requestId) as [r|] eqn:Hr.
  - destruct (checkRequestExpiry_effect requestId now w r Hr)
      as [Hret [Hsame|(Hp & Hlt & Hnew)]]; (split; [exact Hret|]); [left|right];
      [exact Hsame|exists r; auto].
  - rewrite checkRequestExpiry_run, Hr.
    destruct (script w (calls w)); eauto.
Qed.

(** Approvals when reads and writes of several calls interleave. A
    decision writes the approvals it read, with its own at the end, over
    whatever is stored when it resumes: if nothing changed them since
    the read they grow by that one entry, but approvals recorded in
    between are dropped once the provider accepts the write (which takes
    a reason to be given). The expiry
    check leaves the approvals alone. Neither changes who asked for
    what, the expiry, or any other request. *)
Theorem decision_overwrites_approvals (requestId : string) (r r' : Request)
    (w' : World Request) :
  docs w' !! requestId = Some r' →
  (∀ d parentId reason now,
     let new := mkApproval parentId d reason now in
     let out := decide_request_resume d (found requestId r) requestId parentId
                  reason now w' in
     ∃ r'', docs out.2 !! requestId = Some r''
       ∧ (approvals r'' = approvals r'
          ∨ approvals r'' = (approvals r ++ [new])%list)
       ∧ (is_Some reason → script w' (calls w') = Succeeds →
          approvals r'' = (approvals r ++ [new])%list)
       ∧ same_core r' r'' ∧ expiresAt r'' = expiresAt r'
       ∧ ∀ id', id' ≠ requestId → docs out.2 !! id' = docs w' !! id')
  ∧ (∀ now,
       let out := checkRequestExpiry_resume (found requestId r) requestId now w' in
       ∃ r'', docs out.2 !! requestId = Some r''
         ∧ approvals r'' = approvals r'
         ∧ same_core r' r'' ∧ expiresAt r'' = expiresAt r'
         ∧ ∀ id', id' ≠ requestId → docs out.2 !! id' = docs w' !! id').
Proof.
  intros Hr'.
  assert (same_core r' r') as Hcore by (repeat split).
  split.
  - intros d parent reason now. cbn zeta.
    destruct (script w' (calls w')) eqn:H0.
    + rewrite (decide_request_resume_written d requestId parent reason now r r' w'
                 Hr' H0).
      eexists. split; [apply lookup_insert_eq|].
      split; [right; reflexivity|]. split; [reflexivity|].
      split; [repeat split|]. split; [reflexivity|].
      intros id' Hne. apply lookup_insert_ne. congruence.
    + rewrite decide_request_resume_run, update_run, H0. cbn [snd tick docs].
      exists r'. split; [exact Hr'|]. split; [left; reflexivity|].
      split; [intros _; discriminate|]. auto.
  - intros now. cbn zeta.
    destruct (checkRequestExpiry_resume_effect requestId now r w')
      as [_ [Hsame|(r0 & Hr0 & _ & _ & Hnew)]].
    + exists r'. rewrite Hsame. auto 10.
    + assert (r0 = r') as -> by congruence. rewrite Hnew.
      eexists. split; [apply lookup_insert_eq|].
      split; [reflexivity|]. split; [repeat split|].
      split; [reflexivity|]. intros id' Hne. apply lookup_insert_ne. congruence.
Qed.

(** A request that is not stored: deciding on it, checking its expiry or
    extending it writes nothing and answers with the failure of the
    read, "Document not found" when the provider is healthy. *)
Theorem missing_request_untouched (requestId : string) (w : World Request) :
  docs w !! requestId = None →
  let answer : ApiResponse Request :=
    match script w (calls w) with
    | Succeeds => document_not_found
    | Throws e => failed e
    end in
  (∀ d parentId reason now,
     decide_request d requestId parentId reason now w = (Returned answer, tick w))
  ∧ (∀ now, checkRequestExpiry requestId now w = (Returned answer, tick w))
  ∧ (∀ additionalHours,
       extendRequestExpiry requestId additionalHours w = (Returned answer, tick w)).
Proof.
  intros Hnone. cbn zeta. split; [|split]; intros.
  - rewrite decide_request_run, Hnone. destruct (script w (calls w)); reflexivity.
  - rewrite checkRequestExpiry_run, Hnone. destruct (script w (calls w)); reflexivity.
  - rewrite extendRequestExpiry_run, Hnone. destruct (script w (calls w)); reflexivity.
Qed.

Lemma all_consistent_insert (w w' : World Request) id r :
  all_consistent w → consistent r →
  docs w' = <[id := r]> (docs w) → all_consistent w'.
Proof.
  intros Hall Hr Hnew id' r' Hlook. rewrite Hnew in Hlook.
  destruct (decide (id = id')) as [->|Hne].
  - rewrite lookup_insert_eq in Hlook. congruence.
  - rewrite lookup_insert_ne in Hlook by exact Hne. eapply Hall. exact Hlook.
Qed.

Lemma all_consistent_same (w w' : World Request) :
  all_consistent w → docs w' = docs w → all_consistent w'.
Proof. intros Hall Hsame id r Hlook. rewrite Hsame in Hlook. eapply Hall. exact Hlook. Qed.

Lemma status_of_approvals_not_expired (l : list Approval) :
  status_of_approvals l ≠ expired.
Proof. unfold status_of_approvals. repeat case_decide; discriminate. Qed.

Lemma decide_request_resume_consistent d (resp : ApiResponse Request) requestId
    parentId reason now (w : World Request) :
  all_consistent w →
  all_consistent (decide_request_resume d resp requestId parentId reason now w).2.
Proof.
  intros Hall. rewrite decide_request_resume_any.
  destruct (data resp) as [rd|]; [|exact Hall].
  destruct (negb (success resp)); [exact Hall|].
  destruct (@update_effect Request Request_entity requestId
              (decision_update d parentId reason now rd) w)
    as [_ [Hsame|(old & Hold & Hnew)]].
  - eapply all_consistent_same; eassumption.
  - eapply all_consistent_insert; [exact Hall| |exact Hnew].
    rewrite entityToDoc_decision. left. reflexivity.
Qed.

Lemma checkRequestExpiry_resume_consistent requestId now r (w : World Request) :
  all_consistent w →
  docs w !! requestId = Some r →
  all_consistent (checkRequestExpiry_resume (found requestId r) requestId now w).2.
Proof.
  intros Hall Hr.
  destruct (checkRequestExpiry_resume_effect requestId now r w)
    as [_ [Hsame|(r0 & Hr0 & Hp & _ & Hnew)]].
  - eapply all_consistent_same; eassumption.
  - assert (r0 = r) as -> by congruence.
    eapply all_consistent_insert; [exact Hall| |exact Hnew]. right.
    split; [reflexivity|]. cbn.
    destruct (Hall requestId r Hr) as [Hc|[Hc _]]; [|congruence].
    apply status_of_approvals_pending. congruence.
Qed.

Lemma extendRequestExpiry_resume_docs (resp : ApiResponse Request) requestId
    additionalHours (w : World Request) :
  docs (extendRequestExpiry_resume resp requestId additionalHours w).2 = docs w.
Proof.
  unfold extendRequestExpiry_resume.
  destruct (data resp); [destruct (negb (success resp))|]; reflexivity.
Qed.

(** The stored status and the approvals. Say a request is consistent
    when its status is the one its approvals derive, or it is expired
    with no approval. [createRequest], a decision and
    [extendRequestExpiry] keep every stored request consistent, also
    when they resume after other calls have run; the expiry check keeps
    it when the request it read is still the one stored. An expiry
    check that read a pending request and resumes after a decision on it
    has been written leaves the request expired with an approval on
    record: the invariant is lost. *)
Theorem status_consistent_unless_interleaved (w : World Request) :
  all_consistent w →
  (∀ familyId requesterId type target duration reason expiresInHours now,
     all_consistent
       (createRequest familyId requesterId type target duration reason
          expiresInHours now w).2)
  ∧ (∀ d resp requestId parentId reason now,
       all_consistent (decide_request_resume d resp requestId parentId reason now w).2)
  ∧ (∀ resp requestId additionalHours,
       all_consistent (extendRequestExpiry_resume resp requestId additionalHours w).2)
  ∧ (∀ requestId now r,
       docs w !! requestId = Some r →
       all_consistent
         (checkRequestExpiry_resume (found requestId r) requestId now w).2)
  ∧ (∀ d requestId parentId reason now,
       all_consistent (decide_request d requestId parentId reason now w).2)
  ∧ (∀ requestId now, all_consistent (checkRequestExpiry requestId now w).2)
  ∧ (∀ requestId additionalHours,
       all_consistent (extendRequestExpiry requestId additionalHours w).2)
  ∧ (∀ requestId now r r',
       docs w !! requestId = Some r' →
       approvals r' ≠ [] →
       status r = pending →
       lt_Date (expiresAt r) now = true →
       script w (calls w) = Succeeds →
       ¬ all_consistent
           (checkRequestExpiry_resume (found requestId r) requestId now w).2).
Proof.
  intros Hall.
  repeat match goal with |- _ ∧ _ => split end.
  - intros familyId requesterId type target duration reason expiresInHours now.
    unfold createRequest. rewrite create_run.
    destruct (script w (calls w)); [|exact Hall].
    cbn zeta.
    destruct (script w (S (calls w)));
      (eapply all_consistent_insert; [exact Hall| |reflexivity]); left; reflexivity.
  - intros d resp requestId parent reason now.
    apply decide_request_resume_consistent. exact Hall.
  - intros resp requestId additionalHours.
    eapply all_consistent_same; [exact Hall|apply extendRequestExpiry_resume_docs].
  - intros requestId now r Hr.
    apply checkRequestExpiry_resume_consistent; assumption.
  - intros d requestId parent reason now.
    destruct (decide_request_effect d requestId parent reason now w)
      as [_ [Hsame|(r & Hr & Hnew)]].
    + eapply all_consistent_same; eassumption.
    + eapply all_consistent_insert; [exact Hall| |exact Hnew]. left. reflexivity.
  - intros requestId now.
    destruct (checkRequestExpiry_effect_any requestId now w)
      as [_ [Hsame|(r & Hr & Hp & _ & Hnew)]].
    + eapply all_consistent_same; eassumption.
    + eapply all_consistent_insert; [exact Hall| |exact Hnew]. right.
      split; [reflexivity|]. cbn.
      destruct (Hall requestId r Hr) as [Hc|[Hc _]]; [|congruence].
      apply status_of_approvals_pending. congruence.
  - intros requestId additionalHours.
    eapply all_consistent_same; [exact Hall|].
    rewrite extendRequestExpiry_run.
    destruct (script w (calls w)); [|reflexivity].
    destruct (docs w !! requestId); reflexivity.
  - intros requestId now r r' Hr' Hne Hp Hlt H0 Hafter.
    rewrite checkRequestExpiry_resume_run, Hlt, (bool_decide_eq_true_2 _ Hp) in Hafter.
    cbn [andb] in Hafter. rewrite update_run, H0, Hr' in Hafter. cbn zeta in Hafter.
    assert (consistent (lapsed (serverNow w) r')) as [Hc|[_ Hc]].
    { apply (Hafter requestId).
      destruct (script w (S (calls w))); apply lookup_insert_eq. }
    + cbn in Hc. symmetry in Hc. exact (status_of_approvals_not_expired _ Hc).
    + exact (Hne Hc).
Qed.

(** [extendRequestExpiry] never extends anything. For a request that is
    stored and read, [expiresAt.getTime()] is called on the provider's
    [Timestamp] and throws: the promise is rejected with that
    [TypeError], outside the service's error handling, in whatever state
    the collection is when the method resumes. When the request is not
    stored or the read fails, the failure response of the read is
    returned. In no case is anything written or a successful response
    returned. *)
Theorem extendRequestExpiry_never_extends (requestId : string) (additionalHours : Z)
    (w : World Request) :
  let out := extendRequestExpiry requestId additionalHours w in
  docs out.2 = docs w
  ∧ (∀ resp, out.1 = Returned resp → success resp = false ∧ data resp = None)
  ∧ (∀ r, docs w !! requestId = Some r → script w (calls w) = Succeeds →
       out.1 = Threw getTime_is_not_a_function)
  ∧ (docs w !! requestId = None → script w (calls w) = Succeeds →
       out.1 = Returned document_not_found)
  ∧ (∀ r (w' : World Request),
       extendRequestExpiry_resume (found requestId r) requestId additionalHours w'
       = (Threw getTime_is_not_a_function, w')).
Proof.
  cbn zeta. rewrite extendRequestExpiry_run.
  repeat match goal with |- _ ∧ _ => split end.
  - destruct (script w (calls w)); [|reflexivity].
    destruct (docs w !! requestId); reflexivity.
  - intros resp.
    destruct (script w (calls w)); [|intros [= <-]; auto].
    destruct (docs w !! requestId); [discriminate|intros [= <-]; auto].
  - intros r Hr H0. rewrite H0, Hr. reflexivity.
  - intros Hr H0. rewrite H0, Hr. reflexivity.
  - intros r w'. reflexivity.
Qed.

End RequestInvariants.

(** ** Offline manager: network reports, direct calls, queue invariants *)

Section OfflineManagerMore.
Import OfflineManager.
Local Open Scope Z_scope.

(** A network report: the manager is offline unless the report says
    both connected and reachable ([null] counts as not); the reconnect
    hook is started exactly on a flip from offline to online and the
    disconnect hook exactly on a flip from online to offline; the report
    itself never queues, removes or calls an operation. *)
Theorem network_report_edges (state : NetInfoState) (s : t) :
  let s' := handleNetworkStateChange state s in
  isOffline s'
  = negb (bool_decide (ni_isConnected state = Some true)
          && bool_decide (ni_isInternetReachable state = Some true))
  ∧ onlineTransitions s'
    = (onlineTransitions s
       + if isOffline s && negb (isOffline s') then 1 else 0)%nat
  ∧ offlineTransitions s'
    = (offlineTransitions s
       + if negb (isOffline s) && isOffline s' then 1 else 0)%nat
  ∧ same_store s s' ∧ same_drains s s'
  ∧ invocations s' = invocations s ∧ promises s' = promises s.
Proof.
  cbn zeta. unfold handleNetworkStateChange, isOffline,
    handleOnlineTransition, handleOfflineTransition.
  destruct state as [[[]|] [[]|] ty], (isOfflineMode (offlineState s)); cbn;
    repeat split; lia.
Qed.

Lemma delete_last_appended {X} (l : list X) (x : X) :
  base.delete (length l) (l ++ [x])%list = l.
Proof.
  induction l as [|y l IH]; [reflexivity|]. cbn. f_equal. exact IH.
Qed.

(** A call made while online, followed to the end of its [await]: if
    the operation succeeds, or fails with an error that is not
    network-related (or queueing is switched off), the manager is exactly
    as before the call and the failure is thrown as it came, never
    passed through the error handler; if it fails with a network-related
    error (by default) the operation is queued instead, with no retries
    counted, and the caller is left with a pending promise. *)
Theorem online_call_outcomes (operation : Thunk) (context : ErrorContext)
    (options : Options) (rnd rnd' : string) (s : t) :
  isOffline s = false →
  let started := executeWithOfflineSupport operation context options rnd s in
  let k := length (directCalls s) in
  started.2 = Awaiting k
  ∧ executeWithOfflineSupport_resume k None rnd' started.1 = Some (s, Completed)
  ∧ ∀ error,
      if default true (queueOnOffline options) && isNetworkError error then
        ∃ s', executeWithOfflineSupport_resume k (Some error) rnd' started.1
              = Some (s', Queued (length (promises s)))
          ∧ operationQueue s' = (operationQueue s ++ [length (heap s)])%list
          ∧ heap s' !! length (heap s)
            = Some (mkOfflineOperation
                      ("op_" +:+ pretty (clock s) +:+ "_" +:+ rnd')
                      operation context (clock s) 0
                      (default 3 (opt_maxRetries options)))
          ∧ promises s' = (promises s ++ [Pending])%list
          ∧ errors s' = errors s
      else
        executeWithOfflineSupport_resume k (Some error) rnd' started.1
        = Some (s, ThrownRaw error).
Proof.
  unfold isOffline. intros Hon. cbn zeta.
  unfold executeWithOfflineSupport. rewrite Hon. cbn [negb fst snd].
  split; [reflexivity|].
  unfold executeWithOfflineSupport_resume.
  cbn [directCalls set_directCalls].
  rewrite list_lookup_middle by reflexivity. cbn [mbind option_bind].
  assert (set_directCalls
            (base.delete (length (directCalls s))
               (directCalls s
                ++ [mkDirectCall operation context
                      (default true (queueOnOffline options))
                      (default 3 (opt_maxRetries options))])%list)
            (set_directCalls
               (directCalls s
                ++ [mkDirectCall operation context
                      (default true (queueOnOffline options))
                      (default 3 (opt_maxRetries options))])%list s) = s) as Hback.
  { rewrite delete_last_appended. destruct s. reflexivity. }
  split.
  - rewrite delete_last_appended. destruct s. reflexivity.
  - intros error. cbn [dc_queueOnOffline dc_operation dc_context dc_maxRetries].
    destruct (default true (queueOnOffline options) && isNetworkError error).
    + rewrite Hback. eexists. split; [reflexivity|]. cbn.
      repeat split. apply list_lookup_middle. reflexivity.
    + rewrite Hback. reflexivity.
Qed.

(** *** What a finished drain leaves in the queue *)

Ltac unchanged :=
  unfold same_drains, same_store; cbn; repeat (case_match; cbn);
  repeat split; reflexivity.

Lemma In_list_insert {X} (l : list X) (j : nat) (x y : X) :
  In y (<[j := x]> l) → y = x ∨ In y l.
Proof.
  revert j. induction l as [|z l IH]; intros j; [intros []|].
  destruct j as [|j]; cbn.
  - intros [<-|Hin]; auto.
  - intros [<-|Hin]; [auto|]. destruct (IH j Hin); auto.
Qed.

Lemma drains_fulfilled_same s s' :
  same_drains s s' → drains_fulfilled s → drains_fulfilled s'.
Proof. intros [Hd _] Hinv d dr. rewrite Hd. apply Hinv. Qed.

Lemma processOperationQueue_fulfilled s :
  drains_fulfilled s → drains_fulfilled (processOperationQueue s).
Proof.
  intros Hinv. unfold processOperationQueue.
  destruct (isProcessingQueue s || _); [exact Hinv|].
  match goal with
  | |- context [foldl ?f ?s0 ?l] =>
      destruct (foldl_executeQueuedOperation_same l s0) as [Hd _]
  end.
  intros d dr. unfold set_drains; cbn [drains]. rewrite Hd. cbn [drains set_isProcessingQueue].
  intros Hlook. apply lookup_app_Some in Hlook as [Hold|[_ Hnew]].
  - eapply Hinv. exact Hold.
  - apply list_lookup_singleton_Some in Hnew as [_ <-]. cbn.
    split; [apply length_replicate|].
    intros res Hin. left. apply list_elem_of_In in Hin.
    eapply elem_of_replicate_inv. exact Hin.
Qed.

Lemma drainOperation_resume_fulfilled d j ok s s' :
  drains_fulfilled s → drainOperation_resume d j ok s = Some s' → drains_fulfilled s'.
Proof.
  intros Hinv. unfold drainOperation_resume.
  destruct (drains s !! d) as [dr|] eqn:Hd; [cbn|discriminate].
  destruct (operations dr !! j) as [r|]; [cbn|discriminate].
  destruct (results dr !! j) as [[st|]|]; cbn; try discriminate.
  pose proof (executeQueuedOperation_resume_same r ok s) as [Hd' _].
  pose proof (executeQueuedOperation_resume_fulfilled r ok s) as Hst.
  destruct (executeQueuedOperation_resume r ok s) as [s1 st]. cbn in Hd', Hst.
  subst st. intros [= <-]. intros d' dr'. cbn. rewrite Hd'.
  intros Hlook. apply list_lookup_insert_Some in Hlook as [(<- & <- & _)|(_ & Hold)].
  - destruct (Hinv d dr Hd) as [Hlen Hres]. cbn.
    split; [rewrite length_insert; exact Hlen|].
    intros res Hin. apply In_list_insert in Hin as [->|Hin]; [auto|]. apply Hres. exact Hin.
  - eapply Hinv. exact Hold.
Qed.

Lemma step_fulfilled s e s' :
  single_flight s → drains_fulfilled s → step s e = Some s' → drains_fulfilled s'.
Proof.
  intros Hsf Hinv. destruct e; cbn [step].
  - intros [= <-]. eapply drains_fulfilled_same; [|exact Hinv].
    unfold handleNetworkStateChange, handleOnlineTransition, handleOfflineTransition.
    unchanged.
  - unfold handleOnlineTransition_resume.
    destruct (onlineTransitions s) as [|n]; [discriminate|].
    assert (drains_fulfilled (processOperationQueue (set_onlineTransitions n s))) as Hp
      by (apply processOperationQueue_fulfilled; exact Hinv).
    destruct ok; [destruct (_ || _)|]; intros [= <-]; [exact Hp|exact Hp|exact Hinv].
  - unfold handleOfflineTransition_resume.
    destruct (offlineTransitions s); [discriminate|].
    destruct ok; intros [= <-]; exact Hinv.
  - intros [= <-]. eapply drains_fulfilled_same; [|exact Hinv].
    apply executeWithOfflineSupport_same.
  - destruct (executeWithOfflineSupport_resume k outcome rnd s) as [[s1 res]|] eqn:He;
      [|discriminate].
    intros [= <-]. eapply drains_fulfilled_same; [|exact Hinv].
    eapply executeWithOfflineSupport_resume_same; exact He.
  - apply drainOperation_resume_fulfilled; exact Hinv.
  - intros Hres.
    destruct (processOperationQueue_resume_single_flight d s s' Hsf Hres) as [_ Hempty].
    assert (isProcessingQueue s' = false) as Hflag.
    { revert Hres. unfold processOperationQueue_resume.
      destruct (drains s !! d); [cbn|discriminate].
      destruct (forallb _ _); [|discriminate]. intros [= <-]. reflexivity. }
    intros d' dr'. rewrite (Hempty Hflag). intros [=].
  - intros Hr. eapply drains_fulfilled_same; [|exact Hinv].
    eapply retry_resume_same; exact Hr.
  - intros Hr. eapply drains_fulfilled_same; [|exact Hinv].
    eapply fireTimer_same; exact Hr.
  - destruct (0 <=? dt); [|discriminate]. intros [= <-]. exact Hinv.
  - intros [= <-]. exact Hinv.
Qed.

Lemma reachable_fulfilled s : reachable s → drains_fulfilled s.
Proof.
  intros [trace Hrun].
  assert (∀ trace s0 s1, single_flight s0 → drains_fulfilled s0 →
            run s0 trace = Some s1 → drains_fulfilled s1) as Hgen.
  { clear. induction trace as [|e trace IH]; intros s0 s1 Hsf Hinv; cbn.
    - intros [= <-]. exact Hinv.
    - destruct (step s0 e) as [s2|] eqn:He; [cbn|discriminate].
      apply IH; [eapply step_single_flight|eapply step_fulfilled]; eassumption. }
  eapply Hgen; [| |exact Hrun].
  - split; [cbn; lia|reflexivity].
  - intros d dr [=].
Qed.

Lemma has_id_heap s s' operationId r :
  heap s' = heap s → has_id s' operationId r = has_id s operationId r.
Proof. unfold has_id. intros ->. reflexivity. Qed.

Lemma removeOperationFromQueue_shrunk operationId s :
  queue_shrunk s (removeOperationFromQueue operationId s).
Proof.
  split; [reflexivity|]. intros r Hin. cbn in Hin.
  apply filter_In in Hin as [Hin _]. exact Hin.
Qed.

Lemma queue_shrunk_trans s1 s2 s3 :
  queue_shrunk s1 s2 → queue_shrunk s2 s3 → queue_shrunk s1 s3.
Proof. intros [Hh1 Hq1] [Hh2 Hq2]. split; [congruence|auto]. Qed.

Lemma queue_shrunk_refl s : queue_shrunk s s.
Proof. split; [reflexivity|auto]. Qed.

Lemma removeCompleted_shrunk ops res s : queue_shrunk s (removeCompleted ops res s).
Proof.
  unfold removeCompleted. generalize (zip res ops). intros l. revert s.
  induction l as [|[result r] l IH]; intros s; cbn; [apply queue_shrunk_refl|].
  eapply queue_shrunk_trans; [|apply IH].
  destruct (bool_decide _); [|apply queue_shrunk_refl].
  destruct (heap s !! r); [apply removeOperationFromQueue_shrunk|apply queue_shrunk_refl].
Qed.

(** Once removed by identifier, an entry stays out while the queue only
    shrinks. *)
Lemma absent_after_shrink s s' operationId :
  queue_shrunk s s' →
  (∀ r, In r (operationQueue s) → has_id s operationId r = false) →
  ∀ r, In r (operationQueue s') → has_id s' operationId r = false.
Proof.
  intros [Hh Hq] Habs r Hin. rewrite (has_id_heap s s' _ _ Hh). apply Habs, Hq, Hin.
Qed.

Lemma removeOperationFromQueue_absent operationId s :
  ∀ r, In r (operationQueue (removeOperationFromQueue operationId s)) →
       has_id (removeOperationFromQueue operationId s) operationId r = false.
Proof.
  intros r Hin. cbn in Hin. apply filter_In in Hin as [_ Hneg].
  apply negb_true_iff in Hneg. exact Hneg.
Qed.

Lemma removeCompleted_absent ops :
  ∀ res s r op,
    length res = length ops →
    (∀ x, In x res → x = Some fulfilled) →
    In r ops → heap s !! r = Some op →
    ∀ r', In r' (operationQueue (removeCompleted ops res s)) →
          has_id (removeCompleted ops res s) (op_id op) r' = false.
Proof.
  induction ops as [|r0 ops IH]; intros res s r op Hlen Hall Hin Hop; [destruct Hin|].
  destruct res as [|x res]; [discriminate Hlen|].
  assert (x = Some fulfilled) as -> by (apply Hall; left; reflexivity).
  unfold removeCompleted. cbn [zip zip_with foldl].
  rewrite bool_decide_eq_true_2 by reflexivity.
  fold (removeCompleted ops res).
  destruct Hin as [->|Hin].
  - rewrite Hop.
    apply (absent_after_shrink (removeOperationFromQueue (op_id op) s)).
    + apply removeCompleted_shrunk.
    + apply removeOperationFromQueue_absent.
  - assert (∀ s0, heap s0 = heap s →
              ∀ r', In r' (operationQueue (removeCompleted ops res s0)) →
                    has_id (removeCompleted ops res s0) (op_id op) r' = false) as Hrest.
    { intros s0 Hh. apply (IH res s0 r op); [cbn in Hlen; lia| |exact Hin|congruence].
      intros y Hy. apply Hall. right. exact Hy. }
    destruct (heap s !! r0); apply Hrest; reflexivity.
Qed.

Lemma find_none_all {X} (f : X → bool) (l : list X) :
  (∀ x, In x l → f x = false) → List.find f l = None.
Proof.
  induction l as [|y l IH]; intros Hall; [reflexivity|]. cbn.
  rewrite (Hall y) by (left; reflexivity). apply IH. intros x Hx. apply Hall. right. exact Hx.
Qed.

Lemma processOperationQueue_resume_store d s s' dr :
  drains s !! d = Some dr →
  processOperationQueue_resume d s = Some s' →
  forallb (fun r => bool_decide (is_Some r)) (results dr) = true
  ∧ same_store (removeCompleted (operations dr) (results dr) s) s'
  ∧ isProcessingQueue s' = false.
Proof.
  intros Hd. unfold processOperationQueue_resume. rewrite Hd. cbn [mbind option_bind].
  destruct (forallb _ _); [|discriminate].
  intros [= <-]. split; [reflexivity|].
  destruct (_ || _); repeat split; reflexivity.
Qed.

(** When a drain resumes, every entry of its snapshot leaves the queue,
    whether its operation succeeded or failed (a failed one with its
    retry still armed): in any reachable state, after the resumption no
    queued entry carries the identifier of a snapshot entry, the guard
    flag is down, and the next poll of that identifier resolves the
    caller's promise. *)
Theorem drain_empties_snapshot (s s' : t) (d : nat) (dr : Drain) :
  reachable s →
  drains s !! d = Some dr →
  processOperationQueue_resume d s = Some s' →
  isProcessingQueue s' = false
  ∧ heap s' = heap s
  ∧ ∀ r op, In r (operations dr) → heap s !! r = Some op →
      queue_find s' (op_id op) = None
      ∧ ∀ p, checkCompletion (op_id op) p s' = resolve p s'.
Proof.
  intros Hreach Hd Hres.
  destruct (reachable_fulfilled s Hreach d dr Hd) as [Hlen Hress].
  destruct (processOperationQueue_resume_store d s s' dr Hd Hres)
    as (Hall & [Hheap Hqueue] & Hflag).
  assert (∀ x, In x (results dr) → x = Some fulfilled) as Hful.
  { intros x Hx. destruct (Hress x Hx) as [->| ->]; [|reflexivity].
    rewrite forallb_forall in Hall. specialize (Hall None Hx).
    apply bool_decide_eq_true_1 in Hall. destruct Hall as [? Heq]. discriminate Heq. }
  destruct (removeCompleted_shrunk (operations dr) (results dr) s) as [Hheap' _].
  split; [exact Hflag|]. split; [congruence|].
  intros r op Hin Hop.
  assert (queue_find s' (op_id op) = None) as Hnone.
  { unfold queue_find. apply find_none_all. intros r' Hr'.
    rewrite Hqueue in Hr'. rewrite (has_id_heap _ s' _ _ Hheap).
    eapply removeCompleted_absent; eassumption. }
  split; [exact Hnone|].
  intros p. unfold checkCompletion. rewrite Hnone. reflexivity.
Qed.

(** *** Queued entries have retries left *)

Lemma retries_left_same s s' : same_store s s' → retries_left s → retries_left s'.
Proof. intros [Hh Hq] [H0 Hl]. unfold retries_left. rewrite Hh, Hq. auto. Qed.

Lemma retries_left_shrunk s s' : queue_shrunk s s' → retries_left s → retries_left s'.
Proof.
  intros [Hh Hq] [H0 Hl]. unfold retries_left. rewrite Hh. split; [exact H0|].
  intros r o Hin. apply Hl, Hq, Hin.
Qed.

Lemma retries_left_queueOperation operation context maxR rnd s :
  retries_left s → retries_left (queueOperation operation context maxR rnd s).1.
Proof.
  intros [H0 Hl]. unfold retries_left. cbn.
  assert (∀ r o,
            (heap s ++ [mkOfflineOperation ("op_" +:+ pretty (clock s) +:+ "_" +:+ rnd)
                          operation context (clock s) 0 maxR])%list !! r = Some o →
            heap s !! r = Some o ∨ retryCount o = 0) as Hcase.
  { intros r o Hlook. apply lookup_app_Some in Hlook as [Hold|[_ Hnew]]; [auto|].
    apply list_lookup_singleton_Some in Hnew as [_ <-]. right. reflexivity. }
  split.
  - intros r o Hlook. destruct (Hcase r o Hlook) as [Hold| ->]; [eapply H0; exact Hold|lia].
  - intros r o Hin Hlook. destruct (Hcase r o Hlook) as [Hold|Hzero]; [|auto].
    apply in_app_or in Hin as [Hin|[<-|[]]].
    + eapply Hl; eassumption.
    + apply lookup_lt_Some in Hold. lia.
Qed.

Lemma retries_left_resume r ok s :
  retries_left s → retries_left (executeQueuedOperation_resume r ok s).1.
Proof.
  intros [H0 Hl]. unfold executeQueuedOperation_resume.
  destruct ok; [split; assumption|].
  destruct (heap s !! r) as [o|] eqn:Ho; [|split; assumption].
  set (o' := mkOfflineOperation (op_id o) (op_operation o) (op_context o)
               (op_timestamp o) (retryCount o + 1) (maxRetries o)).
  cbn zeta.
  assert (∀ r1 o1, <[r := o']> (heap s) !! r1 = Some o1 →
            (r1 = r ∧ o1 = o') ∨ (r1 ≠ r ∧ heap s !! r1 = Some o1)) as Hcase.
  { intros r1 o1 Hlook.
    apply list_lookup_insert_Some in Hlook as [(<- & <- & _)|(Hne & Hold)]; auto. }
  assert (0 ≤ retryCount o) as Hpos by (eapply H0; exact Ho).
  destruct (Z.leb_spec (retryCount o') (maxRetries o')) as [Hle|Hgt].
  - split; cbn.
    + intros r1 o1 Hlook. destruct (Hcase r1 o1 Hlook) as [[_ ->]|[_ Hold]];
        [cbn; lia|eapply H0; exact Hold].
    + intros r1 o1 Hin Hlook. destruct (Hcase r1 o1 Hlook) as [[_ ->]|[_ Hold]];
        [right; exact Hle|eapply Hl; eassumption].
  - split; cbn.
    + intros r1 o1 Hlook. destruct (Hcase r1 o1 Hlook) as [[_ ->]|[_ Hold]];
        [cbn; lia|eapply H0; exact Hold].
    + intros r1 o1 Hin Hlook. apply filter_In in Hin as [Hin Hneg].
      destruct (Hcase r1 o1 Hlook) as [[-> ->]|[_ Hold]]; [|eapply Hl; eassumption].
      apply negb_true_iff in Hneg. unfold has_id in Hneg. cbn in Hneg.
      rewrite Hlook in Hneg. cbn in Hneg. rewrite String.eqb_refl in Hneg. discriminate.
Qed.

Lemma foldl_executeQueuedOperation_store l s :
  same_store s (foldl (fun s r => executeQueuedOperation r s) s l).
Proof.
  revert s. induction l as [|r l IH]; intros s; cbn; [split; reflexivity|].
  destruct (IH (executeQueuedOperation r s)) as [Hh Hq]. split; [exact Hh|exact Hq].
Qed.

Lemma processOperationQueue_store s : same_store s (processOperationQueue s).
Proof.
  unfold processOperationQueue. destruct (_ || _); [split; reflexivity|].
  match goal with
  | |- context [foldl ?f ?s0 ?l] =>
      destruct (foldl_executeQueuedOperation_store l s0) as [Hh Hq]
  end.
  split; unfold set_drains; cbn [heap operationQueue]; [exact Hh|exact Hq].
Qed.

Lemma step_retries_left s e s' :
  retries_left s → step s e = Some s' → retries_left s'.
Proof.
  intros Hinv. destruct e; cbn [step].
  - intros [= <-]. eapply retries_left_same; [|exact Hinv].
    unfold handleNetworkStateChange, handleOnlineTransition, handleOfflineTransition.
    unchanged.
  - unfold handleOnlineTransition_resume.
    destruct (onlineTransitions s) as [|n]; [discriminate|].
    pose proof (processOperationQueue_store (set_onlineTransitions n s)) as [Hh Hq].
    destruct ok; [destruct (_ || _)|]; intros [= <-];
      (eapply retries_left_same; [|exact Hinv]); split; first [exact Hh|exact Hq|reflexivity].
  - unfold handleOfflineTransition_resume.
    destruct (offlineTransitions s); [discriminate|].
    destruct ok; intros [= <-]; exact Hinv.
  - intros [= <-]. unfold executeWithOfflineSupport.
    destruct (negb _); [exact Hinv|].
    destruct (default true _); [|exact Hinv].
    lazymatch goal with
    | |- context [queueOperation ?op ?ctx ?m ?rnd ?s0] =>
        pose proof (retries_left_queueOperation op ctx m rnd s0 Hinv) as Hq
    end.
    destruct (queueOperation _ _ _ _ _). exact Hq.
  - unfold executeWithOfflineSupport_resume.
    destruct (directCalls s !! k) as [dc|]; [cbn [mbind option_bind fmap option_fmap option_map]|discriminate].
    destruct outcome as [error|]; [destruct (_ && _)|].
    + pose proof (retries_left_queueOperation (dc_operation dc) (dc_context dc)
                    (dc_maxRetries dc) rnd
                    (set_directCalls (base.delete k (directCalls s)) s) Hinv) as Hq.
      destruct (queueOperation _ _ _ _ _). intros [= <-]. exact Hq.
    + intros [= <-]. exact Hinv.
    + intros [= <-]. exact Hinv.
  - unfold drainOperation_resume.
    destruct (drains s !! d) as [dr|]; [cbn|discriminate].
    destruct (operations dr !! j) as [r|]; [cbn|discriminate].
    destruct (results dr !! j) as [[st|]|]; cbn; try discriminate.
    pose proof (retries_left_resume r ok s Hinv) as Hr.
    destruct (executeQueuedOperation_resume r ok s) as [s1 st].
    intros [= <-]. exact Hr.
  - intros Hres.
    assert (∃ dr, drains s !! d = Some dr) as [dr Hd].
    { revert Hres. unfold processOperationQueue_resume.
      destruct (drains s !! d); [eauto|discriminate]. }
    destruct (processOperationQueue_resume_store d s s' dr Hd Hres) as (_ & Hsame & _).
    eapply retries_left_same; [exact Hsame|].
    eapply retries_left_shrunk; [apply removeCompleted_shrunk|exact Hinv].
  - unfold retry_resume.
    destruct (retries s !! k) as [r|]; [cbn|discriminate].
    intros [= <-].
    apply (retries_left_resume r ok (set_retries (base.delete k (retries s)) s)).
    exact Hinv.
  - intros Hr. eapply retries_left_same; [|exact Hinv].
    revert Hr. unfold fireTimer.
    destruct (timers s !! h) as [[tm due]|]; [cbn|discriminate].
    destruct (_ <=? _); [|discriminate].
    destruct tm; intros [= <-].
    + unfold checkCompletion, queue_find. unchanged.
    + unfold queueTimeout, queue_find. unchanged.
    + unchanged.
  - destruct (0 <=? dt); [|discriminate]. intros [= <-]. exact Hinv.
  - intros [= <-]. eapply retries_left_shrunk; [|exact Hinv].
    split; [reflexivity|]. intros r [].
Qed.

(** A queued entry always has retries left: in every reachable state
    retry counts are non-negative, and each entry of the queue has
    either never failed or failed at most [maxRetries] times; an entry
    that has used up its retries is never in the queue. *)
Theorem queued_entries_have_retries_left (s : t) :
  reachable s →
  ∀ r o, In r (operationQueue s) → heap s !! r = Some o →
    0 ≤ retryCount o ∧ (retryCount o = 0 ∨ retryCount o ≤ maxRetries o).
Proof.
  intros [trace Hrun].
  assert (∀ trace s0 s1, retries_left s0 → run s0 trace = Some s1 → retries_left s1)
    as Hgen.
  { clear. induction trace as [|e trace IH]; intros s0 s1 Hinv; cbn.
    - intros [= <-]. exact Hinv.
    - destruct (step s0 e) as [s2|] eqn:He; [cbn|discriminate].
      apply IH. eapply step_retries_left; eassumption. }
  assert (retries_left s) as [H0 Hl].
  { eapply Hgen; [|exact Hrun]. split; [intros r o [=]|intros r o []]. }
  intros r o Hin Hlook. split; [eapply H0; exact Hlook|eapply Hl; eassumption].
Qed.

End OfflineManagerMore.

(** ** The properties above, at sample inputs *)

Section Instances.
Import Firestore RequestService.
Local Open Scope Z_scope.

Lemma create_then_getById_witness :
  ∃ entity,
    (BaseService.create sample_request (world_of ∅ healthy)).1
    = Returned (succeeded (Some entity))
    ∧ (BaseService.getById "req-1"
         (BaseService.create sample_request (world_of ∅ healthy)).2).1
      = Returned (succeeded (Some entity)).
Proof.
  destruct (create_then_getById sample_request (world_of ∅ healthy))
    as (Hcreated & Hread & _); [intros i; reflexivity|].
  eexists. split; [exact Hcreated|exact Hread].
Defined.

Lemma write_survives_failed_readback_witness :
  let w := world_of ∅ (fails_at 1 firestore_unavailable) in
  (BaseService.create sample_request w).1 = Returned (failed firestore_unavailable)
  ∧ is_Some (docs (BaseService.create sample_request w).2 !! "req-1").
Proof.
  destruct (@write_survives_failed_readback Request Request_entity sample_request "req-1" (mkPartial
              None None None None None None None None None None None None)
              sample_request firestore_unavailable
              (world_of ∅ (fails_at 1 firestore_unavailable)))
    as [[Hresp Hstored] _]; [reflexivity|reflexivity|].
  split; [exact Hresp|]. eexists. exact Hstored.
Defined.

Lemma delete_then_getById_witness :
  let w := world_of {[ "req-1" := sample_request ]} healthy in
  (BaseService.getById "req-1" (BaseService.delete "req-1" w).2).1
  = Returned document_not_found.
Proof.
  destruct (proj1 (delete_then_getById "req-1"
                     (world_of {[ "req-1" := sample_request ]} healthy)))
    as (_ & Hgone & _); [intros i; reflexivity|].
  exact Hgone.
Defined.

Lemma decision_overwrites_approvals_witness :
  let denied_meanwhile :=
    decided deny "parent-1" (Some "Too late") 1000 0 sample_request in
  let w' := world_of {[ "req-1" := denied_meanwhile ]} healthy in
  ∃ r'',
    docs (approveRequest_resume (found "req-1" sample_request) "req-1" "parent-2"
            (Some "Just today") 2000 w').2 !! "req-1" = Some r''
    ∧ approvals r'' = [mkApproval "parent-2" approve (Some "Just today") 2000].
Proof.
  destruct (decision_overwrites_approvals "req-1" sample_request
              (decided deny "parent-1" (Some "Too late") 1000 0 sample_request)
              (world_of {[ "req-1" :=
                 decided deny "parent-1" (Some "Too late") 1000 0 sample_request ]}
                 healthy))
    as [Hdecide _]; [vm_compute; reflexivity|].
  destruct (Hdecide approve "parent-2" (Some "Just today") 2000)
    as (r'' & Hlook & _ & Hlost & _).
  exists r''. split; [exact Hlook|exact (Hlost (mk_is_Some _ _ eq_refl) eq_refl)].
Defined.

Lemma missing_request_untouched_witness :
  decide_request approve "req-9" "parent-1" None 5 (world_of ∅ healthy)
  = (Returned document_not_found, tick (world_of ∅ healthy)).
Proof.
  destruct (missing_request_untouched "req-9" (world_of ∅ healthy))
    as [Hdecide _]; [reflexivity|].
  exact (Hdecide approve "parent-1" None 5).
Defined.

Lemma status_consistent_unless_interleaved_witness :
  let approved_meanwhile :=
    decided approve "parent-1" (Some "Homework first")
      (november_2023 + 1000) (november_2023 + 1000) fresh_request in
  let w := world_of {[ "req-1" := approved_meanwhile ]} healthy in
  all_consistent
    (denyRequest_resume (found "req-1" fresh_request) "req-1" "parent-2"
       (Some "Too late") (november_2023 + 2000) w).2
  ∧ ¬ all_consistent
        (checkRequestExpiry_resume (found "req-1" fresh_request) "req-1"
           (november_2023 + 2000) w).2.
Proof.
  set (approved_meanwhile :=
         decided approve "parent-1" (Some "Homework first")
           (november_2023 + 1000) (november_2023 + 1000) fresh_request).
  destruct (status_consistent_unless_interleaved
              (world_of {[ "req-1" := approved_meanwhile ]} healthy))
    as (_ & Hdecide & _ & _ & _ & _ & _ & Hbreak).
  - intros id r Hlook. cbn [world_of docs] in Hlook.
    apply lookup_singleton_Some in Hlook as [_ <-]. left. reflexivity.
  - split.
    + exact (Hdecide deny (found "req-1" fresh_request) "req-1" "parent-2"
               (Some "Too late") (november_2023 + 2000)).
    + apply (Hbreak "req-1" (november_2023 + 2000) fresh_request approved_meanwhile).
      * vm_compute. reflexivity.
      * discriminate.
      * reflexivity.
      * vm_compute. reflexivity.
      * reflexivity.
Defined.

Lemma online_call_outcomes_witness :
  (OfflineManager.executeWithOfflineSupport 7%nat some_context default_options
     "k3x9q2m1z" OfflineManager.initial).2
  = OfflineManager.Awaiting 0
  ∧ OfflineManager.executeWithOfflineSupport_resume 0 (Some permission_denied) "x"
      (OfflineManager.executeWithOfflineSupport 7%nat some_context default_options
         "k3x9q2m1z" OfflineManager.initial).1
    = Some (OfflineManager.initial, OfflineManager.ThrownRaw permission_denied).
Proof.
  destruct (online_call_outcomes 7%nat some_context default_options "k3x9q2m1z" "x"
              OfflineManager.initial eq_refl) as (Hstart & _ & Hfail).
  split; [exact Hstart|exact (Hfail permission_denied)].
Defined.

Lemma drain_empties_snapshot_witness :
  ∃ s', OfflineManager.processOperationQueue_resume 0 drain_failed = Some s'
    ∧ OfflineManager.heap drain_failed !! 0%nat = Some failed_entry
    ∧ OfflineManager.queue_find drain_failed "op_0_k3x9q2m1z" = Some 0%nat
    ∧ OfflineManager.queue_find s' "op_0_k3x9q2m1z" = None.
Proof.
  set (s' := default OfflineManager.initial
               (OfflineManager.processOperationQueue_resume 0 drain_failed)).
  assert (OfflineManager.processOperationQueue_resume 0 drain_failed = Some s') as Hres
    by (vm_compute; reflexivity).
  assert (OfflineManager.reachable drain_failed) as Hreach
    by (exists drain_one_failure; vm_compute; reflexivity).
  destruct (drain_empties_snapshot drain_failed s' 0
              (OfflineManager.mkDrain [0%nat] [Some OfflineManager.fulfilled])
              Hreach ltac:(vm_compute; reflexivity) Hres) as (_ & _ & Hgone).
  destruct (Hgone 0%nat failed_entry) as [Hnone _];
    [left; reflexivity|vm_compute; reflexivity|].
  exists s'. split; [exact Hres|]. split; [vm_compute; reflexivity|].
  split; [vm_compute; reflexivity|exact Hnone].
Defined.

Lemma queued_entries_have_retries_left_witness :
  0 ≤ OfflineManager.retryCount failed_entry
  ∧ (OfflineManager.retryCount failed_entry = 0
     ∨ OfflineManager.retryCount failed_entry ≤ OfflineManager.maxRetries failed_entry).
Proof.
  apply (queued_entries_have_retries_left drain_failed
           ltac:(exists drain_one_failure; vm_compute; reflexivity) 0%nat failed_entry).
  - left. reflexivity.
  - vm_compute. reflexivity.
Defined.

End Instances.
